(** * Crawl execution engine of hydra-frog-os: a shallow embedding

    The development follows the worker's source files:

    - [Js]          the handful of JavaScript string operations the code uses;
    - [Issues]      packages/shared/src/issues (rule table, [evaluatePageIssues]);
    - [Url]         workers/crawler/src/url/normalize.ts ([normalizeUrl]);
    - [Store]       the relational store as the Prisma calls see it;
    - [PostProcess] crawl/post-processor.ts ([postProcessCrawl]);
    - [Summary]     crawl/issue-summary.ts ([saveIssueSummary]);
    - [GlobalIssues] crawl/global-issues.ts ([generateGlobalIssues]);
    - [Runner]      crawl/crawl-runner.ts ([runCrawl], the BFS loop);
    - [Lifecycle]   src/index.ts ([processJob]) and the API's [cancel].

    Strings are sequences of code units below 256 ([string]); numbers read
    from integer columns are [Z], numbers read from a JSON column are
    rationals ([Q]); nullable fields are [option]. Awaited
    calls run one after another, so the store is passed from call to call;
    logging and the throttle's sleep leave no trace in the model. *)

From Stdlib Require Import Ascii String ZArith QArith Qround Lia Bool Sorted.
From stdpp Require Import gmap strings list fin_maps pretty.

Set Warnings "-register-all".
Local Open Scope string_scope.
Local Open Scope Z_scope.

(* ===================================================================== *)
(** ** JavaScript string primitives *)
(* ===================================================================== *)

Module Js.

(** [String.prototype.trim] strips WhiteSpace and LineTerminator code
    points; below 256 these are TAB, LF, VT, FF, CR, SP and NBSP. *)
Definition isWhiteSpace (c : ascii) : bool :=
  let n := nat_of_ascii c in
  ((9 <=? n)%nat && (n <=? 13)%nat) || (n =? 32)%nat || (n =? 160)%nat.

Fixpoint trimStart (s : string) : string :=
  match s with
  | String c s' => if isWhiteSpace c then trimStart s' else s
  | EmptyString => EmptyString
  end.

Fixpoint rev_onto (s acc : string) : string :=
  match s with
  | String c s' => rev_onto s' (String c acc)
  | EmptyString => acc
  end.

Definition reverse (s : string) : string := rev_onto s EmptyString.

Definition trimEnd (s : string) : string := reverse (trimStart (reverse s)).

Definition trim (s : string) : string := trimEnd (trimStart s).

(** [toLowerCase], code unit by code unit. Below 256 the capital letters
    are A to Z (65 to 90) and the Latin-1 capitals (192 to 222, without
    the multiplication sign 215); each has its small letter 32 above it.
    The other code units below 256 are their own lower case. *)
Definition isUpper (n : nat) : bool :=
  ((65 <=? n)%nat && (n <=? 90)%nat)
  || ((192 <=? n)%nat && (n <=? 222)%nat && negb (n =? 215)%nat).

Definition lowerChar (c : ascii) : ascii :=
  let n := nat_of_ascii c in
  if isUpper n then ascii_of_nat (n + 32) else c.

Fixpoint toLowerCase (s : string) : string :=
  match s with
  | String c s' => String (lowerChar c) (toLowerCase s')
  | EmptyString => EmptyString
  end.

(** [s.includes(sub)] *)
Fixpoint includes (s sub : string) : bool :=
  if String.prefix sub s then true
  else match s with
       | String _ s' => includes s' sub
       | EmptyString => false
       end.

(** [s.endsWith(suffix)] *)
Definition endsWith (s suffix : string) : bool :=
  String.prefix (reverse suffix) (reverse s).

(** [s.length] *)
Definition length (s : string) : Z := Z.of_nat (String.length s).

(** The double-quote character, for literals that contain it. *)
Definition dq : string := String (ascii_of_nat 34) EmptyString.

(** [Array.prototype.sort(cmp)] is stable: an insertion sort that keeps
    elements the comparator does not separate in their order. *)
Fixpoint insertBy {A} (cmp : A -> A -> Z) (x : A) (l : list A) : list A :=
  match l with
  | [] => [x]
  | y :: l' => if cmp x y <=? 0 then x :: l else y :: insertBy cmp x l'
  end.

Definition sort {A} (cmp : A -> A -> Z) (l : list A) : list A :=
  foldr (insertBy cmp) [] l.

(** An object or [Map] used as a counter table, in insertion order:
    [o[k] = (o[k] ?? 0) + 1]. For a plain object this is the table of its
    own properties as long as no key is a property that [Object.prototype]
    has already ([__proto__], [constructor], ...) or an array index, which
    an object lists first; a [Map] has no such exception. *)
Fixpoint bump (k : string) (o : list (string * Z)) : list (string * Z) :=
  match o with
  | [] => [(k, 1)]
  | (k', n) :: o' =>
      if String.eqb k' k then (k', n + 1) :: o' else (k', n) :: bump k o'
  end.

(** [x ?? d] *)
Definition orElse {A} (x : option A) (d : A) : A :=
  match x with Some a => a | None => d end.

(** [n >= x] and [n > x] for an integer [n] (a size, a depth) and a
    number [x] that need not be one. *)
Definition geq (n : Z) (x : Q) : bool := Qle_bool x (inject_Z n).

Definition gt (n : Z) (x : Q) : bool := negb (Qle_bool (inject_Z n) x).

End Js.

Infix "??" := Js.orElse (at level 45, left associativity).

(** JSON values, as stored in the JSON columns and in issue evidence. A
    number has a rational value: [JNum] when it is an integer, [JFrac]
    for any other (0.5, say). Numbers beyond the range of a double, which
    are read as infinite, are left out. *)
Inductive Json :=
  | JNull
  | JBool (b : bool)
  | JNum (n : Z)
  | JFrac (q : Q)
  | JStr (s : string)
  | JArr (l : list Json)
  | JObj (m : gmap string Json).

(** JavaScript truthiness of a JSON value ([if (v)]). *)
Definition truthy (v : Json) : bool :=
  match v with
  | JNull => false
  | JBool b => b
  | JNum n => negb (n =? 0)
  | JFrac q => negb (Qeq_bool q 0)
  | JStr s => negb (String.eqb s "")
  | JArr _ | JObj _ => true
  end.

Definition optStr (s : option string) : Json :=
  match s with Some x => JStr x | None => JNull end.

Definition optNum (n : option Z) : Json :=
  match n with Some x => JNum x | None => JNull end.

(* ===================================================================== *)
(** ** Issue rules (packages/shared/src/issues) *)
(* ===================================================================== *)

Module Issues.

Inductive IssueType :=
  | STATUS_4XX_5XX | STATUS_3XX_REDIRECT | REDIRECT_CHAIN_LONG
  | MISSING_TITLE | DUPLICATE_TITLE | TITLE_TOO_LONG | TITLE_TOO_SHORT
  | MISSING_META_DESCRIPTION
  | H1_MISSING | H1_MULTIPLE
  | CANONICAL_MISSING | ROBOTS_NOINDEX
  | THIN_CONTENT
  | IMAGES_MISSING_ALT.

Inductive Severity := LOW | MEDIUM | HIGH | CRITICAL.

#[global] Instance IssueType_eq_dec : EqDecision IssueType.
Proof. solve_decision. Defined.

#[global] Instance Severity_eq_dec : EqDecision Severity.
Proof. solve_decision. Defined.

Record IssueDraft := {
  type : IssueType;
  severity : Severity;
  title : string;
  description : string;
  recommendation : string;
  evidenceJson : list (string * Json);
}.

Record PageAnalysisInput := {
  statusCode : option Z;
  pageTitle : option string;
  metaDescription : option string;
  h1Count : option Z;
  canonical : option string;
  robotsMeta : option string;
  wordCount : option Z;
  redirectChainJson : option Json;
}.

Record ExtraAnalysisInput := {
  imagesMissingAlt : option Z;
}.

Record RuleDefinition := {
  rule_type : IssueType;
  rule_severity : Severity;
  rule_title : string;
  rule_description : string;
  rule_recommendation : string;
  evaluate : PageAnalysisInput -> option ExtraAnalysisInput ->
             bool * list (string * Json);
}.

(** [page.redirectChainJson] is of type [unknown]: the rule counts the
    entries only when the value is truthy and an array. *)
Definition chainLengthOf (page : PageAnalysisInput) : Z :=
  match redirectChainJson page with
  | Some v =>
      if truthy v
      then match v with JArr chain => Z.of_nat (List.length chain) | _ => 0 end
      else 0
  | None => 0
  end.

Definition RULES : list RuleDefinition := [
  {| rule_type := STATUS_4XX_5XX; rule_severity := CRITICAL;
     rule_title := "Page returns error status code";
     rule_description := "This page returned an HTTP 4xx or 5xx error status code, meaning it is broken or unavailable.";
     rule_recommendation := "Fix the server error or update/remove links pointing to this URL.";
     evaluate := fun page _ =>
       let statusCode := statusCode page ?? 0 in
       let triggered := statusCode >=? 400 in
       (triggered, [("statusCode", JNum statusCode)]) |};
  {| rule_type := STATUS_3XX_REDIRECT; rule_severity := MEDIUM;
     rule_title := "Page redirects to another URL";
     rule_description := "This page returns a 3xx redirect status code instead of serving content directly.";
     rule_recommendation := "Update internal links to point directly to the final destination URL.";
     evaluate := fun page _ =>
       let statusCode := statusCode page ?? 0 in
       let triggered := (statusCode >=? 300) && (statusCode <? 400) in
       (triggered, [("statusCode", JNum statusCode)]) |};
  {| rule_type := REDIRECT_CHAIN_LONG; rule_severity := HIGH;
     rule_title := "Long redirect chain detected";
     rule_description := "This page goes through 3 or more redirects before reaching the final destination, which slows down page load.";
     rule_recommendation := "Reduce redirect chains by updating links to point directly to the final URL.";
     evaluate := fun page _ =>
       let chainLength := chainLengthOf page in
       let triggered := chainLength >=? 3 in
       (triggered, [("redirectChainLength", JNum chainLength)]) |};
  {| rule_type := MISSING_TITLE; rule_severity := HIGH;
     rule_title := "Missing page title";
     rule_description := "This page is missing a <title> tag, which is critical for SEO and user experience.";
     rule_recommendation := "Add a unique, descriptive <title> tag between 30-60 characters.";
     evaluate := fun page _ =>
       let title := (Js.trim <$> pageTitle page) ?? "" in
       let triggered := Js.length title =? 0 in
       (triggered, [("title", optStr (pageTitle page))]) |};
  {| rule_type := TITLE_TOO_LONG; rule_severity := LOW;
     rule_title := "Page title is too long";
     rule_description := "The title tag exceeds 60 characters and may be truncated in search results.";
     rule_recommendation := "Shorten the title to 60 characters or less to ensure it displays fully.";
     evaluate := fun page _ =>
       let title := (Js.trim <$> pageTitle page) ?? "" in
       let triggered := Js.length title >? 60 in
       (triggered, [("titleLength", JNum (Js.length title)); ("title", JStr title)]) |};
  {| rule_type := TITLE_TOO_SHORT; rule_severity := LOW;
     rule_title := "Page title is too short";
     rule_description := "The title tag has fewer than 10 characters, which may not be descriptive enough.";
     rule_recommendation := "Expand the title to at least 30 characters with relevant keywords.";
     evaluate := fun page _ =>
       let title := (Js.trim <$> pageTitle page) ?? "" in
       let triggered := (Js.length title >? 0) && (Js.length title <? 10) in
       (triggered, [("titleLength", JNum (Js.length title)); ("title", JStr title)]) |};
  {| rule_type := MISSING_META_DESCRIPTION; rule_severity := MEDIUM;
     rule_title := "Missing meta description";
     rule_description := "This page is missing a meta description, which search engines use as the snippet in results.";
     rule_recommendation := "Add a meta description between 120-160 characters summarizing the page content.";
     evaluate := fun page _ =>
       let metaDescription' := (Js.trim <$> metaDescription page) ?? "" in
       let triggered := Js.length metaDescription' =? 0 in
       (triggered, [("metaDescription", optStr (metaDescription page))]) |};
  {| rule_type := H1_MISSING; rule_severity := HIGH;
     rule_title := "Missing H1 heading";
     rule_description := "This page has no H1 heading, which is important for content structure and SEO.";
     rule_recommendation := "Add exactly one H1 heading that describes the main topic of the page.";
     evaluate := fun page _ =>
       let h1Count := h1Count page ?? 0 in
       let triggered := h1Count =? 0 in
       (triggered, [("h1Count", JNum h1Count)]) |};
  {| rule_type := H1_MULTIPLE; rule_severity := LOW;
     rule_title := "Multiple H1 headings";
     rule_description := "This page has more than one H1 heading, which can confuse search engines about the main topic.";
     rule_recommendation := "Use only one H1 heading per page and use H2-H6 for subheadings.";
     evaluate := fun page _ =>
       let h1Count := h1Count page ?? 0 in
       let triggered := h1Count >? 1 in
       (triggered, [("h1Count", JNum h1Count)]) |};
  {| rule_type := CANONICAL_MISSING; rule_severity := LOW;
     rule_title := "Missing canonical tag";
     rule_description := "This page is missing a canonical URL tag, which helps prevent duplicate content issues.";
     rule_recommendation := "Add a <link rel=" +:+ Js.dq +:+ "canonical" +:+ Js.dq +:+ "> tag pointing to the preferred version of this page.";
     evaluate := fun page _ =>
       let canonical' := (Js.trim <$> canonical page) ?? "" in
       let triggered := Js.length canonical' =? 0 in
       (triggered, [("canonical", optStr (canonical page))]) |};
  {| rule_type := ROBOTS_NOINDEX; rule_severity := MEDIUM;
     rule_title := "Page blocked from indexing";
     rule_description := "This page has a " +:+ Js.dq +:+ "noindex" +:+ Js.dq +:+ " directive in the robots meta tag, preventing search engines from indexing it.";
     rule_recommendation := "Remove " +:+ Js.dq +:+ "noindex" +:+ Js.dq +:+ " if you want this page to appear in search results.";
     evaluate := fun page _ =>
       let robotsMeta' := (Js.toLowerCase <$> robotsMeta page) ?? "" in
       let triggered := Js.includes robotsMeta' "noindex" in
       (triggered, [("robotsMeta", optStr (robotsMeta page))]) |};
  {| rule_type := THIN_CONTENT; rule_severity := LOW;
     rule_title := "Thin content detected";
     rule_description := "This page has fewer than 150 words, which may be considered low-quality content.";
     rule_recommendation := "Add more valuable content to reach at least 300-500 words for better SEO.";
     evaluate := fun page _ =>
       let triggered :=
         match wordCount page with Some wc => wc <? 150 | None => false end in
       (triggered, [("wordCount", optNum (wordCount page))]) |};
  {| rule_type := IMAGES_MISSING_ALT; rule_severity := LOW;
     rule_title := "Images missing alt text";
     rule_description := "One or more images on this page are missing alt attributes, reducing accessibility.";
     rule_recommendation := "Add descriptive alt text to all images for screen readers and SEO.";
     evaluate := fun _ extra =>
       let imagesMissingAlt := (extra ≫= imagesMissingAlt) ?? 0 in
       let triggered := imagesMissingAlt >? 0 in
       (triggered, [("imagesMissingAlt", JNum imagesMissingAlt)]) |}
].

(** The loop body of [evaluatePageIssues]: push a draft when the rule
    triggers. *)
Definition pushIfTriggered (page : PageAnalysisInput)
    (extra : option ExtraAnalysisInput)
    (issues : list IssueDraft) (rule : RuleDefinition) : list IssueDraft :=
  let '(triggered, evidence) := evaluate rule page extra in
  if triggered
  then issues ++ [ {| type := rule_type rule;
                      severity := rule_severity rule;
                      title := rule_title rule;
                      description := rule_description rule;
                      recommendation := rule_recommendation rule;
                      evidenceJson := evidence |} ]
  else issues.

Definition evaluatePageIssues (page : PageAnalysisInput)
    (extra : option ExtraAnalysisInput) : list IssueDraft :=
  foldl (pushIfTriggered page extra) [] RULES.

(** A rule without its [evaluate] function, as [getAllRules] and
    [getRuleByType] hand it out. *)
Record RuleInfo := {
  info_type : IssueType;
  info_severity : Severity;
  info_title : string;
  info_description : string;
  info_recommendation : string;
}.

(** [({ evaluate: _evaluate, ...rest }) => rest] *)
Definition withoutEvaluate (rule : RuleDefinition) : RuleInfo :=
  {| info_type := rule_type rule; info_severity := rule_severity rule;
     info_title := rule_title rule; info_description := rule_description rule;
     info_recommendation := rule_recommendation rule |}.

Definition getAllRules : list RuleInfo := withoutEvaluate <$> RULES.

(** [RULES.find((r) => r.type === type)], [None] for [undefined]. *)
Definition getRuleByType (t : IssueType) : option RuleInfo :=
  match List.find (fun r => bool_decide (rule_type r = t)) RULES with
  | Some rule => Some (withoutEvaluate rule)
  | None => None
  end.

End Issues.

(* ===================================================================== *)
(** ** URL normalisation (workers/crawler/src/url/normalize.ts) *)
(* ===================================================================== *)

Module Url.

(** *** The platform's [URL] class

    [new URL(raw)] is the runtime's WHATWG parser. It is modelled on
    inputs of the shape [scheme://host[:port][path][?query][#fragment]]
    written in printable ASCII without spaces, with a plain host name (no
    credentials, no IP literal), and a path without dot segments or
    characters the parser would rewrite. On any other input [parseURL]
    gives [None]. The record keeps the parser's distinction between a
    missing query and an empty one, which the serialiser shows as a bare
    [?]. *)

Record URL := {
  protocol : string;           (* with the colon: "http:" *)
  hostname : string;
  port : string;               (* empty when absent or the scheme's default *)
  pathname : string;
  query : option string;       (* without the leading "?" *)
  fragment : option string;    (* without the leading "#" *)
}.

Definition chr (n : nat) : ascii := ascii_of_nat n.
Definition code (c : ascii) : nat := nat_of_ascii c.

Definition isDigit (c : ascii) : bool := ((48 <=? code c) && (code c <=? 57))%nat.
Definition isUpper (c : ascii) : bool := ((65 <=? code c) && (code c <=? 90))%nat.
Definition isLower (c : ascii) : bool := ((97 <=? code c) && (code c <=? 122))%nat.
Definition isAlpha (c : ascii) : bool := isUpper c || isLower c.
Definition isAlnum (c : ascii) : bool := isAlpha c || isDigit c.

Definition isOneOf (cs : string) (c : ascii) : bool :=
  existsb (Ascii.eqb c) (list_ascii_of_string cs).

Fixpoint allb (p : ascii -> bool) (s : string) : bool :=
  match s with
  | String c s' => p c && allb p s'
  | EmptyString => true
  end.

(** [span p s]: the longest prefix of [s] whose characters fail [p], and
    the rest (which starts with a character satisfying [p], or is empty). *)
Fixpoint span (p : ascii -> bool) (s : string) : string * string :=
  match s with
  | String c s' =>
      if p c then (EmptyString, s)
      else let '(a, b) := span p s' in (String c a, b)
  | EmptyString => (EmptyString, EmptyString)
  end.

(** [split sep s]: [s.split(sep)] for a one-character separator. *)
Fixpoint split (sep : ascii) (s : string) : list string :=
  match s with
  | String c s' =>
      if Ascii.eqb c sep then EmptyString :: split sep s'
      else match split sep s' with
           | hd :: tl => String c hd :: tl
           | [] => [String c EmptyString]
           end
  | EmptyString => [EmptyString]
  end.

Fixpoint parseDecimal (acc : N) (s : string) : N :=
  match s with
  | String c s' => parseDecimal (10 * acc + (N.of_nat (code c) - 48))%N s'
  | EmptyString => acc
  end.

Definition hexDigit (n : nat) : ascii :=
  if (n <? 10)%nat then chr (48 + n) else chr (55 + n).

Definition hexValue (c : ascii) : option nat :=
  if isDigit c then Some (code c - 48)%nat
  else if ((65 <=? code c) && (code c <=? 70))%nat then Some (code c - 55)%nat
  else if ((97 <=? code c) && (code c <=? 102))%nat then Some (code c - 87)%nat
  else None.

Definition percentEncodeChar (c : ascii) : string :=
  String "%" (String (hexDigit (code c / 16)) (String (hexDigit (code c mod 16)) EmptyString)).

Fixpoint encodeWith (keep : ascii -> bool) (s : string) : string :=
  match s with
  | String c s' =>
      (if keep c then String c EmptyString else percentEncodeChar c)
        +:+ encodeWith keep s'
  | EmptyString => EmptyString
  end.

(** Characters the parser leaves alone in a query of an http(s) URL. *)
Definition queryKeeps (c : ascii) : bool :=
  ((33 <=? code c) && (code c <=? 126))%nat
  && negb (isOneOf (Js.dq +:+ "#<>'") c).

(** Characters the parser leaves alone in a fragment. *)
Definition fragmentKeeps (c : ascii) : bool :=
  ((33 <=? code c) && (code c <=? 126))%nat
  && negb (isOneOf (Js.dq +:+ "<>`") c).

(** Path characters the model covers: those the parser copies as they
    are. *)
Definition pathPlain (c : ascii) : bool :=
  ((33 <=? code c) && (code c <=? 126))%nat
  && negb (isOneOf (Js.dq +:+ "#<>?`{}^\%") c).

Definition isDotSegment (seg : string) : bool :=
  String.eqb seg "." || String.eqb seg "..".

Definition hostPlain (c : ascii) : bool :=
  isAlnum c || isOneOf "-._" c.

Definition printable (c : ascii) : bool :=
  ((33 <=? code c) && (code c <=? 126))%nat.

Definition isSchemeChar (c : ascii) : bool := isAlnum c || isOneOf "+-." c.

Definition defaultPort (scheme : string) : N :=
  if String.eqb scheme "http" then 80%N else 443%N.

(** The last label of a host that the parser would read as a number makes
    it an IPv4 literal, which the model leaves out. *)
Definition lastLabelNumeric (host : string) : bool :=
  match List.last (split "." host) EmptyString with
  | EmptyString => true
  | String c _ => isDigit c
  end.

Definition parseAuthority (scheme authority : string) : option (string * string) :=
  let '(host, rest) := span (Ascii.eqb ":") authority in
  let portText := match rest with String _ p => p | EmptyString => EmptyString end in
  if String.eqb host "" then None
  else if negb (allb hostPlain host) || lastLabelNumeric host then None
  else if negb (allb isDigit portText) then None
  else
    let n := parseDecimal 0 portText in
    if (65535 <? n)%N then None
    else if String.eqb portText "" || (n =? defaultPort scheme)%N
         then Some (Js.toLowerCase host, EmptyString)
         else Some (Js.toLowerCase host, pretty n).

Definition parseURL (raw : string) : option URL :=
  if negb (allb printable raw) then None else
  let '(scheme0, afterScheme) := span (Ascii.eqb ":") raw in
  let scheme := Js.toLowerCase scheme0 in
  match scheme0, afterScheme with
  | String c0 _, String _ rest =>
      if negb (isAlpha c0 && allb isSchemeChar scheme0) then None
      else if negb (String.eqb scheme "http" || String.eqb scheme "https") then
        (* any other scheme: only the protocol matters to the caller *)
        Some {| protocol := scheme +:+ ":"; hostname := EmptyString;
                port := EmptyString; pathname := rest;
                query := None; fragment := None |}
      else match rest with
      | String "/" (String "/" afterSlashes) =>
          let '(authority, tail) := span (isOneOf "/?#") afterSlashes in
          let '(path0, tail') := span (isOneOf "?#") tail in
          let '(queryPart, fragPart) := span (Ascii.eqb "#") tail' in
          match parseAuthority scheme authority with
          | None => None
          | Some (host, portText) =>
              if negb (allb pathPlain path0)
                 || existsb isDotSegment (split "/" path0) then None
              else
                Some {| protocol := scheme +:+ ":";
                        hostname := host;
                        port := portText;
                        pathname := if String.eqb path0 "" then "/" else path0;
                        query := match queryPart with
                                 | String _ q => Some (encodeWith queryKeeps q)
                                 | EmptyString => None
                                 end;
                        fragment := match fragPart with
                                    | String _ f => Some (encodeWith fragmentKeeps f)
                                    | EmptyString => None
                                    end |}
          end
      | _ => None
      end
  | _, _ => None
  end.

(** [url.search] *)
Definition search (u : URL) : string :=
  match query u with
  | Some q => if String.eqb q "" then "" else "?" +:+ q
  | None => ""
  end.

(** [url.search = value] *)
Definition setSearch (value : string) (u : URL) : URL :=
  let q := if String.eqb value "" then None
           else Some (encodeWith queryKeeps
                        (match value with
                         | String "?" v => v
                         | _ => value
                         end)) in
  {| protocol := protocol u; hostname := hostname u; port := port u;
     pathname := pathname u; query := q; fragment := fragment u |}.

(** [url.hash = ''] *)
Definition clearHash (u : URL) : URL :=
  {| protocol := protocol u; hostname := hostname u; port := port u;
     pathname := pathname u; query := query u; fragment := None |}.

(** [url.hostname = value], for a value that is a plain host name. *)
Definition setHostname (value : string) (u : URL) : URL :=
  if String.eqb value "" || negb (allb hostPlain value) then u
  else {| protocol := protocol u; hostname := Js.toLowerCase value;
          port := port u; pathname := pathname u; query := query u;
          fragment := fragment u |}.

(** [url.port = ''] *)
Definition clearPort (u : URL) : URL :=
  {| protocol := protocol u; hostname := hostname u; port := EmptyString;
     pathname := pathname u; query := query u; fragment := fragment u |}.

(** [url.toString()] *)
Definition toString (u : URL) : string :=
  protocol u +:+ "//" +:+ hostname u
    +:+ (if String.eqb (port u) "" then "" else ":" +:+ port u)
    +:+ pathname u
    +:+ (match query u with Some q => "?" +:+ q | None => "" end)
    +:+ (match fragment u with Some f => "#" +:+ f | None => "" end).

(** *** [URLSearchParams] and [encodeURIComponent] *)

Fixpoint percentDecode (s : string) : string :=
  match s with
  | String "%" (String a (String b rest as tl2) as tl1) =>
      match hexValue a, hexValue b with
      | Some x, Some y => String (chr (16 * x + y)) (percentDecode rest)
      | _, _ => String "%" (percentDecode tl1)
      end
  | String c s' => String c (percentDecode s')
  | EmptyString => EmptyString
  end.

Fixpoint plusToSpace (s : string) : string :=
  match s with
  | String c s' => String (if Ascii.eqb c "+" then " "%char else c) (plusToSpace s')
  | EmptyString => EmptyString
  end.

Definition parsePair (piece : string) : string * string :=
  let '(name, rest) := span (Ascii.eqb "=") piece in
  let value := match rest with String _ v => v | EmptyString => EmptyString end in
  (percentDecode (plusToSpace name), percentDecode (plusToSpace value)).

(** [new URLSearchParams(search).entries()] *)
Definition searchParams (search : string) : list (string * string) :=
  let body := match search with String "?" b => b | _ => search end in
  parsePair <$> filter (fun piece => piece <> EmptyString) (split "&" body).

Definition uriUnreserved (c : ascii) : bool :=
  isAlnum c || isOneOf "-_.!~*'()" c.

Definition encodeURIComponent (s : string) : string :=
  encodeWith uriUnreserved s.

(** *** [normalizeUrl] *)

Section Normalize.

(** [a.localeCompare(b)]: the runtime's collation, negative, zero or
    positive. *)
Variable localeCompare : string -> string -> Z.

Definition sortByKey (l : list (string * string)) : list (string * string) :=
  Js.sort (fun a b => localeCompare a.1 b.1) l.

Definition encodePair (kv : string * string) : string :=
  let '(k, v) := kv in
  if String.eqb v "" then encodeURIComponent k
  else encodeURIComponent k +:+ "=" +:+ encodeURIComponent v.

(** [normalized.slice(0, -1)] *)
Definition dropLast (s : string) : string :=
  String.substring 0 (String.length s - 1) s.

(** [ignoreParams.map(p => p.toLowerCase())]. The declared [string[]] is
    not checked where the array is read from the settings: an element
    that is no string has no [toLowerCase], the call throws, and the
    whole function's [catch] returns [null]. *)
Definition lowerCased (ignoreParams : list Json) : option (list string) :=
  mapM (fun p => match p with JStr s => Some (Js.toLowerCase s) | _ => None end)
       ignoreParams.

Definition normalizeUrl (rawUrl : string) (ignoreParams : list Json)
    : option string :=
  match parseURL rawUrl with
  | None => None                                   (* [catch]: invalid URL *)
  | Some url =>
      (* Only allow http/https *)
      if negb (String.eqb (protocol url) "http:")
         && negb (String.eqb (protocol url) "https:")
      then None
      else
        (* Lowercase hostname *)
        let url := setHostname (Js.toLowerCase (hostname url)) url in
        (* Remove default ports *)
        let url :=
          if (String.eqb (protocol url) "http:" && String.eqb (port url) "80")
             || (String.eqb (protocol url) "https:" && String.eqb (port url) "443")
          then clearPort url else url in
        (* Remove fragment *)
        let url := clearHash url in
        (* Process query params: remove ignored, sort remaining *)
        let params := searchParams (search url) in
        match lowerCased ignoreParams with
        | None => None                             (* [catch]: [p.toLowerCase] *)
        | Some ignoreSet =>
            let filteredParams :=
              filter (fun kv => Js.toLowerCase kv.1 ∉ ignoreSet) params in
            let filteredParams := sortByKey filteredParams in
            (* Rebuild search string *)
            let url :=
              match filteredParams with
              | _ :: _ =>
                  setSearch ("?" +:+ String.concat "&" (encodePair <$> filteredParams))
                            url
              | [] => setSearch "" url
              end in
            (* Build the URL string *)
            let normalized := toString url in
            (* Remove trailing slash except for root path *)
            if negb (String.eqb (pathname url) "/") && Js.endsWith normalized "/"
            then Some (dropLast normalized)
            else Some normalized
        end
  end.

(** [new URL(link, baseUrl)], for a link that is itself an absolute
    URL (the base must parse, and is then not used). Relative references
    are outside the model. *)
Definition resolveURL (link baseUrl : string) : option URL :=
  match parseURL baseUrl with
  | None => None
  | Some _ => parseURL link
  end.

Definition resolveAndNormalize (link baseUrl : string) (ignoreParams : list Json)
    : option string :=
  match resolveURL link baseUrl with
  | Some resolved => normalizeUrl (toString resolved) ignoreParams
  | None => None
  end.

End Normalize.

(** [isInternalUrl] (src/url/isInternal) *)
Definition isInternalUrl (candidateUrl baseDomain : string) (includeSubdomains : bool)
    : bool :=
  match parseURL candidateUrl with
  | None => false
  | Some url =>
      let hostname := Js.toLowerCase (hostname url) in
      let domain := Js.toLowerCase baseDomain in
      if String.eqb hostname domain then true
      else if includeSubdomains && Js.endsWith hostname ("." +:+ domain) then true
      else false
  end.

(** Code-unit order, used where a concrete collation is needed. *)
Fixpoint codeUnitCompare (a b : string) : Z :=
  match a, b with
  | EmptyString, EmptyString => 0
  | EmptyString, String _ _ => -1
  | String _ _, EmptyString => 1
  | String x a', String y b' =>
      if (code x <? code y)%nat then -1
      else if (code y <? code x)%nat then 1
      else codeUnitCompare a' b'
  end.

End Url.

(* ===================================================================== *)
(** ** The relational store, as the Prisma calls see it *)
(* ===================================================================== *)

Module Store.

Inductive CrawlRunStatus := QUEUED | RUNNING | DONE | FAILED | CANCELED.
Inductive LinkType := INTERNAL | EXTERNAL.

#[global] Instance CrawlRunStatus_eq_dec : EqDecision CrawlRunStatus.
Proof. solve_decision. Defined.

#[global] Instance LinkType_eq_dec : EqDecision LinkType.
Proof. solve_decision. Defined.

Record Project := {
  project_id : string;
  project_domain : string;
  project_startUrl : string;
  project_settingsJson : Json;
}.

Record CrawlRun := {
  run_id : string;
  run_projectId : string;
  run_status : CrawlRunStatus;
  run_createdAt : nat;
  run_startedAt : option nat;
  run_finishedAt : option nat;
  run_totalsJson : Json;
}.

Record Page := {
  page_id : string;
  page_crawlRunId : string;
  page_url : string;
  page_normalizedUrl : string;
  page_statusCode : option Z;
  page_contentType : option string;
  page_title : option string;
  page_metaDescription : option string;
  page_h1Count : option Z;
  page_canonical : option string;
  page_robotsMeta : option string;
  page_wordCount : option Z;
  page_templateSignatureHash : option string;
  page_templateSignatureJson : option Json;
  page_templateId : option string;
}.

Record Link := {
  link_id : string;
  link_crawlRunId : string;
  link_fromPageId : option string;
  link_toUrl : string;
  link_toNormalizedUrl : string;
  link_linkType : LinkType;
  link_isBroken : bool;
  link_statusCode : option Z;
}.

Record Issue := {
  issue_id : string;
  issue_crawlRunId : string;
  issue_pageId : option string;
  issue_type : string;
  issue_severity : Issues.Severity;
  issue_title : string;
  issue_description : string;
  issue_recommendation : string;
  issue_evidenceJson : Json;
}.

Record Template := {
  template_id : string;
  template_crawlRunId : string;
  template_signatureHash : string;
  template_samplePageId : option string;
  template_pageCount : Z;
}.

(** Runs and projects are looked up by primary key only; the child tables
    are scanned, so they are kept as row lists in insertion order.
    [nextId] feeds the generated primary keys. *)
Record DB := {
  projects : gmap string Project;
  crawlRuns : gmap string CrawlRun;
  pages : list Page;
  links : list Link;
  issues : list Issue;
  templates : list Template;
  nextId : nat;
}.

Definition setCrawlRuns (f : gmap string CrawlRun -> gmap string CrawlRun) (db : DB) : DB :=
  {| projects := projects db; crawlRuns := f (crawlRuns db); pages := pages db;
     links := links db; issues := issues db; templates := templates db;
     nextId := nextId db |}.

Definition setPages (f : list Page -> list Page) (db : DB) : DB :=
  {| projects := projects db; crawlRuns := crawlRuns db; pages := f (pages db);
     links := links db; issues := issues db; templates := templates db;
     nextId := nextId db |}.

Definition setLinks (f : list Link -> list Link) (db : DB) : DB :=
  {| projects := projects db; crawlRuns := crawlRuns db; pages := pages db;
     links := f (links db); issues := issues db; templates := templates db;
     nextId := nextId db |}.

Definition setIssues (f : list Issue -> list Issue) (db : DB) : DB :=
  {| projects := projects db; crawlRuns := crawlRuns db; pages := pages db;
     links := links db; issues := f (issues db); templates := templates db;
     nextId := nextId db |}.

Definition bumpId (n : nat) (db : DB) : DB :=
  {| projects := projects db; crawlRuns := crawlRuns db; pages := pages db;
     links := links db; issues := issues db; templates := templates db;
     nextId := (nextId db + n)%nat |}.

Definition freshId (prefix : string) (n : nat) : string := prefix +:+ pretty n.

(** [prisma.crawlRun.update({ where: { id }, data })]: [None] when the row
    does not exist (the call rejects). *)
Definition crawlRun_update (id : string) (f : CrawlRun -> CrawlRun) (db : DB)
    : option DB :=
  match crawlRuns db !! id with
  | Some run => Some (setCrawlRuns (insert id (f run)) db)
  | None => None
  end.

Definition withStatus (s : CrawlRunStatus) (run : CrawlRun) : CrawlRun :=
  {| run_id := run_id run; run_projectId := run_projectId run;
     run_status := s; run_createdAt := run_createdAt run; run_startedAt := run_startedAt run;
     run_finishedAt := run_finishedAt run; run_totalsJson := run_totalsJson run |}.

Definition withStartedAt (t : nat) (run : CrawlRun) : CrawlRun :=
  {| run_id := run_id run; run_projectId := run_projectId run;
     run_status := run_status run; run_createdAt := run_createdAt run;
     run_startedAt := Some t;
     run_finishedAt := run_finishedAt run; run_totalsJson := run_totalsJson run |}.

Definition withFinishedAt (t : nat) (run : CrawlRun) : CrawlRun :=
  {| run_id := run_id run; run_projectId := run_projectId run;
     run_status := run_status run; run_createdAt := run_createdAt run;
     run_startedAt := run_startedAt run;
     run_finishedAt := Some t; run_totalsJson := run_totalsJson run |}.

Definition withTotals (j : Json) (run : CrawlRun) : CrawlRun :=
  {| run_id := run_id run; run_projectId := run_projectId run;
     run_status := run_status run; run_createdAt := run_createdAt run;
     run_startedAt := run_startedAt run;
     run_finishedAt := run_finishedAt run; run_totalsJson := j |}.

(** [deleteMany({ where: { crawlRunId } })] on the three child tables the
    runner clears. *)
Definition issue_deleteMany (crawlRunId : string) (db : DB) : DB :=
  setIssues (filter (fun i => issue_crawlRunId i <> crawlRunId)) db.

Definition link_deleteMany (crawlRunId : string) (db : DB) : DB :=
  setLinks (filter (fun l => link_crawlRunId l <> crawlRunId)) db.

Definition clearFromPage (gone : list string) (l : Link) : Link :=
  {| link_id := link_id l; link_crawlRunId := link_crawlRunId l;
     link_fromPageId :=
       match link_fromPageId l with
       | Some p => if bool_decide (p ∈ gone) then None else Some p
       | None => None
       end;
     link_toUrl := link_toUrl l; link_toNormalizedUrl := link_toNormalizedUrl l;
     link_linkType := link_linkType l; link_isBroken := link_isBroken l;
     link_statusCode := link_statusCode l |}.

Definition clearIssuePage (gone : list string) (i : Issue) : Issue :=
  {| issue_id := issue_id i; issue_crawlRunId := issue_crawlRunId i;
     issue_pageId :=
       match issue_pageId i with
       | Some p => if bool_decide (p ∈ gone) then None else Some p
       | None => None
       end;
     issue_type := issue_type i; issue_severity := issue_severity i;
     issue_title := issue_title i; issue_description := issue_description i;
     issue_recommendation := issue_recommendation i;
     issue_evidenceJson := issue_evidenceJson i |}.

(** Deleting a page clears the references to it ([ON DELETE SET NULL] on
    [Link.fromPageId] and [Issue.pageId]). *)
Definition page_deleteMany (crawlRunId : string) (db : DB) : DB :=
  let gone := page_id <$> filter (fun p => page_crawlRunId p = crawlRunId) (pages db) in
  setIssues (fmap (clearIssuePage gone))
    (setLinks (fmap (clearFromPage gone))
       (setPages (filter (fun p => page_crawlRunId p <> crawlRunId)) db)).

(** [prisma.page.create]: rejected by the unique index on
    [(crawlRunId, normalizedUrl)]; otherwise the row is appended under a
    generated id, which is returned. The caller gives the row without its
    id. *)
Definition page_create (mk : string -> Page) (db : DB) : option (Page * DB) :=
  let row := mk (freshId "page_" (nextId db)) in
  if bool_decide (Exists (fun p => page_crawlRunId p = page_crawlRunId row
                                   /\ page_normalizedUrl p = page_normalizedUrl row)
                         (pages db))
  then None
  else Some (row, bumpId 1 (setPages (fun ps => (ps ++ [row])%list) db)).

(** [prisma.issue.createMany({ data })] *)
Definition issue_createMany (mk : list (string -> Issue)) (db : DB) : DB :=
  let rows := imap (fun k f => f (freshId "issue_" (nextId db + k))) mk in
  bumpId (List.length mk) (setIssues (fun is_ => (is_ ++ rows)%list) db).

Definition withBroken (status : Z) (l : Link) : Link :=
  {| link_id := link_id l; link_crawlRunId := link_crawlRunId l;
     link_fromPageId := link_fromPageId l; link_toUrl := link_toUrl l;
     link_toNormalizedUrl := link_toNormalizedUrl l;
     link_linkType := link_linkType l;
     link_isBroken := true; link_statusCode := Some status |}.

(** [prisma.link.update({ where: { id }, data: { isBroken: true,
    statusCode } })] *)
Definition link_update (id : string) (status : Z) (db : DB) : DB :=
  setLinks (fmap (fun l => if bool_decide (link_id l = id)
                           then withBroken status l else l)) db.

End Store.

(* ===================================================================== *)
(** ** Post-processing (crawl/post-processor.ts) *)
(* ===================================================================== *)

Module PostProcess.
Import Store.

Record ErrorPage := {
  ep_url : string;
  ep_statusCode : Z;
  ep_count : Z;
}.

Record CrawlTotals := {
  pagesCount : Z;
  linksCount : Z;
  internalLinksCount : Z;
  externalLinksCount : Z;
  brokenInternalLinksCount : Z;
  statusCodeDistribution : gmap string Z;
  topErrorPages : list ErrorPage;
}.

(** [String(statusCode)] *)
Definition statusKey (statusCode : Z) : string := pretty statusCode.

(** Step 1, the loop over the pages: the [normalizedUrl -> statusCode] map
    and the status code distribution. *)
Definition scanPage (acc : gmap string Z * gmap string Z) (page : Page)
    : gmap string Z * gmap string Z :=
  let '(pageStatusMap, statusCodeDistribution) := acc in
  match page_statusCode page with
  | Some statusCode =>
      (<[page_normalizedUrl page := statusCode]> pageStatusMap,
       <[statusKey statusCode :=
           (statusCodeDistribution !! statusKey statusCode) ?? 0 + 1]>
         statusCodeDistribution)
  | None => acc
  end.

Definition scanPages (pages : list Page) : gmap string Z * gmap string Z :=
  foldl scanPage (∅, ∅) pages.

(** [errorPageCounts]: a [Map] from URL to [{ statusCode, count }], in
    insertion order. *)
Fixpoint countErrorPage (url : string) (status : Z) (m : list ErrorPage)
    : list ErrorPage :=
  match m with
  | [] => [ {| ep_url := url; ep_statusCode := status; ep_count := 1 |} ]
  | e :: m' =>
      if String.eqb (ep_url e) url
      then {| ep_url := ep_url e; ep_statusCode := ep_statusCode e;
              ep_count := ep_count e + 1 |} :: m'
      else e :: countErrorPage url status m'
  end.

(** Step 2, the loop over the internal links. *)
Definition scanLink (pageStatusMap : gmap string Z)
    (acc : list (string * Z) * list ErrorPage) (link : Link)
    : list (string * Z) * list ErrorPage :=
  let '(brokenLinkUpdates, errorPageCounts) := acc in
  match pageStatusMap !! link_toNormalizedUrl link with
  | Some targetStatus =>
      if targetStatus >=? 400
      then ((brokenLinkUpdates ++ [(link_id link, targetStatus)])%list,
            countErrorPage (link_toNormalizedUrl link) targetStatus errorPageCounts)
      else acc
  | None => acc
  end.

Definition scanLinks (pageStatusMap : gmap string Z) (internalLinks : list Link)
    : list (string * Z) * list ErrorPage :=
  foldl (scanLink pageStatusMap) ([], []) internalLinks.

(** Step 3: the updates, one [link.update] per entry. The source sends them
    in batches of 100 under [Promise.all]; they touch distinct rows, so the
    order inside a batch does not show. *)
Definition applyUpdates (updates : list (string * Z)) (db : DB) : DB :=
  foldl (fun d u => link_update u.1 u.2 d) db updates.

Definition count {A} (P : A -> Prop) `{forall x, Decision (P x)} (l : list A) : Z :=
  Z.of_nat (List.length (filter P l)).

Definition postProcessCrawl (crawlRunId : string) (db : DB) : CrawlTotals * DB :=
  let pages := filter (fun p => page_crawlRunId p = crawlRunId) (pages db) in
  let '(pageStatusMap, statusCodeDistribution) := scanPages pages in
  let internalLinks :=
    filter (fun l => link_crawlRunId l = crawlRunId /\ link_linkType l = INTERNAL)
           (links db) in
  let '(brokenLinkUpdates, errorPageCounts) := scanLinks pageStatusMap internalLinks in
  let db := applyUpdates brokenLinkUpdates db in
  let totalLinks := count (fun l => link_crawlRunId l = crawlRunId) (links db) in
  let externalLinks :=
    count (fun l => link_crawlRunId l = crawlRunId /\ link_linkType l = EXTERNAL)
          (links db) in
  let topErrorPages :=
    take 10 (Js.sort (fun a b => ep_count b - ep_count a) errorPageCounts) in
  ({| pagesCount := Z.of_nat (List.length pages);
      linksCount := totalLinks;
      internalLinksCount := Z.of_nat (List.length internalLinks);
      externalLinksCount := externalLinks;
      brokenInternalLinksCount := Z.of_nat (List.length brokenLinkUpdates);
      statusCodeDistribution := statusCodeDistribution;
      topErrorPages := topErrorPages |}, db).

Definition errorPageJson (e : ErrorPage) : Json :=
  JObj (<["url" := JStr (ep_url e)]>
        (<["statusCode" := JNum (ep_statusCode e)]>
         (<["count" := JNum (ep_count e)]> ∅))).

(** [JSON.parse(JSON.stringify(totals))]; [lastErrorMessage] is not set. *)
Definition totalsJson (t : CrawlTotals) : Json :=
  JObj (<["pagesCount" := JNum (pagesCount t)]>
        (<["linksCount" := JNum (linksCount t)]>
         (<["internalLinksCount" := JNum (internalLinksCount t)]>
          (<["externalLinksCount" := JNum (externalLinksCount t)]>
           (<["brokenInternalLinksCount" := JNum (brokenInternalLinksCount t)]>
            (<["statusCodeDistribution" := JObj (JNum <$> statusCodeDistribution t)]>
             (<["topErrorPages" := JArr (errorPageJson <$> topErrorPages t)]> ∅))))))).

Definition saveCrawlTotals (crawlRunId : string) (totals : CrawlTotals) (db : DB)
    : option DB :=
  crawlRun_update crawlRunId (withTotals (totalsJson totals)) db.

(** The sum of the values of a distribution. *)
Definition distributionSum (d : gmap string Z) : Z :=
  map_fold (fun _ v acc => v + acc) 0 d.

End PostProcess.

(* ===================================================================== *)
(** ** Issue summary (crawl/issue-summary.ts) *)
(* ===================================================================== *)

Module Summary.
Import Store.

Record IssueSummary := {
  issueCountTotal : Z;
  issueCountByType : list (string * Z);
  issueCountBySeverity : list (string * Z);
  topIssueTypes : list (string * Z);
}.

Definition severityName (s : Issues.Severity) : string :=
  match s with
  | Issues.LOW => "LOW" | Issues.MEDIUM => "MEDIUM"
  | Issues.HIGH => "HIGH" | Issues.CRITICAL => "CRITICAL"
  end.

Definition computeIssueSummary (crawlRunId : string) (db : DB) : IssueSummary :=
  let issues := filter (fun i => issue_crawlRunId i = crawlRunId) (issues db) in
  let issueCountByType := foldl (fun o i => Js.bump (issue_type i) o) [] issues in
  let issueCountBySeverity :=
    foldl (fun o i => Js.bump (severityName (issue_severity i)) o) [] issues in
  let topIssueTypes :=
    take 10 (Js.sort (fun a b => b.2 - a.2) issueCountByType) in
  {| issueCountTotal := Z.of_nat (List.length issues);
     issueCountByType := issueCountByType;
     issueCountBySeverity := issueCountBySeverity;
     topIssueTypes := topIssueTypes |}.

Definition countsJson (o : list (string * Z)) : Json :=
  JObj (list_to_map (prod_map id JNum <$> o)).

Definition topTypeJson (e : string * Z) : Json :=
  JObj (<["type" := JStr e.1]> (<["count" := JNum e.2]> ∅)).

(** [{ ...v }] for a JSON value [v]: the own enumerable properties. An
    object gives its entries, an array or a string its indexed elements,
    anything else nothing. *)
Definition spreadOf (v : Json) : gmap string Json :=
  match v with
  | JObj m => m
  | JArr l => list_to_map (imap (fun i x => (pretty i, x)) l)
  | JStr s =>
      list_to_map (imap (fun i c => (pretty i, JStr (String c EmptyString)))
                        (list_ascii_of_string s))
  | _ => ∅
  end.

(** The object literal [{ ...existingTotals, issueCountTotal, ... }]. *)
Definition mergeSummary (existingTotals : gmap string Json) (summary : IssueSummary)
    : gmap string Json :=
  <["topIssueTypes" := JArr (topTypeJson <$> topIssueTypes summary)]>
  (<["issueCountBySeverity" := countsJson (issueCountBySeverity summary)]>
   (<["issueCountByType" := countsJson (issueCountByType summary)]>
    (<["issueCountTotal" := JNum (issueCountTotal summary)]> existingTotals))).

(** [saveIssueSummary]: [None] stands for the rejected [update] when the
    run does not exist. *)
Definition saveIssueSummary (crawlRunId : string) (summary : IssueSummary) (db : DB)
    : option DB :=
  let existingTotals :=
    match crawlRuns db !! crawlRunId with
    | Some crawlRun =>
        match run_totalsJson crawlRun with
        | JNull => ∅
        | v => spreadOf v
        end
    | None => ∅
    end in
  let updatedTotals := mergeSummary existingTotals summary in
  crawlRun_update crawlRunId (withTotals (JObj updatedTotals)) db.

End Summary.

(* ===================================================================== *)
(** ** Global issues (crawl/global-issues.ts) *)
(* ===================================================================== *)

Module GlobalIssues.
Import Store.

Record TitledPage := {
  tp_id : string;
  tp_url : string;
  tp_title : string;
}.

(** [titleGroups]: a [Map] from the lower-cased title to its pages, in
    insertion order. *)
Fixpoint addToGroup (key : string) (entry : TitledPage)
    (groups : list (string * list TitledPage)) : list (string * list TitledPage) :=
  match groups with
  | [] => [(key, [entry])]
  | (k, g) :: groups' =>
      if String.eqb k key then (k, (g ++ [entry])%list) :: groups'
      else (k, g) :: addToGroup key entry groups'
  end.

Definition groupPage (groups : list (string * list TitledPage)) (page : Page)
    : list (string * list TitledPage) :=
  match page_title page with
  | None => groups
  | Some t =>
      let title := Js.trim t in
      if String.eqb title "" then groups
      else addToGroup (Js.toLowerCase title)
             {| tp_id := page_id page; tp_url := page_url page; tp_title := title |}
             groups
  end.

Definition duplicateIssues (crawlRunId : string) (group : list TitledPage)
    : list (string -> Issue) :=
  let exampleUrls := tp_url <$> take 5 group in
  let originalTitle := match group with p :: _ => tp_title p | [] => EmptyString end in
  (fun page id =>
     {| issue_id := id; issue_crawlRunId := crawlRunId;
        issue_pageId := Some (tp_id page);
        issue_type := "DUPLICATE_TITLE";
        issue_severity := Issues.MEDIUM;
        issue_title := "Duplicate title";
        issue_description := "This page shares the same title with other pages. Duplicate titles can reduce SEO clarity.";
        issue_recommendation := "Make titles unique and descriptive for each page.";
        issue_evidenceJson :=
          JObj (<["duplicateTitle" := JStr originalTitle]>
                (<["count" := JNum (Z.of_nat (List.length group))]>
                 (<["examples" := JArr (JStr <$> exampleUrls)]> ∅))) |})
  <$> group.

Definition detectDuplicateTitles (crawlRunId : string) (db : DB) : DB :=
  let pagesWithTitles :=
    filter (fun p => page_crawlRunId p = crawlRunId /\ page_title p <> None) (pages db) in
  let titleGroups := foldl groupPage [] pagesWithTitles in
  let duplicateGroups := filter (fun g => (2 <= List.length g.2)%nat) titleGroups in
  match duplicateGroups with
  | [] => db
  | _ =>
      let issueData := duplicateGroups ≫= (fun g => duplicateIssues crawlRunId g.2) in
      match issueData with
      | [] => db
      | _ => issue_createMany issueData db
      end
  end.

Definition generateGlobalIssues (crawlRunId : string) (db : DB) : DB :=
  detectDuplicateTitles crawlRunId db.

End GlobalIssues.

(* ===================================================================== *)
(** ** Template signature: class tokens (templates/computeTemplateSignature) *)
(* ===================================================================== *)

Module Templates.

Definition MAX_CLASS_TOKEN_LENGTH : nat := 20.

(** [/^\d+$/] *)
Definition allDigits (s : string) : bool :=
  negb (String.eqb s "") && Url.allb Url.isDigit s.

(** [/^[a-f0-9]{8,}$/i] *)
Definition isHexChar (c : ascii) : bool :=
  Url.isDigit c
  || ((97 <=? Url.code c) && (Url.code c <=? 102))%nat
  || ((65 <=? Url.code c) && (Url.code c <=? 70))%nat.

Definition looksLikeHash (s : string) : bool :=
  (8 <=? String.length s)%nat && Url.allb isHexChar s.

(** [/^_[a-z0-9]+$/i] *)
Definition looksGenerated (s : string) : bool :=
  match s with
  | String "_" rest => negb (String.eqb rest "") && Url.allb Url.isAlnum rest
  | _ => false
  end.

(** [cleanClassToken]: [None] for [null]. *)
Definition cleanClassToken (token : string) : option string :=
  let cleaned := Js.toLowerCase (Js.trim token) in
  if String.eqb cleaned "" || (Js.length cleaned <? 2) || allDigits cleaned then None
  else if looksLikeHash cleaned || looksGenerated cleaned then None
  else Some (String.substring 0 MAX_CLASS_TOKEN_LENGTH cleaned).

End Templates.

(* ===================================================================== *)
(** ** The BFS crawl (crawl/crawl-runner.ts, src/types.ts) *)
(* ===================================================================== *)

Module Runner.
Import Store.

(** The settings as [buildCrawlSettings] hands them on: the numbers are
    whatever numbers the project's [settingsJson] holds, and [ignoreParams]
    is the array found there, whose elements the declared [string[]] does
    not check. *)
Record CrawlSettings := {
  maxPages : Q;
  maxDepth : Q;
  ignoreParams : list Json;
  respectRobots : bool;
  throttleMs : Q;
  includeSubdomains : bool;
}.

Definition DEFAULT_CRAWL_SETTINGS : CrawlSettings := {|
  maxPages := 1000%Q;
  maxDepth := 5%Q;
  ignoreParams := JStr <$> ["utm_source"; "utm_medium"; "utm_campaign"; "utm_term";
                            "utm_content"; "gclid"; "fbclid"];
  respectRobots := true;
  throttleMs := 100%Q;
  includeSubdomains := false;
|}.

(** [settings.key] on the JSON value: only an object has such a property. *)
Definition prop (settings : Json) (key : string) : option Json :=
  match settings with JObj m => m !! key | _ => None end.

(** [typeof v === 'number' ? v : d] *)
Definition numberOr (v : option Json) (d : Q) : Q :=
  match v with
  | Some (JNum n) => inject_Z n
  | Some (JFrac q) => q
  | _ => d
  end.

(** [typeof v === 'boolean' ? v : d] *)
Definition booleanOr (v : option Json) (d : bool) : bool :=
  match v with Some (JBool b) => b | _ => d end.

(** [Array.isArray(v) ? v : d]: the array is kept as it is. *)
Definition arrayOr (v : option Json) (d : list Json) : list Json :=
  match v with Some (JArr l) => l | _ => d end.

Definition buildCrawlSettings (settingsJson : Json) : CrawlSettings :=
  let settings := settingsJson in
  {| maxPages := numberOr (prop settings "maxPages") (maxPages DEFAULT_CRAWL_SETTINGS);
     maxDepth := numberOr (prop settings "maxDepth") (maxDepth DEFAULT_CRAWL_SETTINGS);
     ignoreParams :=
       arrayOr (prop settings "ignoreParams") (ignoreParams DEFAULT_CRAWL_SETTINGS);
     respectRobots :=
       booleanOr (prop settings "respectRobots") (respectRobots DEFAULT_CRAWL_SETTINGS);
     throttleMs := numberOr (prop settings "throttleMs") (throttleMs DEFAULT_CRAWL_SETTINGS);
     includeSubdomains :=
       booleanOr (prop settings "includeSubdomains")
                 (includeSubdomains DEFAULT_CRAWL_SETTINGS) |}.

Record QueueItem := {
  url : string;
  depth : Z;
}.

Record PageResult := {
  pr_url : string;
  pr_statusCode : option Z;
  pr_contentType : option string;
  pr_title : option string;
  pr_metaDescription : option string;
  pr_h1Count : option Z;
  pr_canonical : option string;
  pr_robotsMeta : option string;
  pr_wordCount : option Z;
  pr_links : list string;
  pr_imagesMissingAlt : Z;
  pr_error : option string;
  pr_html : option string;
}.

(** What the runner calls but does not define: the page fetcher (the
    network), the template signature (HTML parser and hash), and the URL
    helpers of src/url, whose results depend on the platform's URL
    parser. *)
Record Env := {
  fetchAndParsePage : string -> PageResult;
  computeTemplateSignature : string -> option (string * Json);
  normalizeUrl : string -> list Json -> option string;
  resolveAndNormalize : string -> string -> list Json -> option string;
  isInternalUrl : string -> string -> bool -> bool;
}.

(** The fetcher as the source has it: a placeholder. *)
Definition placeholderFetch (url : string) : PageResult :=
  {| pr_url := url; pr_statusCode := Some 200; pr_contentType := Some "text/html";
     pr_title := None; pr_metaDescription := None; pr_h1Count := None;
     pr_canonical := None; pr_robotsMeta := None; pr_wordCount := None;
     pr_links := []; pr_imagesMissingAlt := 0; pr_error := None;
     pr_html := None |}.

Definition isCrawlCanceled (crawlRunId : string) (db : DB) : bool :=
  match crawlRuns db !! crawlRunId with
  | Some crawlRun => bool_decide (run_status crawlRun = CANCELED)
  | None => false
  end.

Definition nonEmpty (s : option string) : bool :=
  match s with Some x => negb (String.eqb x "") | None => false end.

Definition computePageTemplateSignature (env : Env) (result : PageResult)
    : option string * option Json :=
  if negb (nonEmpty (pr_html result))
     || negb (match pr_contentType result with
              | Some ct => Js.includes ct "text/html"
              | None => false
              end)
  then (None, None)
  else match computeTemplateSignature env (pr_html result ?? "") with
       | Some (signatureHash, signatureJson) => (Some signatureHash, Some signatureJson)
       | None => (None, None)
       end.

Definition typeName (t : Issues.IssueType) : string :=
  match t with
  | Issues.STATUS_4XX_5XX => "STATUS_4XX_5XX"
  | Issues.STATUS_3XX_REDIRECT => "STATUS_3XX_REDIRECT"
  | Issues.REDIRECT_CHAIN_LONG => "REDIRECT_CHAIN_LONG"
  | Issues.MISSING_TITLE => "MISSING_TITLE"
  | Issues.DUPLICATE_TITLE => "DUPLICATE_TITLE"
  | Issues.TITLE_TOO_LONG => "TITLE_TOO_LONG"
  | Issues.TITLE_TOO_SHORT => "TITLE_TOO_SHORT"
  | Issues.MISSING_META_DESCRIPTION => "MISSING_META_DESCRIPTION"
  | Issues.H1_MISSING => "H1_MISSING"
  | Issues.H1_MULTIPLE => "H1_MULTIPLE"
  | Issues.CANONICAL_MISSING => "CANONICAL_MISSING"
  | Issues.ROBOTS_NOINDEX => "ROBOTS_NOINDEX"
  | Issues.THIN_CONTENT => "THIN_CONTENT"
  | Issues.IMAGES_MISSING_ALT => "IMAGES_MISSING_ALT"
  end.

Definition issueOfDraft (crawlRunId pageId : string) (draft : Issues.IssueDraft)
    (id : string) : Issue :=
  {| issue_id := id; issue_crawlRunId := crawlRunId; issue_pageId := Some pageId;
     issue_type := typeName (Issues.type draft);
     issue_severity := Issues.severity draft;
     issue_title := Issues.title draft;
     issue_description := Issues.description draft;
     issue_recommendation := Issues.recommendation draft;
     issue_evidenceJson := JObj (list_to_map (Issues.evidenceJson draft)) |}.

Definition pageOfResult (crawlRunId normalizedUrl : string) (result : PageResult)
    (sig : option string * option Json) (id : string) : Page :=
  {| page_id := id; page_crawlRunId := crawlRunId;
     page_url := normalizedUrl; page_normalizedUrl := normalizedUrl;
     page_statusCode := pr_statusCode result;
     page_contentType := pr_contentType result;
     page_title := pr_title result;
     page_metaDescription := pr_metaDescription result;
     page_h1Count := pr_h1Count result;
     page_canonical := pr_canonical result;
     page_robotsMeta := pr_robotsMeta result;
     page_wordCount := pr_wordCount result;
     page_templateSignatureHash := sig.1;
     page_templateSignatureJson := sig.2;
     page_templateId := None |}.

(** The state of the BFS loop. [fetchLog] is a ghost field: the arguments
    of the calls of [fetchAndParsePage] so far, oldest first. *)
Record BfsState := {
  queue : list QueueItem;
  visited : gset string;
  pagesProcessed : Z;
  cancelCheckCounter : Z;
  db : DB;
  fetchLog : list string;
}.

Definition CANCEL_CHECK_INTERVAL : Z := 20.

(** How one pass through the loop body ends. *)
Inductive Flow :=
  | Next (s : BfsState)        (* [continue], or the end of the body *)
  | Break (s : BfsState)       (* [break], or the loop condition is false *)
  | Return (s : BfsState).     (* [return]: the crawl was canceled *)

Section Loop.
Variable env : Env.
Variable crawlRunId : string.
Variable baseDomain : string.
Variable settings : CrawlSettings.

(** The body of [for (const link of result.links)]. *)
Definition processLink (normalizedUrl : string) (depth : Z) (visited : gset string)
    (queue : list QueueItem) (link : string) : list QueueItem :=
  match resolveAndNormalize env link normalizedUrl (ignoreParams settings) with
  | None => queue
  | Some normalizedLink =>
      if negb (isInternalUrl env normalizedLink baseDomain (includeSubdomains settings))
      then queue
      else if bool_decide (normalizedLink ∈ visited) then queue
      else (queue ++ [ {| url := normalizedLink; depth := depth + 1 |} ])%list
  end.

Definition withQueue (q : list QueueItem) (s : BfsState) : BfsState :=
  {| queue := q; visited := visited s; pagesProcessed := pagesProcessed s;
     cancelCheckCounter := cancelCheckCounter s; db := db s;
     fetchLog := fetchLog s |}.

Definition withDb (d : DB) (s : BfsState) : BfsState :=
  {| queue := queue s; visited := visited s; pagesProcessed := pagesProcessed s;
     cancelCheckCounter := cancelCheckCounter s; db := d;
     fetchLog := fetchLog s |}.

Definition withCounter (c : Z) (s : BfsState) : BfsState :=
  {| queue := queue s; visited := visited s; pagesProcessed := pagesProcessed s;
     cancelCheckCounter := c; db := db s; fetchLog := fetchLog s |}.

(** [visited.add(normalizedUrl); pagesProcessed++] *)
Definition markVisited (normalizedUrl : string) (s : BfsState) : BfsState :=
  {| queue := queue s; visited := {[normalizedUrl]} ∪ visited s;
     pagesProcessed := pagesProcessed s + 1;
     cancelCheckCounter := cancelCheckCounter s; db := db s;
     fetchLog := fetchLog s |}.

Definition logFetch (normalizedUrl : string) (s : BfsState) : BfsState :=
  {| queue := queue s; visited := visited s; pagesProcessed := pagesProcessed s;
     cancelCheckCounter := cancelCheckCounter s; db := db s;
     fetchLog := (fetchLog s ++ [normalizedUrl])%list |}.

(** The issues of a created page: evaluated only under a known status
    code, written only when there are any. *)
Definition persistIssues (page : Page) (result : PageResult) (d : DB) : DB :=
  match pr_statusCode result with
  | None => d
  | Some statusCode =>
      let issueDrafts :=
        Issues.evaluatePageIssues
          {| Issues.statusCode := Some statusCode;
             Issues.pageTitle := pr_title result;
             Issues.metaDescription := pr_metaDescription result;
             Issues.h1Count := pr_h1Count result;
             Issues.canonical := pr_canonical result;
             Issues.robotsMeta := pr_robotsMeta result;
             Issues.wordCount := pr_wordCount result;
             Issues.redirectChainJson := None |}
          (Some {| Issues.imagesMissingAlt := Some (pr_imagesMissingAlt result) |}) in
      match issueDrafts with
      | [] => d
      | _ => issue_createMany (issueOfDraft crawlRunId (page_id page) <$> issueDrafts) d
      end
  end.

(** The [try] block, entered with the URL marked visited. A rejected
    [page.create] lands in the [catch], which logs and goes on. *)
Definition processPage (normalizedUrl : string) (depth : Z) (s : BfsState) : BfsState :=
  let result := fetchAndParsePage env normalizedUrl in
  let s := logFetch normalizedUrl s in
  if nonEmpty (pr_error result) then s              (* warn; [continue] *)
  else
    let sig := computePageTemplateSignature env result in
    match page_create (pageOfResult crawlRunId normalizedUrl result sig) (db s) with
    | None => s                                     (* [catch] *)
    | Some (page, d) =>
        let d := persistIssues page result d in
        let q := foldl (processLink normalizedUrl depth (visited s))
                       (queue s) (pr_links result) in
        withQueue q (withDb d s)
    end.

(** One pass through the body of [while (queue.length > 0)]. *)
Definition bfsIteration (s : BfsState) : Flow :=
  match queue s with
  | [] => Break s
  | item :: rest =>
      let c := cancelCheckCounter s + 1 in
      let due := c >=? CANCEL_CHECK_INTERVAL in
      let s := withCounter (if due then 0 else c) s in
      if due && isCrawlCanceled crawlRunId (db s) then Return s
      else if Js.geq (Z.of_nat (size (visited s))) (maxPages settings) then Break s
      else
        let s := withQueue rest s in
        if Js.gt (depth item) (maxDepth settings) then Next s
        else match normalizeUrl env (url item) (ignoreParams settings) with
             | None => Next s
             | Some normalizedUrl =>
                 if String.eqb normalizedUrl "" then Next s
                 else if bool_decide (normalizedUrl ∈ visited s) then Next s
                 else Next (processPage normalizedUrl (depth item)
                                        (markVisited normalizedUrl s))
             end
  end.

(** The loop, with a bound on the number of passes. [None]: the bound was
    reached; [Some (canceled, s)]: the loop was left in state [s], by
    [return] when [canceled]. *)
Fixpoint bfsLoop (fuel : nat) (s : BfsState) : option (bool * BfsState) :=
  match fuel with
  | O => None
  | S fuel' =>
      match bfsIteration s with
      | Next s' => bfsLoop fuel' s'
      | Break s' => Some (false, s')
      | Return s' => Some (true, s')
      end
  end.

End Loop.

(** The state the loop starts from. *)
Definition initialState (normalizedStart : string) (d : DB) : BfsState :=
  {| queue := [ {| url := normalizedStart; depth := 0 |} ];
     visited := ∅;
     pagesProcessed := 0;
     cancelCheckCounter := 0;
     db := d;
     fetchLog := [] |}.

(** "Idempotency: Delete existing pages, links, and issues for this crawl
    run": the three [deleteMany] calls at the head of [runCrawl]. *)
Definition cleanUpExistingData (crawlRunId : string) (d : DB) : DB :=
  page_deleteMany crawlRunId (link_deleteMany crawlRunId (issue_deleteMany crawlRunId d)).

Inductive Outcome :=
  | Returned (d : DB)
  | Threw (message : string) (d : DB)
  | OutOfFuel.

(** The tail of [runCrawl], after the loop ended without cancellation. *)
Definition postProcessing (crawlRunId : string) (d : DB) : Outcome :=
  let '(totals, d) := PostProcess.postProcessCrawl crawlRunId d in
  match PostProcess.saveCrawlTotals crawlRunId totals d with
  | None => Threw "Record to update not found." d
  | Some d =>
      let d := GlobalIssues.generateGlobalIssues crawlRunId d in
      let issueSummary := Summary.computeIssueSummary crawlRunId d in
      match Summary.saveIssueSummary crawlRunId issueSummary d with
      | None => Threw "Record to update not found." d
      | Some d => Returned d
      end
  end.

Definition runCrawl (env : Env) (fuel : nat) (projectId crawlRunId : string) (d : DB)
    : Outcome :=
  match projects d !! projectId with
  | None => Threw ("Project " +:+ projectId +:+ " not found") d
  | Some project =>
      match crawlRuns d !! crawlRunId with
      | None => Threw ("CrawlRun " +:+ crawlRunId +:+ " not found") d
      | Some _ =>
          let settings := buildCrawlSettings (project_settingsJson project) in
          let d := cleanUpExistingData crawlRunId d in
          let startUrl := project_startUrl project in
          let baseDomain := project_domain project in
          match normalizeUrl env startUrl (ignoreParams settings) with
          | Some normalizedStart =>
              if String.eqb normalizedStart ""
              then Threw ("Invalid start URL: " +:+ startUrl) d
              else
                match bfsLoop env crawlRunId baseDomain settings fuel
                              (initialState normalizedStart d) with
                | None => OutOfFuel
                | Some (true, s) => Returned (db s)
                | Some (false, s) => postProcessing crawlRunId (db s)
                end
          | None => Threw ("Invalid start URL: " +:+ startUrl) d
          end
      end
  end.

End Runner.

(* ===================================================================== *)
(** ** Run lifecycle: the worker's [processJob] and the API's [cancel] *)
(* ===================================================================== *)

Module Lifecycle.
Import Store.

Record CrawlJobData := {
  crawlRunId : string;
  projectId : string;
}.

(** How a call of [processJob] ends: it resolves, it rejects (the queue
    counts a failed attempt), or the crawl's bound ran out. *)
Inductive JobResult :=
  | Resolved (d : DB)
  | Rejected (message : string) (d : DB)
  | Unfinished.

Definition markRunning (t : nat) (run : CrawlRun) : CrawlRun :=
  withStartedAt t (withStatus RUNNING run).

Definition markDone (t : nat) (run : CrawlRun) : CrawlRun :=
  withFinishedAt t (withStatus DONE run).

Definition markFailed (t : nat) (errorMessage : string) (run : CrawlRun) : CrawlRun :=
  withTotals (JObj {["lastErrorMessage" := JStr errorMessage]})
             (withFinishedAt t (withStatus FAILED run)).

Definition markCanceled (t : nat) (run : CrawlRun) : CrawlRun :=
  withFinishedAt t (withStatus CANCELED run).

(** The [catch] block of [processJob]. *)
Definition onError (t : nat) (id errorMessage : string) (d : DB) : JobResult :=
  match crawlRun_update id (markFailed t errorMessage) d with
  | Some d' => Rejected errorMessage d'
  | None => Rejected "Record to update not found." d
  end.

(** [processJob]; [t0] and [t1] are the clock readings of the two
    [new Date()]. *)
Definition processJob (env : Runner.Env) (fuel : nat) (t0 t1 : nat)
    (job : CrawlJobData) (d : DB) : JobResult :=
  let id := crawlRunId job in
  match crawlRuns d !! id with
  | None => Rejected ("CrawlRun " +:+ id +:+ " not found") d
  | Some crawlRun =>
      if bool_decide (run_status crawlRun = CANCELED) then Resolved d
      else
        match crawlRun_update id (markRunning t0) d with
        | None => Rejected "Record to update not found." d
        | Some d =>
            match Runner.runCrawl env fuel (projectId job) id d with
            | Runner.OutOfFuel => Unfinished
            | Runner.Threw message d => onError t1 id message d
            | Runner.Returned d =>
                match crawlRuns d !! id with
                | Some updatedCrawlRun =>
                    if bool_decide (run_status updatedCrawlRun = CANCELED)
                    then Resolved d
                    else match crawlRun_update id (markDone t1) d with
                         | Some d' => Resolved d'
                         | None => onError t1 id "Record to update not found." d
                         end
                | None => onError t1 id "Record to update not found." d
                end
            end
        end
  end.

(** *** The API side (apps/api/src/crawl/crawl.service.ts) *)

Inductive OrgRole := ADMIN | MEMBER | VIEWER.

Inductive ApiError :=
  | NotFoundException (message : string)
  | ForbiddenException (message : string)
  | BadRequestException (message : string).

Definition isActive (s : CrawlRunStatus) : bool :=
  bool_decide (s = QUEUED) || bool_decide (s = RUNNING).

(** [findFirst({ where: { projectId, status: { in: [QUEUED, RUNNING] } },
    orderBy: { createdAt: 'desc' } })] *)
Definition latestActive (projectId : string) (d : DB) : option (string * CrawlRun) :=
  foldr (fun kv best =>
           let run := kv.2 in
           if String.eqb (run_projectId run) projectId && isActive (run_status run)
           then match best with
                | Some b => if (run_createdAt b.2 <? run_createdAt run)%nat
                            then Some kv else Some b
                | None => Some kv
                end
           else best)
        None (map_to_list (crawlRuns d)).

Definition statusName (s : CrawlRunStatus) : string :=
  match s with
  | QUEUED => "QUEUED" | RUNNING => "RUNNING" | DONE => "DONE"
  | FAILED => "FAILED" | CANCELED => "CANCELED"
  end.

(** The run [cancel] is about: the one named, or else the latest active
    one of the project. *)
Definition findRunToCancel (projectId : string) (crawlRunId : option string) (d : DB)
    : ApiError + (string * CrawlRun) :=
  match crawlRunId with
  | Some id =>
      if String.eqb id "" then
        match latestActive projectId d with
        | Some found => inr found
        | None => inl (NotFoundException "No active crawl run to cancel")
        end
      else
        match crawlRuns d !! id with
        | None => inl (NotFoundException "Crawl run not found")
        | Some run =>
            if negb (String.eqb (run_projectId run) projectId)
            then inl (BadRequestException "Crawl run does not belong to this project")
            else inr (id, run)
        end
  | None =>
      match latestActive projectId d with
      | Some found => inr found
      | None => inl (NotFoundException "No active crawl run to cancel")
      end
  end.

(** [cancel(userId, projectId, crawlRunId?)]. [role] is what
    [assertOrgMember] finds for the caller in the project's organisation
    ([None]: not a member). Removing the job from the queue leaves the
    store as it is. *)
Definition cancel (role : option OrgRole) (t : nat) (projectId : string)
    (crawlRunId : option string) (d : DB) : ApiError + DB :=
  match projects d !! projectId with
  | None => inl (NotFoundException "Project not found")
  | Some _ =>
      match role with
      | None => inl (ForbiddenException "You are not a member of this organization")
      | Some VIEWER => inl (ForbiddenException "Viewers cannot run or cancel crawls")
      | Some _ =>
          match findRunToCancel projectId crawlRunId d with
          | inl e => inl e
          | inr (id, crawlRun) =>
              if bool_decide (run_status crawlRun = DONE)
                 || bool_decide (run_status crawlRun = FAILED)
                 || bool_decide (run_status crawlRun = CANCELED)
              then inl (BadRequestException
                          ("Cannot cancel a crawl run with status "
                             +:+ statusName (run_status crawlRun)))
              else match crawlRun_update id (markCanceled t) d with
                   | Some d' => inr d'
                   | None => inl (NotFoundException "Record to update not found.")
                   end
          end
      end
  end.

(** *** Starting a run (crawl.service.ts) *)

(** [runNow] can also fail with a conflict. *)
Inductive RunError :=
  | Refused (e : ApiError)
  | ConflictException (message : string)
  | PrismaError (message : string).

(** [findFirst({ where: { projectId, status: { in: [QUEUED, RUNNING] } } })]:
    some active run of the project, if there is one. *)
Definition findActive (projectId : string) (d : DB) : option CrawlRun :=
  snd <$> List.find (fun kv => String.eqb (run_projectId kv.2) projectId
                               && isActive (run_status kv.2))
                    (map_to_list (crawlRuns d)).

Definition hasActiveCrawl (projectId : string) (d : DB) : bool :=
  match findActive projectId d with Some _ => true | None => false end.

(** The row [crawlRun.create] inserts: QUEUED, with the first totals. The
    settings snapshot is a column the worker does not read; it is left
    out. *)
Definition newRun (id projectId startedBy : string) (t : nat) : CrawlRun :=
  {| run_id := id; run_projectId := projectId; run_status := QUEUED;
     run_createdAt := t; run_startedAt := None; run_finishedAt := None;
     run_totalsJson :=
       JObj (<["pagesCrawled" := JNum 0]>
             (<["issues" := JNum 0]>
              (<["startedBy" := JStr startedBy]> ∅))) |}.

(** [prisma.crawlRun.create]: the generated id is [newId]; the insert is
    rejected when the primary key is taken. *)
Definition crawlRun_create (newId : string) (run : CrawlRun) (d : DB) : option DB :=
  match crawlRuns d !! newId with
  | Some _ => None
  | None => Some (setCrawlRuns (insert newId run) d)
  end.

(** [runNow(userId, projectId)]. The result carries the store and the job
    handed to the queue. *)
Definition runNow (role : option OrgRole) (userId newId : string) (t : nat)
    (projectId : string) (d : DB) : RunError + (DB * CrawlJobData) :=
  match projects d !! projectId with
  | None => inl (Refused (NotFoundException "Project not found"))
  | Some _ =>
      match role with
      | None => inl (Refused (ForbiddenException "You are not a member of this organization"))
      | Some VIEWER => inl (Refused (ForbiddenException "Viewers cannot run or cancel crawls"))
      | Some _ =>
          match findActive projectId d with
          | Some existingRun =>
              inl (ConflictException
                     ("A crawl is already "
                        +:+ Js.toLowerCase (statusName (run_status existingRun))
                        +:+ " for this project. Please wait or cancel it first."))
          | None =>
              match crawlRun_create newId (newRun newId projectId userId t) d with
              | Some d' => inr (d', {| crawlRunId := newId; projectId := projectId |})
              | None => inl (PrismaError "Unique constraint failed on the fields: (id)")
              end
          end
      end
  end.

(** [runScheduled(projectId)]: [inr None] for [null] (no project, or a
    crawl already active). *)
Definition runScheduled (newId : string) (t : nat) (projectId : string) (d : DB)
    : RunError + option (DB * CrawlJobData) :=
  match projects d !! projectId with
  | None => inr None
  | Some _ =>
      if hasActiveCrawl projectId d then inr None
      else match crawlRun_create newId (newRun newId projectId "scheduler" t) d with
           | Some d' => inr (Some (d', {| crawlRunId := newId; projectId := projectId |}))
           | None => inl (PrismaError "Unique constraint failed on the fields: (id)")
           end
  end.

(** The helpers of src/url over the modelled parser, with code-unit order
    for the collation, and the fetcher given. *)
Definition urlEnv (fetch : string -> Runner.PageResult) : Runner.Env :=
  {| Runner.fetchAndParsePage := fetch;
     Runner.computeTemplateSignature := fun _ => None;
     Runner.normalizeUrl := Url.normalizeUrl Url.codeUnitCompare;
     Runner.resolveAndNormalize := Url.resolveAndNormalize Url.codeUnitCompare;
     Runner.isInternalUrl := Url.isInternalUrl |}.

End Lifecycle.

(* ===================================================================== *)
(** * Properties *)
(* ===================================================================== *)

(** ** The rule evaluator *)

Section RuleTable.
Import Issues.

(** The rule table of the specification: severity and trigger of each
    rule. Absent numbers count as 0 and absent strings as empty; text is
    measured after [trim]. *)
Definition specSeverity (t : IssueType) : Severity :=
  match t with
  | STATUS_4XX_5XX => CRITICAL
  | STATUS_3XX_REDIRECT => MEDIUM
  | REDIRECT_CHAIN_LONG => HIGH
  | MISSING_TITLE => HIGH
  | DUPLICATE_TITLE => MEDIUM
  | TITLE_TOO_LONG => LOW
  | TITLE_TOO_SHORT => LOW
  | MISSING_META_DESCRIPTION => MEDIUM
  | H1_MISSING => HIGH
  | H1_MULTIPLE => LOW
  | CANONICAL_MISSING => LOW
  | ROBOTS_NOINDEX => MEDIUM
  | THIN_CONTENT => LOW
  | IMAGES_MISSING_ALT => LOW
  end.

Definition redirectChainLength (page : PageAnalysisInput) : Z :=
  match redirectChainJson page with
  | Some (JArr chain) => Z.of_nat (List.length chain)
  | _ => 0
  end.

Definition trigger (t : IssueType) (page : PageAnalysisInput)
    (extra : option ExtraAnalysisInput) : Prop :=
  match t with
  | STATUS_4XX_5XX => statusCode page ?? 0 >= 400
  | STATUS_3XX_REDIRECT => 300 <= statusCode page ?? 0 < 400
  | REDIRECT_CHAIN_LONG => redirectChainLength page >= 3
  | MISSING_TITLE => Js.trim (pageTitle page ?? "") = ""
  | DUPLICATE_TITLE => False
  | TITLE_TOO_LONG => Js.length (Js.trim (pageTitle page ?? "")) > 60
  | TITLE_TOO_SHORT => 0 < Js.length (Js.trim (pageTitle page ?? "")) < 10
  | MISSING_META_DESCRIPTION => Js.trim (metaDescription page ?? "") = ""
  | H1_MISSING => h1Count page ?? 0 = 0
  | H1_MULTIPLE => h1Count page ?? 0 > 1
  | CANONICAL_MISSING => Js.trim (canonical page ?? "") = ""
  | ROBOTS_NOINDEX =>
      Js.includes (Js.toLowerCase (robotsMeta page ?? "")) "noindex" = true
  | THIN_CONTENT => exists wc, wordCount page = Some wc /\ wc < 150
  | IMAGES_MISSING_ALT => (extra ≫= imagesMissingAlt) ?? 0 > 0
  end.

(** The triggers read word for word: "empty" and "title length" without
    the trim where the sentence does not name it. *)
Definition triggerAsWorded (t : IssueType) (page : PageAnalysisInput)
    (extra : option ExtraAnalysisInput) : Prop :=
  match t with
  | TITLE_TOO_LONG => Js.length (pageTitle page ?? "") > 60
  | TITLE_TOO_SHORT => 0 < Js.length (pageTitle page ?? "") < 10
  | MISSING_META_DESCRIPTION => metaDescription page ?? "" = ""
  | CANONICAL_MISSING => canonical page ?? "" = ""
  | _ => trigger t page extra
  end.

(** The number of drafts of type [t]. *)
Definition countType (t : IssueType) (l : list IssueDraft) : nat :=
  List.length (filter (fun d => type d = t) l).

(** The draft a rule contributes, if it triggers. *)
Definition draftOf (page : PageAnalysisInput) (extra : option ExtraAnalysisInput)
    (rule : RuleDefinition) : option IssueDraft :=
  if (evaluate rule page extra).1
  then Some {| type := rule_type rule; severity := rule_severity rule;
               title := rule_title rule; description := rule_description rule;
               recommendation := rule_recommendation rule;
               evidenceJson := (evaluate rule page extra).2 |}
  else None.

(** A page that is in order, used as the base of the examples. *)
Definition cleanPage : PageAnalysisInput :=
  {| statusCode := Some 200; pageTitle := Some "A perfectly fine title";
     metaDescription := Some "About this page"; h1Count := Some 1;
     canonical := Some "https://a.test/"; robotsMeta := None;
     wordCount := Some 400; redirectChainJson := None |}.

Definition noExtra : option ExtraAnalysisInput :=
  Some {| imagesMissingAlt := Some 0 |}.

Definition blankMetaPage : PageAnalysisInput :=
  {| statusCode := Some 200; pageTitle := Some "A perfectly fine title";
     metaDescription := Some " "; h1Count := Some 1;
     canonical := Some "https://a.test/"; robotsMeta := None;
     wordCount := Some 400; redirectChainJson := None |}.

Definition blankCanonicalPage : PageAnalysisInput :=
  {| statusCode := Some 200; pageTitle := Some "A perfectly fine title";
     metaDescription := Some "About this page"; h1Count := Some 1;
     canonical := Some " "; robotsMeta := None;
     wordCount := Some 400; redirectChainJson := None |}.

Definition paddedTitlePage : PageAnalysisInput :=
  {| statusCode := Some 200; pageTitle := Some "   ";
     metaDescription := Some "About this page"; h1Count := Some 1;
     canonical := Some "https://a.test/"; robotsMeta := None;
     wordCount := Some 400; redirectChainJson := None |}.

End RuleTable.

Section RuleEvaluator.
Import Issues.

Lemma evaluatePageIssues_omap page extra :
  evaluatePageIssues page extra = omap (draftOf page extra) RULES.
Proof.
  unfold evaluatePageIssues.
  enough (H : forall rules acc,
             foldl (pushIfTriggered page extra) acc rules
             = (acc ++ omap (draftOf page extra) rules)%list)
    by (rewrite H; reflexivity).
  induction rules as [|r rules IH]; intros acc; simpl.
  - by rewrite app_nil_r.
  - rewrite IH. unfold pushIfTriggered, draftOf.
    destruct (evaluate r page extra) as [[] ev]; simpl.
    + by rewrite <- app_assoc.
    + reflexivity.
Qed.

Lemma countType_omap t page extra rules :
  countType t (omap (draftOf page extra) rules)
  = sum_list ((fun r => if bool_decide (rule_type r = t) &&
                             (evaluate r page extra).1 then 1%nat else 0%nat)
              <$> rules).
Proof.
  unfold countType.
  induction rules as [|r rules IH]; [reflexivity|].
  rewrite fmap_cons. cbn [omap list_omap sum_list sum_list_with]. unfold draftOf at 1.
  destruct (evaluate r page extra) as [[] ev]; cbn [fst snd].
  - rewrite filter_cons. cbn [type].
    destruct (decide (rule_type r = t)) as [Ht|Ht].
    + rewrite bool_decide_eq_true_2 by done. cbn. by rewrite IH.
    + rewrite bool_decide_eq_false_2 by done. cbn. by rewrite IH.
  - rewrite andb_false_r. cbn. exact IH.
Qed.

Lemma length_zero_iff s : Js.length s = 0 <-> s = "".
Proof.
  unfold Js.length. destruct s; simpl; split; intros H; try done; lia.
Qed.

Lemma trim_opt (o : option string) : (Js.trim <$> o) ?? "" = Js.trim (o ?? "").
Proof. destruct o; reflexivity. Qed.

Lemma chainLength_spec page : chainLengthOf page = redirectChainLength page.
Proof.
  unfold chainLengthOf, redirectChainLength.
  destruct (redirectChainJson page) as [[]|]; simpl; try reflexivity;
    match goal with |- context [if ?b then _ else _] => destruct b end; reflexivity.
Qed.

(** Every rule of the table carries the severity of the specification,
    and the boolean it computes says what its trigger says. *)
Lemma rules_sound :
  Forall (fun r => rule_severity r = specSeverity (rule_type r)
                   /\ forall page extra,
                        (evaluate r page extra).1 = true
                        <-> trigger (rule_type r) page extra) RULES.
Proof.
  unfold RULES.
  repeat (apply Forall_cons; split;
          [split; [reflexivity | intros page extra; cbn [evaluate rule_type fst trigger]] |]);
    [..| apply Forall_nil];
    rewrite ?trim_opt, ?chainLength_spec, ?Z.geb_leb, ?Z.gtb_ltb,
      ?andb_true_iff, ?Z.leb_le, ?Z.ltb_lt, ?Z.eqb_eq, ?length_zero_iff;
    try lia; try reflexivity.
  - destruct (robotsMeta page); reflexivity.
  - destruct (wordCount page) as [wc|].
    + rewrite Z.ltb_lt. split; [eauto | intros (? & [= <-] & ?); done].
    + split; [done | intros (? & ? & ?); done].
Qed.

Lemma rule_types :
  rule_type <$> RULES
  = [STATUS_4XX_5XX; STATUS_3XX_REDIRECT; REDIRECT_CHAIN_LONG; MISSING_TITLE;
     TITLE_TOO_LONG; TITLE_TOO_SHORT; MISSING_META_DESCRIPTION; H1_MISSING;
     H1_MULTIPLE; CANONICAL_MISSING; ROBOTS_NOINDEX; THIN_CONTENT;
     IMAGES_MISSING_ALT].
Proof. reflexivity. Qed.

Lemma rule_types_distinct : NoDup (rule_type <$> RULES).
Proof.
  rewrite rule_types.
  repeat (apply NoDup_cons; split;
          [rewrite ?elem_of_cons, elem_of_nil; intuition discriminate|]).
  apply NoDup_nil_2.
Qed.

(** In a table with distinct rule types, each type is counted through its
    one rule. *)
Lemma sum_types_in (trig : RuleDefinition -> bool) rules r :
  NoDup (rule_type <$> rules) -> r ∈ rules ->
  sum_list ((fun r' => if bool_decide (rule_type r' = rule_type r) && trig r'
                       then 1%nat else 0%nat) <$> rules)
  = if trig r then 1%nat else 0%nat.
Proof.
  induction rules as [|r0 rules IH]; intros Hnd Hin.
  - by apply elem_of_nil in Hin.
  - rewrite fmap_cons in Hnd. apply NoDup_cons in Hnd as [Hfresh Hnd].
    rewrite fmap_cons. cbn [sum_list sum_list_with].
    apply elem_of_cons in Hin as [-> | Hin].
    + rewrite bool_decide_eq_true_2 by done. cbn [andb].
      assert (Hzero : sum_list ((fun r' => if bool_decide (rule_type r' = rule_type r0) && trig r'
                                          then 1%nat else 0%nat) <$> rules) = 0%nat).
      { clear -Hfresh. induction rules as [|r1 rules IH]; [reflexivity|].
        rewrite fmap_cons in Hfresh. rewrite not_elem_of_cons in Hfresh.
        destruct Hfresh as [Hne Hfresh].
        rewrite fmap_cons. cbn [sum_list sum_list_with].
        rewrite bool_decide_eq_false_2 by congruence. cbn [andb].
        by rewrite IH. }
      rewrite Hzero. destruct (trig r0); reflexivity.
    + rewrite bool_decide_eq_false_2.
      * cbn [andb]. by rewrite IH.
      * intros Heq. apply Hfresh. rewrite Heq. by apply list_elem_of_fmap_2.
Qed.

Lemma sum_types_out (trig : RuleDefinition -> bool) rules t :
  t ∉ rule_type <$> rules ->
  sum_list ((fun r' => if bool_decide (rule_type r' = t) && trig r'
                       then 1%nat else 0%nat) <$> rules) = 0%nat.
Proof.
  induction rules as [|r1 rules IH]; intros Hout; [reflexivity|].
  rewrite fmap_cons in Hout. rewrite not_elem_of_cons in Hout.
  destruct Hout as [Hne Hout].
  rewrite fmap_cons. cbn [sum_list sum_list_with].
  rewrite bool_decide_eq_false_2 by congruence. cbn [andb].
  by rewrite IH.
Qed.

Lemma absent_type t : t ∉ rule_type <$> RULES -> t = DUPLICATE_TITLE.
Proof.
  rewrite rule_types, !not_elem_of_cons. destruct t; intuition congruence.
Qed.

(** C5 (as amended). For every page analysis input, [evaluatePageIssues]
    returns exactly one draft for each rule whose trigger holds and none
    for any other type, each draft with the severity of the table. The
    triggers are those of [trigger]: text fields are trimmed before they
    are tested for emptiness or measured, and absent fields count as 0 or
    as the empty string. *)
Theorem evaluatePageIssues_table page extra :
  (forall t, (trigger t page extra -> countType t (evaluatePageIssues page extra) = 1%nat)
             /\ (~ trigger t page extra ->
                 countType t (evaluatePageIssues page extra) = 0%nat))
  /\ (forall d, d ∈ evaluatePageIssues page extra -> severity d = specSeverity (type d)).
Proof.
  pose proof rules_sound as Hsound. rewrite Forall_forall in Hsound.
  split.
  - intros t. rewrite evaluatePageIssues_omap, countType_omap.
    destruct (decide (t ∈ rule_type <$> RULES)) as [Hin | Hout].
    + apply list_elem_of_fmap in Hin as (r & -> & Hin).
      rewrite (sum_types_in (fun r' => (evaluate r' page extra).1) RULES r
                 rule_types_distinct Hin).
      destruct (Hsound r Hin) as [_ Hiff]. specialize (Hiff page extra).
      destruct (evaluate r page extra).1; split; intros H; try reflexivity.
      * exfalso. apply H, Hiff. reflexivity.
      * apply Hiff in H. discriminate.
    + rewrite sum_types_out by done.
      apply absent_type in Hout as ->. simpl. split; [tauto | reflexivity].
  - intros d. rewrite evaluatePageIssues_omap, list_elem_of_omap.
    intros (r & Hin & Hd). unfold draftOf in Hd.
    destruct (evaluate r page extra).1; [|discriminate].
    injection Hd as <-. simpl. by apply Hsound.
Qed.

(** The theorem at the page with a blank meta description: one draft for
    the missing description, none for a long title. *)
Lemma evaluatePageIssues_table_witness :
  countType MISSING_META_DESCRIPTION (evaluatePageIssues blankMetaPage noExtra) = 1%nat
  /\ countType TITLE_TOO_LONG (evaluatePageIssues blankMetaPage noExtra) = 0%nat.
Proof.
  split.
  - apply (proj1 (proj1 (evaluatePageIssues_table blankMetaPage noExtra)
                    MISSING_META_DESCRIPTION)).
    reflexivity.
  - apply (proj2 (proj1 (evaluatePageIssues_table blankMetaPage noExtra)
                    TITLE_TOO_LONG)).
    vm_compute. intros H. discriminate H.
Defined.

(** C5, the claim as worded, fails where a text field holds only white
    space: a meta description or a canonical of one space is not empty,
    yet its rule fires; a title of three spaces has a length between 0 and
    10, yet [TITLE_TOO_SHORT] does not fire. *)
Lemma evaluatePageIssues_as_worded_fails :
  (~ triggerAsWorded MISSING_META_DESCRIPTION blankMetaPage noExtra
   /\ countType MISSING_META_DESCRIPTION (evaluatePageIssues blankMetaPage noExtra) = 1%nat)
  /\ (~ triggerAsWorded CANONICAL_MISSING blankCanonicalPage noExtra
      /\ countType CANONICAL_MISSING (evaluatePageIssues blankCanonicalPage noExtra) = 1%nat)
  /\ (triggerAsWorded TITLE_TOO_SHORT paddedTitlePage noExtra
      /\ countType TITLE_TOO_SHORT (evaluatePageIssues paddedTitlePage noExtra) = 0%nat).
Proof.
  repeat split; try (vm_compute; congruence); try reflexivity.
Qed.

End RuleEvaluator.

(** ** The post-processor: totals *)

Section Totals.
Import Store PostProcess.

(** The pages of a run whose status code is known. *)
Definition knownStatus (pages : list Page) : list Page :=
  filter (fun p => page_statusCode p <> None) pages.

Definition pagesOf (crawlRunId : string) (db : DB) : list Page :=
  filter (fun p => page_crawlRunId p = crawlRunId) (pages db).

Definition blankPage (id run url : string) (status : option Z) : Page :=
  {| page_id := id; page_crawlRunId := run; page_url := url;
     page_normalizedUrl := url; page_statusCode := status;
     page_contentType := None; page_title := None;
     page_metaDescription := None; page_h1Count := None;
     page_canonical := None; page_robotsMeta := None; page_wordCount := None;
     page_templateSignatureHash := None; page_templateSignatureJson := None;
     page_templateId := None |}.

Definition emptyDb : DB :=
  {| projects := ∅; crawlRuns := ∅; pages := []; links := []; issues := [];
     templates := []; nextId := 0 |}.

(** A run with one page that has no status code. *)
Definition dbUnknownStatus : DB :=
  setPages (fun _ => [blankPage "p1" "run1" "https://a.test/" None]) emptyDb.

(** A run with a page answered 200 and a page answered 404. *)
Definition dbTwoPages : DB :=
  setPages (fun _ => [blankPage "p1" "run1" "https://a.test/" (Some 200);
                      blankPage "p2" "run1" "https://a.test/missing" (Some 404)])
           emptyDb.

Lemma distributionSum_empty : distributionSum ∅ = 0.
Proof. unfold distributionSum. apply map_fold_empty. Qed.

Lemma distributionSum_insert_fresh (d : gmap string Z) k v :
  d !! k = None -> distributionSum (<[k:=v]> d) = v + distributionSum d.
Proof.
  intros Hk. unfold distributionSum.
  rewrite map_fold_insert_L; [reflexivity | intros; lia | exact Hk].
Qed.

Lemma distributionSum_delete (d : gmap string Z) k v :
  d !! k = Some v -> distributionSum d = v + distributionSum (delete k d).
Proof.
  intros Hk. unfold distributionSum.
  rewrite (map_fold_delete_L _ _ k v d); [reflexivity | intros; lia | exact Hk].
Qed.

(** Counting one more page under a key adds one to the sum. *)
Lemma distributionSum_bump (d : gmap string Z) k :
  distributionSum (<[k := (d !! k) ?? 0 + 1]> d) = distributionSum d + 1.
Proof.
  destruct (d !! k) as [v|] eqn:Hk; simpl.
  - rewrite <- insert_delete_eq.
    rewrite distributionSum_insert_fresh by apply lookup_delete_eq.
    rewrite (distributionSum_delete d k v Hk). lia.
  - rewrite distributionSum_insert_fresh by done. lia.
Qed.

Lemma scanPages_sum_from acc pages :
  distributionSum (foldl scanPage acc pages).2
  = distributionSum acc.2 + Z.of_nat (List.length (knownStatus pages)).
Proof.
  revert acc. induction pages as [|p pages IH]; intros [m d]; simpl.
  - unfold knownStatus. simpl. lia.
  - rewrite IH. unfold knownStatus. rewrite filter_cons. unfold scanPage.
    destruct (decide (page_statusCode p <> None)) as [Hk|Hk];
      destruct (page_statusCode p) as [sc|]; try done.
    + cbn [snd]. rewrite distributionSum_bump. cbn [List.length]. lia.
    + exfalso. apply Hk. done.
Qed.

Lemma scanPages_sum pages :
  distributionSum (scanPages pages).2 = Z.of_nat (List.length (knownStatus pages)).
Proof.
  unfold scanPages. rewrite scanPages_sum_from. simpl.
  rewrite distributionSum_empty. lia.
Qed.

Lemma postProcessCrawl_totals crawlRunId db :
  statusCodeDistribution (postProcessCrawl crawlRunId db).1
  = (scanPages (pagesOf crawlRunId db)).2
  /\ pagesCount (postProcessCrawl crawlRunId db).1
     = Z.of_nat (List.length (pagesOf crawlRunId db)).
Proof.
  unfold postProcessCrawl. fold (pagesOf crawlRunId db).
  destruct (scanPages (pagesOf crawlRunId db)) as [m d].
  destruct (scanLinks m _) as [ups eps]. simpl. done.
Qed.

(** C9 (as amended). After the totals are computed, [pagesCount] is the
    number of Page rows of the run, and the values of
    [statusCodeDistribution] add up to the number of those rows whose
    [statusCode] is not null; the two agree when no page of the run has a
    null [statusCode]. *)
Theorem statusCodeDistribution_sum crawlRunId db :
  let totals := (postProcessCrawl crawlRunId db).1 in
  pagesCount totals = Z.of_nat (List.length (pagesOf crawlRunId db))
  /\ distributionSum (statusCodeDistribution totals)
     = Z.of_nat (List.length (knownStatus (pagesOf crawlRunId db)))
  /\ ((forall p, p ∈ pagesOf crawlRunId db -> page_statusCode p <> None) ->
      distributionSum (statusCodeDistribution totals) = pagesCount totals).
Proof.
  cbv zeta.
  destruct (postProcessCrawl_totals crawlRunId db) as [-> ->].
  rewrite scanPages_sum. split; [reflexivity | split; [reflexivity |]].
  intros Hall. f_equal. f_equal. unfold knownStatus.
  induction (pagesOf crawlRunId db) as [|p l IH]; [reflexivity|].
  rewrite filter_cons, decide_True by (apply Hall; left).
  simpl. f_equal. apply IH. intros q Hq. apply Hall. by right.
Qed.

(** C9, as stated, fails on a run with a page whose status code is null:
    the page is counted in [pagesCount] and in no entry of the
    distribution. *)
Lemma statusCodeDistribution_sum_fails :
  pagesCount (postProcessCrawl "run1" dbUnknownStatus).1 = 1
  /\ distributionSum (statusCodeDistribution (postProcessCrawl "run1" dbUnknownStatus).1) = 0.
Proof. split; reflexivity. Qed.

Example totals_two_pages :
  let totals := (postProcessCrawl "run1" dbTwoPages).1 in
  pagesCount totals = 2
  /\ statusCodeDistribution totals = {[ "200" := 1; "404" := 1 ]}.
Proof. split; [reflexivity | by vm_compute]. Qed.

End Totals.

(** ** The post-processor: broken links *)

Section BrokenLinks.
Import Store PostProcess.

(** The schema's constraints that the resolution relies on: the primary
    key of [Link], and the unique index of [Page] on
    [(crawlRunId, normalizedUrl)]. *)
Definition linkIdsUnique (db : DB) : Prop := NoDup (link_id <$> links db).

Definition pageUrlsUnique (crawlRunId : string) (db : DB) : Prop :=
  NoDup (page_normalizedUrl <$> pagesOf crawlRunId db).

(** Links as they are inserted: not broken, no status code. *)
Definition linksFresh (crawlRunId : string) (db : DB) : Prop :=
  forall l, l ∈ links db -> link_crawlRunId l = crawlRunId ->
            link_isBroken l = false /\ link_statusCode l = None.

(** The link has a target page in the run, answered with status [s]. *)
Definition targetStatus (crawlRunId : string) (db : DB) (l : Link) (s : Z) : Prop :=
  exists p, p ∈ pages db /\ page_crawlRunId p = crawlRunId
            /\ page_normalizedUrl p = link_toNormalizedUrl l
            /\ page_statusCode p = Some s.

Definition recordStatus (m : gmap string Z) (p : Page) : gmap string Z :=
  match page_statusCode p with
  | Some s => <[page_normalizedUrl p := s]> m
  | None => m
  end.

Definition brokenUpdate (m : gmap string Z) (l : Link) : option (string * Z) :=
  match m !! link_toNormalizedUrl l with
  | Some s => if s >=? 400 then Some (link_id l, s) else None
  | None => None
  end.

Definition applyRow (ups : list (string * Z)) (l : Link) : Link :=
  foldl (fun l u => if bool_decide (link_id l = u.1) then withBroken u.2 l else l) l ups.

Definition blankLink (id run target : string) (ty : LinkType) : Link :=
  {| link_id := id; link_crawlRunId := run; link_fromPageId := None;
     link_toUrl := target; link_toNormalizedUrl := target; link_linkType := ty;
     link_isBroken := false; link_statusCode := None |}.

(** Scenario B of the specification: [/] links to [/missing], which
    answers 404; and a second link to a page that was never fetched. *)
Definition dbScenarioB : DB :=
  setLinks (fun _ => [blankLink "l1" "run1" "https://a.test/missing" INTERNAL;
                      blankLink "l2" "run1" "https://a.test/unseen" INTERNAL;
                      blankLink "l3" "run1" "https://b.test/" EXTERNAL])
           dbTwoPages.

Lemma NoDup_fmap_eq {A B} (f : A -> B) (l : list A) x y :
  NoDup (f <$> l) -> x ∈ l -> y ∈ l -> f x = f y -> x = y.
Proof.
  induction l as [|a l IH]; intros Hnd Hx Hy Hf.
  - by apply elem_of_nil in Hx.
  - rewrite fmap_cons in Hnd. apply NoDup_cons in Hnd as [Ha Hnd].
    apply elem_of_cons in Hx as [-> | Hx]; apply elem_of_cons in Hy as [-> | Hy].
    + reflexivity.
    + exfalso. apply Ha. rewrite Hf. by apply list_elem_of_fmap_2.
    + exfalso. apply Ha. rewrite <- Hf. by apply list_elem_of_fmap_2.
    + by apply IH.
Qed.

(** *** Step 1: the status map *)

Lemma scanPages_map_from acc ps :
  (foldl scanPage acc ps).1 = foldl recordStatus acc.1 ps.
Proof.
  revert acc. induction ps as [|p ps IH]; intros [m d]; [reflexivity|].
  simpl. rewrite IH. unfold scanPage, recordStatus.
  destruct (page_statusCode p); reflexivity.
Qed.

Lemma recordStatus_sound ps : forall m u s,
  foldl recordStatus m ps !! u = Some s ->
  m !! u = Some s
  \/ exists p, p ∈ ps /\ page_normalizedUrl p = u /\ page_statusCode p = Some s.
Proof.
  induction ps as [|p ps IH]; intros m u s H; [by left|].
  simpl in H. apply IH in H as [H | (q & Hq & Hu & Hs)].
  - unfold recordStatus in H. destruct (page_statusCode p) as [sp|] eqn:Hsp.
    + destruct (decide (page_normalizedUrl p = u)) as [Heq|Hne].
      * subst u. rewrite lookup_insert_eq in H. injection H as ->.
        right. exists p. split; [by left | done].
      * rewrite lookup_insert_ne in H by done. by left.
    + by left.
  - right. exists q. split; [by right | done].
Qed.



(** *** Step 2: the updates collected *)

Lemma scanLinks_updates_from m ls : forall acc,
  (foldl (scanLink m) acc ls).1 = (acc.1 ++ omap (brokenUpdate m) ls)%list.
Proof.
  induction ls as [|l ls IH]; intros [ups eps]; simpl.
  - by rewrite app_nil_r.
  - rewrite IH. unfold scanLink, brokenUpdate.
    destruct (m !! link_toNormalizedUrl l) as [s|]; [|reflexivity].
    destruct (s >=? 400); [|reflexivity].
    simpl. by rewrite <- app_assoc.
Qed.

Lemma scanLinks_updates m ls : (scanLinks m ls).1 = omap (brokenUpdate m) ls.
Proof. unfold scanLinks. by rewrite scanLinks_updates_from. Qed.

(** *** Step 3: the updates applied *)

Lemma applyRow_id ups : forall l, link_id (applyRow ups l) = link_id l.
Proof.
  unfold applyRow. induction ups as [|u ups IH]; intros l; [reflexivity|].
  simpl. rewrite IH. by case_bool_decide.
Qed.

Lemma applyUpdates_links ups : forall db,
  links (applyUpdates ups db) = applyRow ups <$> links db.
Proof.
  unfold applyUpdates, applyRow.
  induction ups as [|u ups IH]; intros db; simpl.
  - by rewrite list_fmap_id.
  - rewrite IH. unfold link_update. simpl. rewrite <- list_fmap_compose.
    reflexivity.
Qed.

Lemma applyUpdates_pages ups : forall db, pages (applyUpdates ups db) = pages db.
Proof.
  unfold applyUpdates. induction ups as [|u ups IH]; intros db; simpl; [done|].
  by rewrite IH.
Qed.

Lemma applyRow_untouched ups : forall l,
  link_id l ∉ ups.*1 -> applyRow ups l = l.
Proof.
  unfold applyRow. induction ups as [|u ups IH]; intros l Hl; [reflexivity|].
  rewrite fmap_cons, not_elem_of_cons in Hl. destruct Hl as [Hne Hl].
  simpl. rewrite bool_decide_eq_false_2 by done. by apply IH.
Qed.

Lemma applyRow_hit ups : forall l s,
  NoDup ups.*1 -> (link_id l, s) ∈ ups -> applyRow ups l = withBroken s l.
Proof.
  induction ups as [|u ups IH]; intros l s Hnd Hin.
  - by apply elem_of_nil in Hin.
  - rewrite fmap_cons in Hnd. apply NoDup_cons in Hnd as [Hu Hnd].
    apply elem_of_cons in Hin as [<- | Hin].
    + unfold applyRow. simpl. rewrite bool_decide_eq_true_2 by done.
      apply (applyRow_untouched ups (withBroken s l)). exact Hu.
    + unfold applyRow. simpl.
      rewrite bool_decide_eq_false_2.
      * by apply IH.
      * intros Heq. apply Hu. rewrite <- Heq.
        apply (list_elem_of_fmap_2 fst) in Hin. exact Hin.
Qed.

Definition internalLinksOf (crawlRunId : string) (db : DB) : list Link :=
  filter (fun l => link_crawlRunId l = crawlRunId /\ link_linkType l = INTERNAL)
         (links db).

Definition statusMapOf (crawlRunId : string) (db : DB) : gmap string Z :=
  foldl recordStatus ∅ (pagesOf crawlRunId db).

Lemma postProcessCrawl_db crawlRunId db :
  (postProcessCrawl crawlRunId db).2
  = applyUpdates (omap (brokenUpdate (statusMapOf crawlRunId db))
                       (internalLinksOf crawlRunId db)) db.
Proof.
  unfold postProcessCrawl, statusMapOf.
  fold (pagesOf crawlRunId db). fold (internalLinksOf crawlRunId db).
  pose proof (scanPages_map_from (∅, ∅) (pagesOf crawlRunId db)) as Hm.
  fold (scanPages (pagesOf crawlRunId db)) in Hm. simpl in Hm.
  destruct (scanPages (pagesOf crawlRunId db)) as [m d]. simpl in Hm. subst m.
  pose proof (scanLinks_updates (foldl recordStatus ∅ (pagesOf crawlRunId db))
                (internalLinksOf crawlRunId db)) as Hu.
  destruct (scanLinks _ _) as [ups eps]. simpl in Hu. subst ups. reflexivity.
Qed.



Lemma updates_ids_unique crawlRunId db m :
  linkIdsUnique db ->
  NoDup (omap (brokenUpdate m) (internalLinksOf crawlRunId db)).*1.
Proof.
  unfold linkIdsUnique, internalLinksOf. intros Hnd.
  induction (links db) as [|l ls IH]; [constructor|].
  rewrite fmap_cons in Hnd. apply NoDup_cons in Hnd as [Hl Hnd].
  rewrite filter_cons. destruct (decide _) as [_|_]; [|by apply IH].
  simpl. destruct (brokenUpdate m l) as [[i s]|] eqn:Hb; [|by apply IH].
  rewrite fmap_cons. apply NoDup_cons. split; [|by apply IH].
  simpl. intros Hin. apply Hl.
  apply list_elem_of_fmap in Hin as ([i' s'] & -> & Hin).
  apply list_elem_of_omap in Hin as (l' & Hl' & Hb').
  apply list_elem_of_filter in Hl' as [_ Hl'].
  unfold brokenUpdate in Hb, Hb'.
  destruct (m !! link_toNormalizedUrl l) as [x|]; [|discriminate].
  destruct (x >=? 400); [|discriminate]. injection Hb as <- <-.
  destruct (m !! link_toNormalizedUrl l') as [y|]; [|discriminate].
  destruct (y >=? 400); [|discriminate]. injection Hb' as <- <-.
  simpl. by apply list_elem_of_fmap_2.
Qed.

(** What the post-processor does to each link row. *)
Lemma postProcessCrawl_row crawlRunId db l :
  linkIdsUnique db -> l ∈ links db ->
  applyRow (omap (brokenUpdate (statusMapOf crawlRunId db))
                 (internalLinksOf crawlRunId db)) l
  = match brokenUpdate (statusMapOf crawlRunId db) l with
    | Some (_, s) =>
        if bool_decide (link_crawlRunId l = crawlRunId /\ link_linkType l = INTERNAL)
        then withBroken s l else l
    | None => l
    end.
Proof.
  intros Hnd Hl. set (m := statusMapOf crawlRunId db).
  assert (Hout : forall s, (link_id l, s) ∈ omap (brokenUpdate m) (internalLinksOf crawlRunId db) ->
                           brokenUpdate m l = Some (link_id l, s)
                           /\ link_crawlRunId l = crawlRunId /\ link_linkType l = INTERNAL).
  { intros s Hin. apply list_elem_of_omap in Hin as (l' & Hl' & Hb').
    apply list_elem_of_filter in Hl' as [Hint Hl'].
    assert (link_id l' = link_id l) as Hid.
    { unfold brokenUpdate in Hb'.
      destruct (m !! link_toNormalizedUrl l') as [y|]; [|discriminate].
      destruct (y >=? 400); [|discriminate]. by injection Hb' as -> _. }
    assert (l' = l) as -> by (eapply NoDup_fmap_eq; eauto).
    done. }
  destruct (brokenUpdate m l) as [[i s]|] eqn:Hb.
  - assert (i = link_id l) as ->.
    { unfold brokenUpdate in Hb.
      destruct (m !! link_toNormalizedUrl l) as [y|]; [|discriminate].
      destruct (y >=? 400); [|discriminate]. by injection Hb as <- _. }
    case_bool_decide as Hint.
    + apply applyRow_hit; [by apply updates_ids_unique|].
      apply list_elem_of_omap. exists l. split; [|exact Hb].
      apply list_elem_of_filter. done.
    + apply applyRow_untouched. intros Hin.
      apply list_elem_of_fmap in Hin as ([i' s'] & Hi & Hin). simpl in Hi. subst i'.
      apply Hout in Hin as (_ & ? & ?). apply Hint. done.
  - apply applyRow_untouched. intros Hin.
    apply list_elem_of_fmap in Hin as ([i' s'] & Hi & Hin). simpl in Hi. subst i'.
    apply Hout in Hin as (Hb' & _). congruence.
Qed.




Lemma scenarioB_constraints :
  linkIdsUnique dbScenarioB /\ pageUrlsUnique "run1" dbScenarioB
  /\ linksFresh "run1" dbScenarioB.
Proof.
  split; [|split].
  - unfold linkIdsUnique. simpl.
    repeat (apply NoDup_cons; split;
            [rewrite ?elem_of_cons, elem_of_nil; intuition discriminate|]).
    apply NoDup_nil_2.
  - unfold pageUrlsUnique. vm_compute.
    repeat (apply NoDup_cons; split;
            [rewrite ?elem_of_cons, elem_of_nil; intuition discriminate|]).
    apply NoDup_nil_2.
  - intros l Hl _. simpl in Hl.
    rewrite !elem_of_cons, elem_of_nil in Hl.
    destruct Hl as [-> | [-> | [-> | []]]]; done.
Qed.

(** Scenario B after post-processing: the three links are still there,
    the one to [/missing] broken with status 404, the other two as they
    were. *)
Example scenarioB_links :
  links (postProcessCrawl "run1" dbScenarioB).2
  = [withBroken 404 (blankLink "l1" "run1" "https://a.test/missing" INTERNAL);
     blankLink "l2" "run1" "https://a.test/unseen" INTERNAL;
     blankLink "l3" "run1" "https://b.test/" EXTERNAL].
Proof. vm_compute. reflexivity. Qed.


End BrokenLinks.

(** ** The issue summary: what saving it leaves alone *)

Section SummaryFrame.
Import Store Summary.

Definition summaryKeys : list string :=
  ["issueCountTotal"; "issueCountByType"; "issueCountBySeverity"; "topIssueTypes"].

(** The totals as the post-processor leaves them for Scenario B. *)
Definition totalsScenarioB : gmap string Json :=
  <["pagesCount" := JNum 2]>
  (<["linksCount" := JNum 3]>
   (<["internalLinksCount" := JNum 2]>
    (<["externalLinksCount" := JNum 1]>
     (<["brokenInternalLinksCount" := JNum 1]>
      (<["statusCodeDistribution" := JObj (<["200" := JNum 1]> (<["404" := JNum 1]> ∅))]>
       (<["topErrorPages" := JArr []]>
        (<["lastErrorMessage" := JStr "earlier failure"]> ∅))))))).

Definition runScenarioB : CrawlRun :=
  {| run_id := "run1"; run_projectId := "proj1"; run_status := RUNNING;
     run_createdAt := 1%nat; run_startedAt := Some 2%nat; run_finishedAt := None;
     run_totalsJson := JObj totalsScenarioB |}.

Definition dbWithRun : DB := setCrawlRuns (insert "run1" runScenarioB) dbScenarioB.

Definition summaryScenarioB : IssueSummary :=
  {| issueCountTotal := 1; issueCountByType := [("STATUS_4XX_5XX", 1)];
     issueCountBySeverity := [("CRITICAL", 1)];
     topIssueTypes := [("STATUS_4XX_5XX", 1)] |}.

Lemma mergeSummary_frame existing summary k :
  k ∉ summaryKeys -> mergeSummary existing summary !! k = existing !! k.
Proof.
  unfold summaryKeys. rewrite !not_elem_of_cons. intros (H1 & H2 & H3 & H4 & _).
  unfold mergeSummary. by rewrite !lookup_insert_ne.
Qed.

Lemma mergeSummary_keys existing summary :
  mergeSummary existing summary !! "issueCountTotal" = Some (JNum (issueCountTotal summary))
  /\ mergeSummary existing summary !! "issueCountByType"
     = Some (countsJson (issueCountByType summary))
  /\ mergeSummary existing summary !! "issueCountBySeverity"
     = Some (countsJson (issueCountBySeverity summary))
  /\ mergeSummary existing summary !! "topIssueTypes"
     = Some (JArr (topTypeJson <$> topIssueTypes summary)).
Proof.
  unfold mergeSummary.
  repeat split; repeat (rewrite lookup_insert_ne by done); apply lookup_insert_eq.
Qed.

(** C10. Saving the issue summary replaces the run's totals by an object
    in which the four summary keys hold the summary and every other key
    holds what it held before (absent keys stay absent); nothing else of
    the run, no other run and no other table changes. *)
Theorem saveIssueSummary_frame crawlRunId summary db run existing
    (Hrun : crawlRuns db !! crawlRunId = Some run)
    (Htotals : run_totalsJson run = JObj existing) :
  exists updated,
    saveIssueSummary crawlRunId summary db
    = Some (setCrawlRuns (insert crawlRunId (withTotals (JObj updated) run)) db)
    /\ (forall k, k ∉ summaryKeys -> updated !! k = existing !! k)
    /\ updated !! "issueCountTotal" = Some (JNum (issueCountTotal summary))
    /\ updated !! "issueCountByType" = Some (countsJson (issueCountByType summary))
    /\ updated !! "issueCountBySeverity" = Some (countsJson (issueCountBySeverity summary))
    /\ updated !! "topIssueTypes" = Some (JArr (topTypeJson <$> topIssueTypes summary)).
Proof.
  exists (mergeSummary existing summary).
  split; [| split; [intros k; apply mergeSummary_frame | apply mergeSummary_keys]].
  unfold saveIssueSummary, crawlRun_update. rewrite Hrun, Htotals. reflexivity.
Qed.

Lemma saveIssueSummary_frame_witness :
  exists updated,
    saveIssueSummary "run1" summaryScenarioB dbWithRun
    = Some (setCrawlRuns (insert "run1" (withTotals (JObj updated) runScenarioB)) dbWithRun)
    /\ updated !! "pagesCount" = Some (JNum 2)
    /\ updated !! "lastErrorMessage" = Some (JStr "earlier failure")
    /\ updated !! "issueCountTotal" = Some (JNum 1).
Proof.
  destruct (saveIssueSummary_frame "run1" summaryScenarioB dbWithRun runScenarioB
              totalsScenarioB eq_refl eq_refl)
    as (updated & Hsave & Hframe & Htotal & _).
  exists updated. split; [exact Hsave|]. split; [|split; [|exact Htotal]].
  - rewrite Hframe; [reflexivity|].
    unfold summaryKeys. rewrite !not_elem_of_cons, elem_of_nil. intuition discriminate.
  - rewrite Hframe; [reflexivity|].
    unfold summaryKeys. rewrite !not_elem_of_cons, elem_of_nil. intuition discriminate.
Defined.

End SummaryFrame.

(** ** The wipe at the head of [runCrawl] *)

Section Wipe.
Import Store Runner.

Definition templateRow : Template :=
  {| template_id := "t1"; template_crawlRunId := "run1";
     template_signatureHash := "abc"; template_samplePageId := None;
     template_pageCount := 2 |}.

(** Scenario B with a template left by an earlier execution of the job. *)
Definition dbWithTemplate : DB :=
  {| projects := projects dbWithRun; crawlRuns := crawlRuns dbWithRun;
     pages := pages dbWithRun; links := links dbWithRun; issues := issues dbWithRun;
     templates := [templateRow]; nextId := nextId dbWithRun |}.

(** The wipe at the head of [runCrawl] deletes every Issue, Link and Page
    row of the run and leaves the pages of other runs; it does not touch
    the Template table, nor the runs. *)
Lemma cleanUp_children crawlRunId db :
  let db' := cleanUpExistingData crawlRunId db in
  (forall i, i ∈ issues db' -> issue_crawlRunId i <> crawlRunId)
  /\ (forall l, l ∈ links db' -> link_crawlRunId l <> crawlRunId)
  /\ (forall p, p ∈ pages db' -> page_crawlRunId p <> crawlRunId)
  /\ (forall p, page_crawlRunId p <> crawlRunId -> p ∈ pages db' <-> p ∈ pages db)
  /\ templates db' = templates db
  /\ crawlRuns db' = crawlRuns db.
Proof.
  cbv zeta. unfold cleanUpExistingData, page_deleteMany, link_deleteMany,
    issue_deleteMany. simpl.
  repeat split.
  - intros i Hi. apply list_elem_of_fmap in Hi as (i' & -> & Hi).
    apply list_elem_of_filter in Hi as [Hne _]. exact Hne.
  - intros l Hl. apply list_elem_of_fmap in Hl as (l' & -> & Hl).
    apply list_elem_of_filter in Hl as [Hne _]. exact Hne.
  - intros p Hp. apply list_elem_of_filter in Hp as [Hne _]. exact Hne.
  - intros Hp. by apply list_elem_of_filter in Hp as [_ Hp].
  - intros Hp. by apply list_elem_of_filter.
Qed.

Example cleanUp_scenarioB :
  let db' := cleanUpExistingData "run1" dbWithTemplate in
  pages db' = [] /\ links db' = [] /\ issues db' = [].
Proof. repeat split. Qed.

End Wipe.

(** ** The numbers of the settings *)

Section Numbers.

(** A size or depth is an integer, so comparing it with a number of the
    settings is comparing it with the number rounded up or down. *)
Lemma geq_ceiling n x : Js.geq n x = (n >=? Qceiling x).
Proof.
  unfold Js.geq. apply eq_true_iff_eq. rewrite Qle_bool_iff, Z.geb_le. split.
  - intros H. apply Qceiling_resp_le in H. by rewrite Qceiling_Z in H.
  - intros H. eapply Qle_trans; [apply Qle_ceiling|]. by rewrite <- Zle_Qle.
Qed.

Lemma gt_floor n x : Js.gt n x = (n >? Qfloor x).
Proof.
  unfold Js.gt. rewrite Z.gtb_ltb, Z.ltb_antisym. f_equal.
  apply eq_true_iff_eq. rewrite Qle_bool_iff, Z.leb_le. split.
  - intros H. apply Qfloor_resp_le in H. by rewrite Qfloor_Z in H.
  - intros H. eapply Qle_trans; [|apply Qfloor_le]. by rewrite <- Zle_Qle.
Qed.

End Numbers.

(** ** The BFS loop *)

Section Bfs.
Import Store Runner.

Variable env : Env.
Variable crawlRunId : string.
Variable baseDomain : string.
Variable settings : CrawlSettings.

Definition stateOf (f : Flow) : BfsState :=
  match f with Next s | Break s | Return s => s end.

(** The states of the loop from [s0]: the least set that holds [s0] and
    the outcome of a pass of the loop body from each of its states,
    whichever way the pass ends. *)
Inductive reachable (s0 : BfsState) : BfsState -> Prop :=
  | reach_init : reachable s0 s0
  | reach_step s : reachable s0 s ->
      reachable s0 (stateOf (bfsIteration env crawlRunId baseDomain settings s)).

(** The fetch of [u] reported an error. *)
Definition fetchFailed (u : string) : Prop :=
  nonEmpty (pr_error (fetchAndParsePage env u)) = true.

(** What a persisted page shows of the fetch it came from. *)
Definition pageKey (p : Page) : string * option Z :=
  (page_normalizedUrl p, page_statusCode p).

Definition fetchKey (u : string) : string * option Z :=
  (u, pr_statusCode (fetchAndParsePage env u)).

(** The loop invariant, first half: the fetch log has no repeats and
    lists exactly the visited URLs. *)
Definition visitInv (s : BfsState) : Prop :=
  NoDup (fetchLog s) /\ (forall u, u ∈ fetchLog s <-> u ∈ visited s).

(** Second half: the pages of the run are those of the logged fetches that
    reported no error, in order. *)
Definition pagesInv (s : BfsState) : Prop :=
  pageKey <$> pagesOf crawlRunId (db s)
  = fetchKey <$> filter (fun u => ~ fetchFailed u) (fetchLog s).

Lemma pagesOf_app d (rows : list Page) :
  filter (fun p => page_crawlRunId p = crawlRunId) (pages d ++ rows)%list
  = (pagesOf crawlRunId d ++ filter (fun p => page_crawlRunId p = crawlRunId) rows)%list.
Proof. unfold pagesOf. apply filter_app. Qed.

Lemma persistIssues_pages page result d :
  pages (persistIssues crawlRunId page result d) = pages d.
Proof.
  unfold persistIssues. destruct (pr_statusCode result); [|reflexivity].
  destruct (Issues.evaluatePageIssues _ _); reflexivity.
Qed.

Lemma processPage_log u depth s :
  fetchLog (processPage env crawlRunId baseDomain settings u depth s)
  = (fetchLog s ++ [u])%list
  /\ visited (processPage env crawlRunId baseDomain settings u depth s) = visited s.
Proof.
  unfold processPage.
  destruct (nonEmpty _); [done|].
  destruct (page_create _ _) as [[page d]|]; done.
Qed.

Lemma processPage_pages u depth s :
  (forall p, p ∈ pagesOf crawlRunId (db s) -> page_normalizedUrl p <> u) ->
  pageKey <$> pagesOf crawlRunId
                (db (processPage env crawlRunId baseDomain settings u depth s))
  = ((pageKey <$> pagesOf crawlRunId (db s))
       ++ (if nonEmpty (pr_error (fetchAndParsePage env u)) then [] else [fetchKey u]))%list.
Proof.
  intros Hfree. unfold processPage.
  destruct (nonEmpty (pr_error (fetchAndParsePage env u))); simpl.
  { by rewrite app_nil_r. }
  unfold page_create.
  rewrite bool_decide_eq_false_2.
  - simpl. unfold pagesOf at 1. rewrite persistIssues_pages. simpl.
    rewrite pagesOf_app, fmap_app. f_equal.
    rewrite filter_cons, decide_True by reflexivity. reflexivity.
  - rewrite Exists_exists. intros (p & Hp & Hrun & Hurl).
    apply (Hfree p); [|exact Hurl].
    apply list_elem_of_filter. split; [exact Hrun | exact Hp].
Qed.

(** One pass either leaves the visited set, the store and the fetch log as
    they are, or marks one URL that was not visited and processes it. *)
Lemma bfsIteration_cases s :
  let s' := stateOf (bfsIteration env crawlRunId baseDomain settings s) in
  (visited s' = visited s /\ db s' = db s /\ fetchLog s' = fetchLog s)
  \/ (exists u depth s1,
        (u ∉ visited s) /\ (visited s1 = {[u]} ∪ visited s) /\ (db s1 = db s)
        /\ (fetchLog s1 = fetchLog s)
        /\ (s' = processPage env crawlRunId baseDomain settings u depth s1)).
Proof.
  cbv zeta. unfold bfsIteration.
  destruct (queue s) as [|item rest]; [by left|].
  destruct (_ && _); [by left|].
  destruct (Js.geq _ (maxPages settings)); [by left|].
  destruct (Js.gt (depth item) (maxDepth settings)); [by left|].
  destruct (normalizeUrl env (url item) (ignoreParams settings)) as [u|]; [|by left].
  destruct (String.eqb u ""); [by left|].
  case_bool_decide as Hin; [by left|].
  right. eexists u, (depth item), _. split; [exact Hin|].
  split; [|split; [|split]]; [| | | reflexivity]; reflexivity.
Qed.

Lemma visitInv_step s : visitInv s ->
  visitInv (stateOf (bfsIteration env crawlRunId baseDomain settings s)).
Proof.
  intros (Hnd & Hvis).
  destruct (bfsIteration_cases s) as [(Hv & Hd & Hl) | (u & dep & s1 & Hu & Hv & Hd & Hl & ->)].
  - unfold visitInv. rewrite Hv, Hl. done.
  - destruct (processPage_log u dep s1) as [Hlog Hvis'].
    assert (Hfresh : u ∉ fetchLog s) by (by rewrite Hvis).
    unfold visitInv. rewrite Hlog, Hvis', Hl, Hv. split.
    + apply NoDup_app. split; [exact Hnd|]. split.
      * intros x Hx Hx'. apply list_elem_of_singleton in Hx' as ->. done.
      * apply NoDup_singleton.
    + intros x. rewrite elem_of_app, list_elem_of_singleton, elem_of_union,
        elem_of_singleton, Hvis. tauto.
Qed.

Lemma pagesInv_step s : visitInv s -> pagesInv s ->
  pagesInv (stateOf (bfsIteration env crawlRunId baseDomain settings s)).
Proof.
  intros (Hnd & Hvis) Hpages.
  destruct (bfsIteration_cases s) as [(Hv & Hd & Hl) | (u & dep & s1 & Hu & Hv & Hd & Hl & ->)].
  - unfold pagesInv. rewrite Hd, Hl. done.
  - destruct (processPage_log u dep s1) as [Hlog Hvis'].
    assert (Hfresh : u ∉ fetchLog s) by (by rewrite Hvis).
    unfold pagesInv. rewrite Hlog, Hl. rewrite processPage_pages.
    + rewrite Hd, Hpages, filter_app, fmap_app. f_equal.
      rewrite filter_cons, filter_nil. unfold fetchFailed.
      destruct (nonEmpty (pr_error (fetchAndParsePage env u))).
      * rewrite decide_False by (intros H; by apply H). reflexivity.
      * rewrite decide_True by done. reflexivity.
    + rewrite Hd. intros p Hp Hurl. apply Hfresh.
      assert (Hk : pageKey p ∈ pageKey <$> pagesOf crawlRunId (db s))
        by (by apply list_elem_of_fmap_2).
      rewrite Hpages in Hk. apply list_elem_of_fmap in Hk as (x & Hx & Hin).
      apply list_elem_of_filter in Hin as [_ Hin].
      unfold pageKey, fetchKey in Hx. injection Hx as Hx _. congruence.
Qed.

Lemma visitInv_initial normalizedStart d : visitInv (initialState normalizedStart d).
Proof.
  unfold visitInv. simpl. split; [constructor|].
  intros u. rewrite elem_of_nil. set_solver.
Qed.

Lemma visitInv_reachable s0 s : visitInv s0 -> reachable s0 s -> visitInv s.
Proof. intros H0 Hr. induction Hr; [exact H0 | by apply visitInv_step]. Qed.

Lemma pagesInv_reachable s0 s :
  visitInv s0 -> pagesInv s0 -> reachable s0 s -> pagesInv s.
Proof.
  intros Hv0 H0 Hr. induction Hr; [exact H0|].
  apply pagesInv_step; [by eapply visitInv_reachable | exact IHHr].
Qed.

Lemma cleanUp_no_pages d : pagesOf crawlRunId (cleanUpExistingData crawlRunId d) = [].
Proof.
  unfold pagesOf, cleanUpExistingData, page_deleteMany. simpl.
  induction (pages d) as [|p ps IH]; [reflexivity|].
  rewrite filter_cons. destruct (decide (page_crawlRunId p <> crawlRunId)) as [Hne|Heq].
  - rewrite filter_cons, decide_False by done. exact IH.
  - exact IH.
Qed.

(** The state the loop ends in is one of the reachable ones. *)
Lemma bfsLoop_reachable fuel : forall s canceled s',
  bfsLoop env crawlRunId baseDomain settings fuel s = Some (canceled, s') ->
  reachable s s'.
Proof.
  induction fuel as [|fuel IH]; intros s canceled s' H; [discriminate|].
  simpl in H.
  assert (Hstep : reachable s (stateOf (bfsIteration env crawlRunId baseDomain settings s)))
    by (apply reach_step, reach_init).
  destruct (bfsIteration env crawlRunId baseDomain settings s) as [s1|s1|s1];
    simpl in Hstep.
  - apply IH in H. clear -H Hstep. induction H; [exact Hstep | by apply reach_step].
  - by injection H as _ <-.
  - by injection H as _ <-.
Qed.

(** *** The loop ends *)

(** How far the loop is from its page limit, and how long its frontier is:
    each pass that goes on either marks a URL, which brings the limit
    closer, or only takes an entry off the frontier. *)
Definition pagesLeft (s : BfsState) : nat :=
  Z.to_nat (Qceiling (maxPages settings) - Z.of_nat (size (visited s))).

Lemma bfsIteration_progress s s' :
  bfsIteration env crawlRunId baseDomain settings s = Next s' ->
  (pagesLeft s' = pagesLeft s /\ (List.length (queue s') < List.length (queue s))%nat)
  \/ (pagesLeft s' < pagesLeft s)%nat.
Proof.
  unfold bfsIteration.
  destruct (queue s) as [|item rest] eqn:Hq; [discriminate|].
  destruct (_ && _); [discriminate|].
  rewrite geq_ceiling.
  match goal with
  | |- context [?a >=? Qceiling (maxPages settings)] =>
      destruct (Z.geb_spec a (Qceiling (maxPages settings))) as [|Hlt]; [discriminate|]
  end.
  cbn [visited withCounter] in Hlt.
  destruct (Js.gt (depth item) (maxDepth settings)).
  { intros [= <-]. left. cbn. unfold pagesLeft. cbn. split; [reflexivity | lia]. }
  destruct (normalizeUrl env (url item) (ignoreParams settings)) as [u|].
  2:{ intros [= <-]. left. cbn. unfold pagesLeft. cbn. split; [reflexivity | lia]. }
  destruct (String.eqb u "").
  { intros [= <-]. left. cbn. unfold pagesLeft. cbn. split; [reflexivity | lia]. }
  case_bool_decide as Hin.
  { intros [= <-]. left. cbn. unfold pagesLeft. cbn. split; [reflexivity | lia]. }
  intros [= <-]. right. unfold pagesLeft.
  rewrite (proj2 (processPage_log _ _ _)). cbn [visited markVisited withQueue withCounter] in *.
  rewrite size_union by set_solver. rewrite size_singleton. lia.
Qed.

(** The loop is left after finitely many passes, from every state. *)
Lemma bfsLoop_terminates s :
  exists fuel canceled s',
    bfsLoop env crawlRunId baseDomain settings fuel s = Some (canceled, s').
Proof.
  remember (pagesLeft s) as n eqn:Hn. revert s Hn.
  induction n as [n IHn] using lt_wf_ind. intros s Hn.
  remember (List.length (queue s)) as m eqn:Hm. revert s Hn Hm.
  induction m as [m IHm] using lt_wf_ind. intros s Hn Hm.
  destruct (bfsIteration env crawlRunId baseDomain settings s) as [s1|s1|s1] eqn:Hit.
  - assert (Hrec : exists fuel canceled s',
               bfsLoop env crawlRunId baseDomain settings fuel s1 = Some (canceled, s')).
    { destruct (bfsIteration_progress s s1 Hit) as [[Hsame Hshort] | Hless].
      - apply (IHm (List.length (queue s1))); [lia | congruence | reflexivity].
      - apply (IHn (pagesLeft s1)); [lia | reflexivity]. }
    destruct Hrec as (fuel & canceled & s' & Hloop).
    exists (S fuel), canceled, s'. simpl. by rewrite Hit.
  - exists 1%nat, false, s1. simpl. by rewrite Hit.
  - exists 1%nat, true, s1. simpl. by rewrite Hit.
Qed.

(** C3 (as amended). The visited set is empty when the start URL is
    seeded, and at every state of the loop it holds exactly the URLs
    fetched so far: a URL enters it when it is taken from the frontier to
    be fetched, not when it is put there. No URL is fetched twice. *)
Theorem visited_marks_fetches normalizedStart d s
    (Hreach : reachable (initialState normalizedStart d) s) :
  visited (initialState normalizedStart d) = ∅
  /\ NoDup (fetchLog s)
  /\ (forall u, u ∈ visited s <-> u ∈ fetchLog s).
Proof.
  split; [reflexivity|].
  destruct (visitInv_reachable _ _ (visitInv_initial normalizedStart d) Hreach)
    as [Hnd Hvis].
  split; [exact Hnd|]. intros u. symmetry. apply Hvis.
Qed.



End Bfs.

Section BfsExamples.
Import Store Runner.

(** Modelled from the spec: a result of the page fetcher of section 4.3
    for a fetch that fails, "a result with [error] set and
    [statusCode = null]". The source's fetcher is a placeholder that never
    returns one. Here: a timeout. *)
Definition failingFetch (url : string) : PageResult :=
  {| pr_url := url; pr_statusCode := None; pr_contentType := None;
     pr_title := None; pr_metaDescription := None; pr_h1Count := None;
     pr_canonical := None; pr_robotsMeta := None; pr_wordCount := None;
     pr_links := []; pr_imagesMissingAlt := 0; pr_error := Some "ETIMEDOUT";
     pr_html := None |}.

(** A site whose start page links to [/a]. *)
Definition linkingFetch (url : string) : PageResult :=
  {| pr_url := url; pr_statusCode := Some 200; pr_contentType := Some "text/html";
     pr_title := Some "Home"; pr_metaDescription := None; pr_h1Count := Some 1;
     pr_canonical := None; pr_robotsMeta := None; pr_wordCount := None;
     pr_links := if String.eqb url "https://a.test/" then ["https://a.test/a"] else [];
     pr_imagesMissingAlt := 0; pr_error := None; pr_html := None |}.

Definition seeded : BfsState := initialState "https://a.test/" emptyDb.

Definition afterFirstPass (fetch : string -> PageResult) : BfsState :=
  stateOf (bfsIteration (Lifecycle.urlEnv fetch) "run1" "a.test"
                        DEFAULT_CRAWL_SETTINGS seeded).

Lemma afterFirstPass_reachable fetch :
  reachable (Lifecycle.urlEnv fetch) "run1" "a.test" DEFAULT_CRAWL_SETTINGS
            seeded (afterFirstPass fetch).
Proof. apply reach_step, reach_init. Qed.

Lemma visited_marks_fetches_witness :
  visited seeded = ∅
  /\ NoDup (fetchLog (afterFirstPass linkingFetch))
  /\ (forall u, u ∈ visited (afterFirstPass linkingFetch)
                <-> u ∈ fetchLog (afterFirstPass linkingFetch)).
Proof.
  exact (visited_marks_fetches (Lifecycle.urlEnv linkingFetch) "run1" "a.test"
           DEFAULT_CRAWL_SETTINGS "https://a.test/" emptyDb
           (afterFirstPass linkingFetch) (afterFirstPass_reachable linkingFetch)).
Defined.

(** C3, as stated, fails: seeding leaves the visited set empty, and after
    the first pass the link [/a] is in the frontier and not in the visited
    set, which holds the start URL only. *)
Lemma visited_at_admission_fails :
  visited seeded = ∅
  /\ url <$> queue (afterFirstPass linkingFetch) = ["https://a.test/a"]
  /\ elements (visited (afterFirstPass linkingFetch)) = ["https://a.test/"].
Proof. split; [reflexivity | split; vm_compute; reflexivity]. Qed.

(** Modelled from the spec: the page fetcher of section 4.3. The source
    has a placeholder in its place ([fetchAndParsePage], crawl-runner.ts
    17-36), which answers 200 for every URL and never reports an error.
    The fetcher of the specification does: "Errors (DNS, connection,
    timeout, TLS, malformed response) produce a result with [error] set
    and [statusCode = null]". Here the start page answers 200 and links
    to [/a] and [/b]; the fetch of [/a] times out; [/b] answers 200. *)
Definition flakyFetch (url : string) : PageResult :=
  if String.eqb url "https://a.test/a" then failingFetch url
  else
    {| pr_url := url; pr_statusCode := Some 200; pr_contentType := Some "text/html";
       pr_title := Some "Home"; pr_metaDescription := None; pr_h1Count := Some 1;
       pr_canonical := None; pr_robotsMeta := None; pr_wordCount := None;
       pr_links := if String.eqb url "https://a.test/"
                   then ["https://a.test/a"; "https://a.test/b"] else [];
       pr_imagesMissingAlt := 0; pr_error := None; pr_html := None |}.

(** The loop on that site after its first pass, which fetched the start
    page, and after its second, which fetched [/a]. *)
Definition afterSecondPass (fetch : string -> PageResult) : BfsState :=
  stateOf (bfsIteration (Lifecycle.urlEnv fetch) "run1" "a.test"
                        DEFAULT_CRAWL_SETTINGS (afterFirstPass fetch)).


Example flaky_passes :
  url <$> queue (afterFirstPass flakyFetch) = ["https://a.test/a"; "https://a.test/b"]
  /\ fetchLog (afterFirstPass flakyFetch) = ["https://a.test/"]
  /\ url <$> queue (afterSecondPass flakyFetch) = ["https://a.test/b"]
  /\ fetchLog (afterSecondPass flakyFetch) = ["https://a.test/"; "https://a.test/a"]
  /\ page_normalizedUrl <$> pages (db (afterSecondPass flakyFetch)) = ["https://a.test/"].
Proof. repeat split; vm_compute; reflexivity. Qed.



End BfsExamples.

(** ** Run lifecycle *)

Section Terminal.
Import Store Runner Lifecycle.

Definition terminal (s : CrawlRunStatus) : Prop :=
  s = DONE \/ s = FAILED \/ s = CANCELED.

Definition projectA : Project :=
  {| project_id := "proj1"; project_domain := "a.test";
     project_startUrl := "https://a.test/"; project_settingsJson := JObj ∅ |}.

Definition runWith (status : CrawlRunStatus) : CrawlRun :=
  {| run_id := "run1"; run_projectId := "proj1"; run_status := status;
     run_createdAt := 1%nat; run_startedAt := Some 2%nat; run_finishedAt := Some 3%nat;
     run_totalsJson := JObj ∅ |}.

(** A store with one project and one run of it, in the given status. *)
Definition dbWithStatus (status : CrawlRunStatus) : DB :=
  {| projects := {[ "proj1" := projectA ]};
     crawlRuns := {[ "run1" := runWith status ]};
     pages := []; links := []; issues := []; templates := []; nextId := 0 |}.

Definition jobA : CrawlJobData := {| crawlRunId := "run1"; projectId := "proj1" |}.

(** *** What the crawl does to the run table *)

Lemma crawlRun_update_other id f d d' id' :
  crawlRun_update id f d = Some d' -> id' <> id ->
  crawlRuns d' !! id' = crawlRuns d !! id'.
Proof.
  unfold crawlRun_update. destruct (crawlRuns d !! id); [|discriminate].
  intros [= <-] Hne. simpl. by rewrite lookup_insert_ne.
Qed.

Lemma cleanUp_crawlRuns id d : crawlRuns (cleanUpExistingData id d) = crawlRuns d.
Proof. reflexivity. Qed.

Lemma applyUpdates_crawlRuns ups : forall d,
  crawlRuns (PostProcess.applyUpdates ups d) = crawlRuns d.
Proof.
  unfold PostProcess.applyUpdates.
  induction ups as [|u ups IH]; intros d; simpl; [done | by rewrite IH].
Qed.

Lemma postProcessCrawl_crawlRuns id d :
  crawlRuns (PostProcess.postProcessCrawl id d).2 = crawlRuns d.
Proof. rewrite postProcessCrawl_db. apply applyUpdates_crawlRuns. Qed.

Lemma generateGlobalIssues_crawlRuns id d :
  crawlRuns (GlobalIssues.generateGlobalIssues id d) = crawlRuns d.
Proof.
  unfold GlobalIssues.generateGlobalIssues, GlobalIssues.detectDuplicateTitles.
  destruct (filter _ _); [reflexivity|].
  destruct (_ ≫= _); reflexivity.
Qed.

Lemma persistIssues_crawlRuns id page result d :
  crawlRuns (persistIssues id page result d) = crawlRuns d.
Proof.
  unfold persistIssues. destruct (pr_statusCode result); [|reflexivity].
  destruct (Issues.evaluatePageIssues _ _); reflexivity.
Qed.

Lemma processPage_crawlRuns env id base settings u depth s :
  crawlRuns (db (processPage env id base settings u depth s)) = crawlRuns (db s).
Proof.
  unfold processPage. destruct (nonEmpty _); [reflexivity|].
  unfold page_create. case_bool_decide; [reflexivity|].
  simpl. by rewrite persistIssues_crawlRuns.
Qed.

Lemma bfsIteration_crawlRuns env id base settings s :
  crawlRuns (db (stateOf (bfsIteration env id base settings s))) = crawlRuns (db s).
Proof.
  destruct (bfsIteration_cases env id base settings s)
    as [(_ & Hd & _) | (u & dep & s1 & _ & _ & Hd & _ & ->)].
  - by rewrite Hd.
  - by rewrite processPage_crawlRuns, Hd.
Qed.

Lemma bfsLoop_crawlRuns env id base settings fuel s canceled s' :
  bfsLoop env id base settings fuel s = Some (canceled, s') ->
  crawlRuns (db s') = crawlRuns (db s).
Proof.
  intros H. apply bfsLoop_reachable in H.
  induction H; [reflexivity | by rewrite bfsIteration_crawlRuns].
Qed.

(** The run table after [runCrawl], whichever way it ends. *)
Definition outcomeRuns (o : Outcome) (before : gmap string CrawlRun)
    : gmap string CrawlRun :=
  match o with
  | Returned d | Threw _ d => crawlRuns d
  | OutOfFuel => before
  end.

Lemma postProcessing_other id d before id' :
  id' <> id -> outcomeRuns (postProcessing id d) before !! id' = crawlRuns d !! id'.
Proof.
  intros Hne. unfold postProcessing.
  pose proof (postProcessCrawl_crawlRuns id d) as Hpp.
  destruct (PostProcess.postProcessCrawl id d) as [totals d1]. simpl in Hpp.
  destruct (PostProcess.saveCrawlTotals id totals d1) as [d2|] eqn:Hsave; simpl;
    [|by rewrite Hpp].
  apply (crawlRun_update_other _ _ _ _ id') in Hsave; [|exact Hne].
  destruct (Summary.saveIssueSummary id _ _) as [d3|] eqn:Hsum; simpl.
  - apply (crawlRun_update_other _ _ _ _ id') in Hsum; [|exact Hne].
    by rewrite Hsum, generateGlobalIssues_crawlRuns, Hsave, Hpp.
  - by rewrite generateGlobalIssues_crawlRuns, Hsave, Hpp.
Qed.

Lemma runCrawl_other env fuel pid id d id' :
  id' <> id ->
  outcomeRuns (runCrawl env fuel pid id d) (crawlRuns d) !! id' = crawlRuns d !! id'.
Proof.
  intros Hne. unfold runCrawl.
  destruct (projects d !! pid) as [project|]; [|reflexivity].
  destruct (crawlRuns d !! id); [|reflexivity].
  destruct (normalizeUrl env _ _) as [start|]; [|reflexivity].
  destruct (String.eqb start ""); [reflexivity|].
  destruct (bfsLoop _ _ _ _ _ _) as [[[] s]|] eqn:Hloop; [| |reflexivity].
  - apply bfsLoop_crawlRuns in Hloop. simpl in *. by rewrite Hloop.
  - apply bfsLoop_crawlRuns in Hloop. simpl in Hloop.
    rewrite postProcessing_other by done. by rewrite Hloop.
Qed.

(** With enough passes allowed, [runCrawl] ends by returning or throwing. *)
Lemma runCrawl_ends env pid id d :
  exists fuel, runCrawl env fuel pid id d <> OutOfFuel.
Proof.
  unfold runCrawl.
  destruct (projects d !! pid) as [project|]; [|by exists 0%nat].
  destruct (crawlRuns d !! id); [|by exists 0%nat].
  destruct (normalizeUrl env _ _) as [start|]; [|by exists 0%nat].
  destruct (String.eqb start ""); [by exists 0%nat|].
  destruct (bfsLoop_terminates env id (project_domain project)
              (buildCrawlSettings (project_settingsJson project))
              (initialState start (cleanUpExistingData id d)))
    as (fuel & canceled & s' & Hloop).
  exists fuel. rewrite Hloop. destruct canceled; [discriminate|].
  unfold postProcessing.
  destruct (PostProcess.postProcessCrawl id (db s')) as [totals d1].
  destruct (PostProcess.saveCrawlTotals id totals d1); [|discriminate].
  destruct (Summary.saveIssueSummary id _ _); discriminate.
Qed.

(** *** The two operations *)

(** The run table after [processJob], whichever way it ends. *)
Definition jobRuns (r : JobResult) (before : gmap string CrawlRun)
    : gmap string CrawlRun :=
  match r with
  | Resolved d | Rejected _ d => crawlRuns d
  | Unfinished => before
  end.

Lemma onError_other t id message d before id' :
  id' <> id -> jobRuns (onError t id message d) before !! id' = crawlRuns d !! id'.
Proof.
  intros Hne. unfold onError.
  destruct (crawlRun_update id _ d) as [d'|] eqn:Hup; simpl; [|reflexivity].
  by apply (crawlRun_update_other _ _ _ _ id') in Hup.
Qed.

Lemma processJob_other env fuel t0 t1 job d id' :
  id' <> crawlRunId job ->
  jobRuns (processJob env fuel t0 t1 job d) (crawlRuns d) !! id' = crawlRuns d !! id'.
Proof.
  intros Hne. unfold processJob.
  destruct (crawlRuns d !! crawlRunId job) as [run|]; [|reflexivity].
  case_bool_decide; [reflexivity|].
  destruct (crawlRun_update (crawlRunId job) (markRunning t0) d) as [d1|] eqn:Hup;
    [|reflexivity].
  apply (crawlRun_update_other _ _ _ _ id') in Hup; [|exact Hne].
  pose proof (runCrawl_other env fuel (projectId job) (crawlRunId job) d1 id' Hne) as Hrun.
  destruct (runCrawl env fuel (projectId job) (crawlRunId job) d1) as [d2|msg d2|];
    simpl in Hrun; [| |reflexivity].
  - destruct (crawlRuns d2 !! crawlRunId job) as [updated|].
    + case_bool_decide; [simpl; by rewrite Hrun|].
      destruct (crawlRun_update (crawlRunId job) (markDone t1) d2) as [d3|] eqn:Hdone.
      * simpl. apply (crawlRun_update_other _ _ _ _ id') in Hdone; [|exact Hne].
        by rewrite Hdone, Hrun.
      * rewrite onError_other by done. by rewrite Hrun.
    + rewrite onError_other by done. by rewrite Hrun.
  - rewrite onError_other by done. by rewrite Hrun.
Qed.

Lemma latestActive_lookup projectId d k run :
  latestActive projectId d = Some (k, run) ->
  crawlRuns d !! k = Some run /\ isActive (run_status run) = true.
Proof.
  unfold latestActive. intros H.
  enough (Hgen : forall l best,
             (forall kv, best = Some kv ->
                         crawlRuns d !! kv.1 = Some kv.2 /\ isActive (run_status kv.2) = true) ->
             (forall kv, kv ∈ l -> crawlRuns d !! kv.1 = Some kv.2) ->
             forall kv,
               foldr (fun kv best =>
                        let run := kv.2 in
                        if String.eqb (run_projectId run) projectId
                           && isActive (run_status run)
                        then match best with
                             | Some b => if (run_createdAt b.2 <? run_createdAt run)%nat
                                         then Some kv else Some b
                             | None => Some kv
                             end
                        else best) best l = Some kv ->
               crawlRuns d !! kv.1 = Some kv.2 /\ isActive (run_status kv.2) = true).
  { assert (H1 : forall kv : string * CrawlRun, None = Some kv ->
                   crawlRuns d !! kv.1 = Some kv.2 /\ isActive (run_status kv.2) = true)
      by discriminate.
    assert (H2 : forall kv, kv ∈ map_to_list (crawlRuns d) -> crawlRuns d !! kv.1 = Some kv.2).
    { intros [k' r'] Hin. by apply elem_of_map_to_list in Hin. }
    exact (Hgen _ None H1 H2 (k, run) H). }
  induction l as [|x l IH]; intros best Hbest Hl kv Hkv; simpl in Hkv.
  - by apply Hbest.
  - assert (Hl' : forall kv, kv ∈ l -> crawlRuns d !! kv.1 = Some kv.2)
      by (intros ? ?; apply Hl; by right).
    destruct (String.eqb _ _ && isActive (run_status x.2)) eqn:Hact.
    + apply andb_true_iff in Hact as [_ Hact].
      destruct (foldr _ best l) as [b|] eqn:Hfold.
      * destruct (_ <? _)%nat.
        -- injection Hkv as <-. split; [apply Hl; by left | exact Hact].
        -- injection Hkv as <-. by apply (IH best).
      * injection Hkv as <-. split; [apply Hl; by left | exact Hact].
    + by apply (IH best).
Qed.

Lemma findRunToCancel_lookup projectId crawlRunId d k run :
  findRunToCancel projectId crawlRunId d = inr (k, run) -> crawlRuns d !! k = Some run.
Proof.
  unfold findRunToCancel. intros H.
  destruct crawlRunId as [id|].
  - destruct (String.eqb id "").
    + destruct (latestActive projectId d) as [[k' r']|] eqn:Hl; [|discriminate].
      injection H as -> ->. by apply latestActive_lookup in Hl as [? _].
    + destruct (crawlRuns d !! id) as [r'|] eqn:Hr; [|discriminate].
      destruct (negb _); [discriminate|]. by injection H as <- <-.
  - destruct (latestActive projectId d) as [[k' r']|] eqn:Hl; [|discriminate].
    injection H as -> ->. by apply latestActive_lookup in Hl as [? _].
Qed.

Lemma cancel_keeps_terminal role t projectId crawlRunId d d' id run :
  cancel role t projectId crawlRunId d = inr d' ->
  crawlRuns d !! id = Some run -> terminal (run_status run) ->
  crawlRuns d' !! id = Some run.
Proof.
  unfold cancel. intros H Hrun Hterm.
  destruct (projects d !! projectId); [|discriminate].
  destruct role as [[]|]; try discriminate.
  all: destruct (findRunToCancel projectId crawlRunId d) as [e|[k found]] eqn:Hfind;
    [discriminate|].
  all: apply findRunToCancel_lookup in Hfind.
  all: destruct (bool_decide (run_status found = DONE)
                 || bool_decide (run_status found = FAILED)
                 || bool_decide (run_status found = CANCELED)) eqn:Hst;
    [discriminate|].
  all: destruct (crawlRun_update k (markCanceled t) d) as [d1|] eqn:Hup; [|discriminate].
  all: injection H as <-.
  all: rewrite (crawlRun_update_other _ _ _ _ id Hup); [exact Hrun|].
  all: intros ->; rewrite Hrun in Hfind; injection Hfind as <-.
  all: apply orb_false_iff in Hst as [Hst Hc]; apply orb_false_iff in Hst as [Hd Hf].
  all: apply bool_decide_eq_false in Hd, Hf, Hc.
  all: destruct Hterm as [? | [? | ?]]; done.
Qed.

(** With enough passes allowed, [processJob] resolves or rejects. *)
Lemma processJob_ends env t0 t1 job d :
  exists fuel, processJob env fuel t0 t1 job d <> Unfinished.
Proof.
  unfold processJob.
  destruct (crawlRuns d !! crawlRunId job) as [run|]; [|by exists 0%nat].
  case_bool_decide; [by exists 0%nat|].
  destruct (crawlRun_update (crawlRunId job) (markRunning t0) d) as [d1|];
    [|by exists 0%nat].
  destruct (runCrawl_ends env (projectId job) (crawlRunId job) d1) as [fuel Hfuel].
  exists fuel.
  destruct (runCrawl env fuel (projectId job) (crawlRunId job) d1) as [d2|msg d2|];
    [| |done].
  - destruct (crawlRuns d2 !! crawlRunId job) as [updated|].
    + case_bool_decide; [discriminate|].
      destruct (crawlRun_update _ (markDone t1) d2); [discriminate|].
      unfold onError. destruct (crawlRun_update _ _ d2); discriminate.
    + unfold onError. destruct (crawlRun_update _ _ d2); discriminate.
  - unfold onError. destruct (crawlRun_update _ _ d2); discriminate.
Qed.

(** C8 (as amended). [cancel] never changes a run that is DONE, FAILED or
    CANCELED; [processJob] changes no run but the one of its job; and a
    job delivered for a run that is CANCELED is acknowledged with the
    store as it was. *)
Theorem terminal_runs_kept :
  (forall role t projectId crawlRunId d d' id run,
      cancel role t projectId crawlRunId d = inr d' ->
      crawlRuns d !! id = Some run -> terminal (run_status run) ->
      crawlRuns d' !! id = Some run)
  /\ (forall env fuel t0 t1 job d id',
        id' <> Lifecycle.crawlRunId job ->
        jobRuns (processJob env fuel t0 t1 job d) (crawlRuns d) !! id' = crawlRuns d !! id')
  /\ (forall env fuel t0 t1 job d run,
        crawlRuns d !! Lifecycle.crawlRunId job = Some run ->
        run_status run = CANCELED ->
        processJob env fuel t0 t1 job d = Resolved d).
Proof.
  split; [|split].
  - intros. by eapply cancel_keeps_terminal.
  - intros. by apply processJob_other.
  - intros env fuel t0 t1 job d run Hrun Hst. unfold processJob.
    rewrite Hrun. by rewrite bool_decide_eq_true_2.
Qed.

(** The theorem at a canceled run: the job is acknowledged, and a cancel
    of the run is refused. *)
Lemma terminal_runs_kept_witness :
  processJob (urlEnv placeholderFetch) 10 5 6 jobA (dbWithStatus CANCELED)
  = Resolved (dbWithStatus CANCELED)
  /\ cancel (Some ADMIN) 7 "proj1" (Some "run1") (dbWithStatus CANCELED)
     = inl (BadRequestException "Cannot cancel a crawl run with status CANCELED").
Proof.
  split.
  - exact (proj2 (proj2 terminal_runs_kept) (urlEnv placeholderFetch) 10%nat 5%nat 6%nat
             jobA (dbWithStatus CANCELED) (runWith CANCELED) eq_refl eq_refl).
  - reflexivity.
Defined.

(** C8, as stated, fails: a job delivered again for a run that is FAILED
    (the queue retries a rejected job) runs the crawl again, and the run
    ends DONE. *)
Lemma failed_run_runs_again :
  exists d,
    processJob (urlEnv placeholderFetch) 10 5 6 jobA (dbWithStatus FAILED) = Resolved d
    /\ run_status <$> crawlRuns (dbWithStatus FAILED) !! "run1" = Some FAILED
    /\ run_status <$> crawlRuns d !! "run1" = Some DONE.
Proof.
  eexists. split; [vm_compute; reflexivity|]. split; reflexivity.
Qed.

(** A first delivery on a two-page site: both pages are fetched in
    admission order, the run ends DONE, and the issues include the shared
    title. *)
Example crawl_two_pages :
  exists d,
    processJob (urlEnv linkingFetch) 10 5 6 jobA (dbWithStatus QUEUED) = Resolved d
    /\ page_normalizedUrl <$> pages d = ["https://a.test/"; "https://a.test/a"]
    /\ run_status <$> crawlRuns d !! "run1" = Some DONE
    /\ issue_type <$> issues d
       = ["TITLE_TOO_SHORT"; "MISSING_META_DESCRIPTION"; "CANONICAL_MISSING";
          "TITLE_TOO_SHORT"; "MISSING_META_DESCRIPTION"; "CANONICAL_MISSING";
          "DUPLICATE_TITLE"; "DUPLICATE_TITLE"].
Proof.
  eexists. split; [vm_compute; reflexivity|]. repeat split.
Qed.

End Terminal.

(** ** The wipe at the start of a job *)

Section JobWipe.
Import Store Runner Lifecycle.

Lemma clearIssuePage_nil i : clearIssuePage [] i = i.
Proof.
  destruct i as [? ? pid ? ? ? ? ? ?]. unfold clearIssuePage. cbn.
  destruct pid; reflexivity.
Qed.

Lemma clearFromPage_nil l : clearFromPage [] l = l.
Proof.
  destruct l as [? ? pid ? ? ? ? ?]. unfold clearFromPage. cbn.
  destruct pid; reflexivity.
Qed.

Lemma filter_all {A} (P : A -> Prop) `{!forall x, Decision (P x)} (l : list A) :
  Forall P l -> filter P l = l.
Proof.
  induction 1 as [|x l Hx _ IH]; [reflexivity|].
  by rewrite filter_cons, decide_True, IH.
Qed.

Lemma filter_none {A} (P : A -> Prop) `{!forall x, Decision (P x)} (l : list A) :
  Forall (fun x => ~ P x) l -> filter P l = [].
Proof.
  induction 1 as [|x l Hx _ IH]; [reflexivity|].
  by rewrite filter_cons, decide_False, IH.
Qed.

Lemma DB_ext (a b : DB) :
  projects a = projects b -> crawlRuns a = crawlRuns b -> pages a = pages b ->
  links a = links b -> issues a = issues b -> templates a = templates b ->
  nextId a = nextId b -> a = b.
Proof. destruct a, b. simpl. by intros -> -> -> -> -> -> ->. Qed.

Lemma cleanUp_pages id d :
  pages (cleanUpExistingData id d) = filter (fun p => page_crawlRunId p <> id) (pages d).
Proof. reflexivity. Qed.

Lemma cleanUp_gone id d :
  filter (fun p => page_crawlRunId p = id) (pages (cleanUpExistingData id d)) = [].
Proof.
  rewrite cleanUp_pages. apply filter_none, Forall_forall. intros p Hp.
  apply list_elem_of_filter in Hp as [Hne _]. exact Hne.
Qed.

Lemma page_deleteMany_none id d :
  filter (fun p => page_crawlRunId p = id) (pages d) = [] ->
  page_deleteMany id d = d.
Proof.
  intros Hgone. unfold page_deleteMany. rewrite Hgone.
  apply DB_ext; try reflexivity.
  - simpl. apply filter_all, Forall_forall. intros p Hp Heq.
    assert (Hin : p ∈ filter (fun p => page_crawlRunId p = id) (pages d))
      by (by apply list_elem_of_filter).
    rewrite Hgone in Hin. by apply elem_of_nil in Hin.
  - simpl. rewrite (list_fmap_ext _ (fun x => x)) by (intros; apply clearFromPage_nil).
    apply list_fmap_id.
  - simpl. rewrite (list_fmap_ext _ (fun x => x)) by (intros; apply clearIssuePage_nil).
    apply list_fmap_id.
Qed.

(** Wiping a wiped store changes nothing. *)
Lemma cleanUp_idempotent id d :
  cleanUpExistingData id (cleanUpExistingData id d) = cleanUpExistingData id d.
Proof.
  destruct (cleanUp_children id d) as (Hi & Hl & Hp & _).
  cbv zeta in Hi, Hl, Hp.
  set (d0 := cleanUpExistingData id d) in *.
  unfold cleanUpExistingData at 1.
  assert (H1 : issue_deleteMany id d0 = d0).
  { apply DB_ext; try reflexivity. simpl.
    apply filter_all, Forall_forall. exact Hi. }
  assert (H2 : link_deleteMany id d0 = d0).
  { apply DB_ext; try reflexivity. simpl.
    apply filter_all, Forall_forall. exact Hl. }
  rewrite H1, H2. apply page_deleteMany_none. apply cleanUp_gone.
Qed.

Lemma cleanUp_setCrawlRuns g id d :
  cleanUpExistingData id (setCrawlRuns g d) = setCrawlRuns g (cleanUpExistingData id d).
Proof. reflexivity. Qed.

(** The store a crawl begins on: the run's row marked RUNNING, and the
    Issue, Link and Page tables without the rows of the run. *)
Definition wipedForJob (t0 : nat) (job : CrawlJobData) (crawlRun : CrawlRun) (d : DB)
    : DB :=
  cleanUpExistingData (crawlRunId job)
    (setCrawlRuns (insert (crawlRunId job) (markRunning t0 crawlRun)) d).

(** What [runCrawl] goes on to do once the store is wiped: the loop from
    its initial state, whose fetch log is empty, and post-processing. *)
Definition crawlFromWiped (env : Env) (fuel : nat) (id : string) (project : Project)
    (d0 : DB) : Outcome :=
  let settings := buildCrawlSettings (project_settingsJson project) in
  match normalizeUrl env (project_startUrl project) (ignoreParams settings) with
  | Some normalizedStart =>
      if String.eqb normalizedStart ""
      then Threw ("Invalid start URL: " +:+ project_startUrl project) d0
      else
        match bfsLoop env id (project_domain project) settings fuel
                      (initialState normalizedStart d0) with
        | None => OutOfFuel
        | Some (true, s) => Returned (db s)
        | Some (false, s) => postProcessing id (db s)
        end
  | None => Threw ("Invalid start URL: " +:+ project_startUrl project) d0
  end.

Lemma runCrawl_wipes_first env fuel pid id d project run :
  projects d !! pid = Some project -> crawlRuns d !! id = Some run ->
  runCrawl env fuel pid id d = crawlFromWiped env fuel id project (cleanUpExistingData id d).
Proof. intros Hp Hr. unfold runCrawl, crawlFromWiped. by rewrite Hp, Hr. Qed.

(** C4 (as amended). For a job whose run exists and is not CANCELED and
    whose project exists, [processJob] marks the run RUNNING and
    [runCrawl] then deletes every Issue, Link and Page row of the run
    before anything else: the loop, and with it the first fetch, starts on
    a store with no such row (the Page rows of other runs, the Template
    table and the projects are as they were), and the job ends as it would
    on a store that never had such rows. A job whose run is CANCELED, or whose
    project does not exist, ends before the wipe and deletes nothing. *)
Theorem job_wipes_children_first env fuel t0 t1 job d :
  (forall project crawlRun,
      projects d !! projectId job = Some project ->
      crawlRuns d !! crawlRunId job = Some crawlRun ->
      run_status crawlRun <> CANCELED ->
      let id := crawlRunId job in
      let d0 := wipedForJob t0 job crawlRun d in
      (* no child row of the run is left *)
      (forall i, i ∈ issues d0 -> issue_crawlRunId i <> id)
      /\ (forall l, l ∈ links d0 -> link_crawlRunId l <> id)
      /\ (forall p, p ∈ pages d0 -> page_crawlRunId p <> id)
      (* the rest is kept *)
      /\ (forall p, page_crawlRunId p <> id -> p ∈ pages d0 <-> p ∈ pages d)
      /\ templates d0 = templates d
      /\ projects d0 = projects d
      (* the crawl starts there, before any fetch *)
      /\ (forall normalizedStart,
            db (initialState normalizedStart d0) = d0
            /\ fetchLog (initialState normalizedStart d0) = [])
      /\ processJob env fuel t0 t1 job d
         = match crawlFromWiped env fuel id project d0 with
           | OutOfFuel => Unfinished
           | Threw message d' => onError t1 id message d'
           | Returned d' =>
               match crawlRuns d' !! id with
               | Some updatedCrawlRun =>
                   if bool_decide (run_status updatedCrawlRun = CANCELED)
                   then Resolved d'
                   else match crawlRun_update id (markDone t1) d' with
                        | Some d'' => Resolved d''
                        | None => onError t1 id "Record to update not found." d'
                        end
               | None => onError t1 id "Record to update not found." d'
               end
           end
      (* what an earlier delivery left does not show *)
      /\ processJob env fuel t0 t1 job d
         = processJob env fuel t0 t1 job (cleanUpExistingData id d))
  /\ (forall crawlRun,
        crawlRuns d !! crawlRunId job = Some crawlRun ->
        run_status crawlRun = CANCELED ->
        processJob env fuel t0 t1 job d = Resolved d)
  /\ (forall crawlRun,
        crawlRuns d !! crawlRunId job = Some crawlRun ->
        run_status crawlRun <> CANCELED ->
        projects d !! projectId job = None ->
        exists d', processJob env fuel t0 t1 job d
                   = Rejected ("Project " +:+ projectId job +:+ " not found") d'
                   /\ issues d' = issues d /\ links d' = links d /\ pages d' = pages d
                   /\ templates d' = templates d).
Proof.
  split; [|split].
  - intros project crawlRun Hproject Hrun Hlive. cbv zeta. unfold wipedForJob.
    set (jid := crawlRunId job) in *.
    destruct (cleanUp_children jid
                (setCrawlRuns (insert jid (markRunning t0 crawlRun)) d))
      as (Hi & Hl & Hp & Hkeep & Ht & _).
    split; [exact Hi|]. split; [exact Hl|]. split; [exact Hp|].
    split; [exact Hkeep|]. split; [exact Ht|]. split; [reflexivity|].
    split; [done|].
    assert (Hjob : forall d1, projects d1 = projects d -> crawlRuns d1 = crawlRuns d ->
              processJob env fuel t0 t1 job d1
              = match crawlFromWiped env fuel jid project
                        (cleanUpExistingData jid
                           (setCrawlRuns (insert jid (markRunning t0 crawlRun)) d1)) with
                | OutOfFuel => Unfinished
                | Threw message d' => onError t1 jid message d'
                | Returned d' =>
                    match crawlRuns d' !! jid with
                    | Some updatedCrawlRun =>
                        if bool_decide (run_status updatedCrawlRun = CANCELED)
                        then Resolved d'
                        else match crawlRun_update jid (markDone t1) d' with
                             | Some d'' => Resolved d''
                             | None => onError t1 jid "Record to update not found." d'
                             end
                    | None => onError t1 jid "Record to update not found." d'
                    end
                end).
    { intros d1 Hps Hrs. unfold processJob. fold jid. rewrite Hrs, Hrun.
      rewrite bool_decide_eq_false_2 by done.
      unfold crawlRun_update at 1. rewrite Hrs, Hrun.
      rewrite (runCrawl_wipes_first env fuel (projectId job) jid _ project
                 (markRunning t0 crawlRun)).
      - reflexivity.
      - cbn. by rewrite Hps.
      - cbn. rewrite Hrs. apply lookup_insert_eq. }
    split; [by apply Hjob|].
    rewrite (Hjob d eq_refl eq_refl).
    rewrite (Hjob (cleanUpExistingData jid d)); [|reflexivity | apply cleanUp_crawlRuns].
    by rewrite !cleanUp_setCrawlRuns, cleanUp_idempotent.
  - intros crawlRun Hrun Hcanceled. unfold processJob. rewrite Hrun.
    by rewrite bool_decide_eq_true_2.
  - intros crawlRun Hrun Hlive Hnone. unfold processJob. rewrite Hrun.
    rewrite bool_decide_eq_false_2 by done.
    unfold crawlRun_update at 1. rewrite Hrun.
    unfold runCrawl. cbn [projects setCrawlRuns]. rewrite Hnone.
    unfold onError, crawlRun_update. cbn [crawlRuns setCrawlRuns].
    rewrite lookup_insert_eq. eexists. split; [reflexivity|]. done.
Qed.


(** An issue of the 404 page of Scenario B. *)
Definition issueRow : Issue :=
  {| issue_id := "i1"; issue_crawlRunId := "run1"; issue_pageId := Some "p2";
     issue_type := "STATUS_4XX_5XX"; issue_severity := Issues.CRITICAL;
     issue_title := "Page returns an error status";
     issue_description := ""; issue_recommendation := "";
     issue_evidenceJson := JObj {["statusCode" := JNum 404]} |}.

(** The store a re-delivered job finds: its project and its run, and the
    pages, links, issue and template that an earlier execution of the job
    left (Scenario B). *)
Definition dbRedelivered (status : CrawlRunStatus) : DB :=
  {| projects := {[ "proj1" := projectA ]};
     crawlRuns := {[ "run1" := runWith status ]};
     pages := pages dbScenarioB; links := links dbScenarioB;
     issues := [issueRow]; templates := [templateRow]; nextId := 10 |}.

Definition noProjectJob : CrawlJobData := {| crawlRunId := "run1"; projectId := "gone" |}.

(** The job on that store, with the fetcher of the source: the two pages,
    the three links and the issue of the earlier execution are gone, the
    start page is fetched and stored with the issues of its own, and the
    template is still there. *)
Definition redeliveredResult : JobResult :=
  Eval vm_compute in
    processJob (urlEnv placeholderFetch) 10 5 6 jobA (dbRedelivered RUNNING).

Lemma redeliveredResult_eq :
  processJob (urlEnv placeholderFetch) 10 5 6 jobA (dbRedelivered RUNNING)
  = redeliveredResult.
Proof. vm_compute. reflexivity. Qed.

Definition resultStore (r : JobResult) : DB :=
  match r with Resolved d | Rejected _ d => d | Unfinished => emptyDb end.

Example redelivered_job :
  redeliveredResult = Resolved (resultStore redeliveredResult)
  /\ page_id <$> pages (resultStore redeliveredResult) = ["page_10"]
  /\ links (resultStore redeliveredResult) = []
  /\ issue_pageId <$> issues (resultStore redeliveredResult)
     = [Some "page_10"; Some "page_10"; Some "page_10"; Some "page_10"]
  /\ templates (resultStore redeliveredResult) = [templateRow].
Proof. repeat split; vm_compute; reflexivity. Qed.

Lemma job_wipes_children_first_witness :
  let d := dbRedelivered RUNNING in
  let d0 := wipedForJob 5 jobA (runWith RUNNING) d in
  (List.length (pages d) = 2%nat /\ List.length (links d) = 3%nat
   /\ List.length (issues d) = 1%nat)
  /\ (forall i, i ∈ issues d0 -> issue_crawlRunId i <> "run1")
  /\ (forall l, l ∈ links d0 -> link_crawlRunId l <> "run1")
  /\ (forall p, p ∈ pages d0 -> page_crawlRunId p <> "run1")
  /\ templates d0 = [templateRow]
  /\ processJob (urlEnv placeholderFetch) 10 5 6 jobA d
     = processJob (urlEnv placeholderFetch) 10 5 6 jobA (cleanUpExistingData "run1" d).
Proof.
  cbv zeta. split; [repeat split|].
  destruct (proj1 (job_wipes_children_first (urlEnv placeholderFetch) 10 5 6 jobA
                     (dbRedelivered RUNNING))
              projectA (runWith RUNNING) eq_refl eq_refl)
    as (Hi & Hl & Hp & _ & Ht & _ & _ & _ & Hsame); [discriminate|].
  split; [exact Hi|]. split; [exact Hl|]. split; [exact Hp|].
  split; [exact Ht | exact Hsame].
Defined.

(** C4, as stated, fails. For templates: a Template row of the run is
    still there after the wipe, and after the whole job. And for a job
    that ends before the wipe, because its run is CANCELED or its project
    is missing: the Page rows of the run are all still there. *)
Lemma cleanUp_keeps_templates :
  (templateRow ∈ templates (cleanUpExistingData "run1" dbWithTemplate)
   /\ template_crawlRunId templateRow = "run1")
  /\ (exists d', processJob (urlEnv placeholderFetch) 10 5 6 jobA (dbRedelivered RUNNING)
                 = Resolved d'
                 /\ templateRow ∈ templates d')
  /\ (processJob (urlEnv placeholderFetch) 10 5 6 jobA (dbRedelivered CANCELED)
      = Resolved (dbRedelivered CANCELED)
      /\ List.length (pagesOf "run1" (dbRedelivered CANCELED)) = 2%nat)
  /\ (exists d', processJob (urlEnv placeholderFetch) 10 5 6 noProjectJob
                            (dbRedelivered RUNNING)
                 = Rejected "Project gone not found" d'
                 /\ List.length (pagesOf "run1" d') = 2%nat).
Proof.
  split; [split; [left | reflexivity]|].
  split.
  { exists (resultStore redeliveredResult). split; [exact redeliveredResult_eq|].
    vm_compute. left. }
  split; [split; vm_compute; reflexivity|].
  eexists. split; [vm_compute; reflexivity|]. vm_compute. reflexivity.
Qed.

End JobWipe.

(** ** URL normalisation *)

Section Normalisation.
Import Url.

Variable localeCompare : string -> string -> Z.

(** A path with one trailing slash and no query loses the slash. *)
Example trailing_slash_stripped :
  normalizeUrl localeCompare "https://a.test/x/" [] = Some "https://a.test/x".
Proof. vm_compute. reflexivity. Qed.

(** Fragment, ignored parameter, default port, host case and the order of
    the query keys do not show in the result (Scenario E). *)
Example query_normalised :
  normalizeUrl Url.codeUnitCompare "HTTPS://A.Test:443/x?b=2&a=1&utm_source=x#top"
               [JStr "utm_source"]
  = normalizeUrl Url.codeUnitCompare "https://a.test/x?a=1&b=2" [JStr "utm_source"].
Proof. vm_compute. reflexivity. Qed.

(** C6. [normalizeUrl] is not idempotent: of a path that ends in two
    slashes it strips one, and normalising the result strips the other. *)
Theorem normalizeUrl_twice_differs :
  normalizeUrl localeCompare "https://a.test/x//" [] = Some "https://a.test/x/"
  /\ normalizeUrl localeCompare "https://a.test/x/" [] = Some "https://a.test/x"
  /\ "https://a.test/x/" <> "https://a.test/x".
Proof. repeat split; try (vm_compute; reflexivity). discriminate. Qed.

(** C7. With a query string the trailing slash of the path stays: the
    test for the slash looks at the end of the whole URL. Two URLs that
    differ only in that slash keep differing. *)
Theorem trailing_slash_kept_before_query :
  normalizeUrl localeCompare "https://a.test/x/?a=1" [] = Some "https://a.test/x/?a=1"
  /\ normalizeUrl localeCompare "https://a.test/x?a=1" [] = Some "https://a.test/x?a=1"
  /\ "https://a.test/x/?a=1" <> "https://a.test/x?a=1".
Proof. repeat split; try (vm_compute; reflexivity). discriminate. Qed.

End Normalisation.


(* ===================================================================== *)
(** * Further properties *)
(* ===================================================================== *)

(** ** The BFS loop: bounds *)

Section BfsBounds.
Import Store Runner.

Variable env : Env.
Variable crawlRunId : string.
Variable baseDomain : string.
Variable settings : CrawlSettings.

(** The visited set never outgrows the page limit. The limit is any
    number; the size is a whole one, so it stops at the limit rounded up. *)
Definition capInv (s : BfsState) : Prop :=
  Z.of_nat (size (visited s)) <= Z.max 0 (Qceiling (maxPages settings)).

Lemma capInv_step s : capInv s ->
  capInv (stateOf (bfsIteration env crawlRunId baseDomain settings s)).
Proof.
  unfold capInv, bfsIteration. intros Hcap.
  destruct (queue s) as [|item rest]; [exact Hcap|].
  destruct (_ && _); [exact Hcap|].
  rewrite geq_ceiling.
  match goal with
  | |- context [?a >=? Qceiling (maxPages settings)] =>
      destruct (Z.geb_spec a (Qceiling (maxPages settings))) as [|Hlt]; [exact Hcap|]
  end.
  cbn [visited withCounter] in Hlt.
  destruct (Js.gt (depth item) (maxDepth settings)); [exact Hcap|].
  destruct (normalizeUrl env (url item) (ignoreParams settings)) as [u|]; [|exact Hcap].
  destruct (String.eqb u ""); [exact Hcap|].
  case_bool_decide as Hin; [exact Hcap|].
  cbn [stateOf]. rewrite (proj2 (processPage_log _ _ _ _ _ _ _)).
  cbn [visited markVisited withQueue withCounter] in *.
  rewrite size_union by set_solver. rewrite size_singleton. lia.
Qed.

Lemma capInv_reachable s0 s :
  capInv s0 -> reachable env crawlRunId baseDomain settings s0 s -> capInv s.
Proof. intros H0 Hr. induction Hr; [exact H0 | by apply capInv_step]. Qed.

Lemma fetchLog_length s :
  visitInv s -> List.length (fetchLog s) = size (visited s).
Proof.
  intros [Hnd Hvis]. unfold size, set_size. simpl.
  apply Permutation_length, NoDup_Permutation; [exact Hnd | apply NoDup_elements |].
  intros u. rewrite elem_of_elements. apply Hvis.
Qed.

(** X1. The page limit holds, for whatever number the settings give as
    [maxPages]: at every state of the loop, started as [runCrawl] starts
    it, the number of URLs fetched so far and the number of Page rows of
    the run are both at most [maxPages] rounded up to a whole number (one
    page for a limit of 0.5; none at all when [maxPages] is zero or
    negative). *)
Theorem maxPages_caps_fetches normalizedStart d s
    (Hreach : reachable env crawlRunId baseDomain settings
                (initialState normalizedStart (cleanUpExistingData crawlRunId d)) s) :
  Z.of_nat (List.length (pagesOf crawlRunId (db s))) <= Z.of_nat (List.length (fetchLog s))
  /\ Z.of_nat (List.length (fetchLog s)) <= Z.max 0 (Qceiling (maxPages settings)).
Proof.
  set (s0 := initialState normalizedStart (cleanUpExistingData crawlRunId d)) in *.
  assert (Hv : visitInv s)
    by (eapply visitInv_reachable; [apply visitInv_initial | exact Hreach]).
  assert (Hp : pagesInv env crawlRunId s).
  { eapply pagesInv_reachable; [apply visitInv_initial | | exact Hreach].
    unfold pagesInv. cbn [db initialState fetchLog s0]. by rewrite cleanUp_no_pages. }
  assert (Hc : capInv s).
  { eapply capInv_reachable; [|exact Hreach].
    unfold capInv. cbn [visited initialState s0]. rewrite size_empty. apply Z.le_max_l. }
  split.
  - rewrite <- (length_fmap (pageKey) (pagesOf crawlRunId (db s))), Hp, length_fmap.
    apply inj_le, length_filter.
  - rewrite (fetchLog_length s Hv). exact Hc.
Qed.

(** [page.create] is rejected only by a Page row of the same run with the
    same normalized URL. *)
Lemma page_create_accepts mk d :
  (forall p, p ∈ pages d -> page_crawlRunId p = page_crawlRunId (mk (freshId "page_" (nextId d))) ->
             page_normalizedUrl p <> page_normalizedUrl (mk (freshId "page_" (nextId d)))) ->
  page_create mk d
  = Some (mk (freshId "page_" (nextId d)),
          bumpId 1 (setPages (fun ps => (ps ++ [mk (freshId "page_" (nextId d))])%list) d)).
Proof.
  intros Hfree. unfold page_create. rewrite bool_decide_eq_false_2; [reflexivity|].
  rewrite Exists_exists. intros (p & Hp & Hrun & Hurl). by apply (Hfree p).
Qed.

(** X2. The unique index of Page is never hit. At every state of the
    loop, started as [runCrawl] starts it: the Page rows of the run have
    pairwise distinct normalized URLs, none of them a URL that is not
    visited yet; so the [page.create] of a pass, which is for a URL the
    pass has just marked visited, is not rejected, whatever the fetch
    returned; and a pass that fetches a URL and gets no error leaves the
    Page table with that one row more. *)
Theorem page_create_never_rejected normalizedStart d s
    (Hreach : reachable env crawlRunId baseDomain settings
                (initialState normalizedStart (cleanUpExistingData crawlRunId d)) s) :
  NoDup (page_normalizedUrl <$> pagesOf crawlRunId (db s))
  /\ (forall p, p ∈ pagesOf crawlRunId (db s) -> page_normalizedUrl p ∈ visited s)
  /\ (forall u result sig, u ∉ visited s ->
        is_Some (page_create (pageOfResult crawlRunId u result sig) (db s)))
  /\ (forall u,
        fetchLog (stateOf (bfsIteration env crawlRunId baseDomain settings s))
        = (fetchLog s ++ [u])%list ->
        ~ fetchFailed env u ->
        pages (db (stateOf (bfsIteration env crawlRunId baseDomain settings s)))
        = (pages (db s)
             ++ [pageOfResult crawlRunId u (fetchAndParsePage env u)
                   (computePageTemplateSignature env (fetchAndParsePage env u))
                   (freshId "page_" (nextId (db s)))])%list).
Proof.
  assert (Hv : visitInv s)
    by (eapply visitInv_reachable; [apply visitInv_initial | exact Hreach]).
  assert (Hp : pagesInv env crawlRunId s).
  { eapply pagesInv_reachable; [apply visitInv_initial | | exact Hreach].
    unfold pagesInv. cbn [db initialState fetchLog]. by rewrite cleanUp_no_pages. }
  assert (Hvisited : forall p, p ∈ pagesOf crawlRunId (db s) ->
                               page_normalizedUrl p ∈ visited s).
  { intros p Hin.
    assert (Hk : pageKey p ∈ pageKey <$> pagesOf crawlRunId (db s))
      by (by apply list_elem_of_fmap_2).
    unfold pagesInv in Hp. rewrite Hp in Hk.
    apply list_elem_of_fmap in Hk as (x & Hx & Hx').
    apply list_elem_of_filter in Hx' as [_ Hx'].
    unfold pageKey, fetchKey in Hx. injection Hx as -> _.
    by apply (proj2 Hv). }
  assert (Hcreate : forall u result sig, u ∉ visited s ->
            page_create (pageOfResult crawlRunId u result sig) (db s)
            = Some (pageOfResult crawlRunId u result sig (freshId "page_" (nextId (db s))),
                    bumpId 1 (setPages
                      (fun ps => (ps ++ [pageOfResult crawlRunId u result sig
                                           (freshId "page_" (nextId (db s)))])%list)
                      (db s)))).
  { intros u result sig Hu. apply page_create_accepts.
    intros p Hin Hrun Hurl. cbn [pageOfResult page_crawlRunId page_normalizedUrl] in *.
    apply Hu. rewrite <- Hurl. apply Hvisited.
    apply list_elem_of_filter. done. }
  split; [|split; [exact Hvisited|split]].
  - replace (page_normalizedUrl <$> pagesOf crawlRunId (db s))
      with (fst <$> (pageKey <$> pagesOf crawlRunId (db s)))
      by (rewrite <- list_fmap_compose; reflexivity).
    unfold pagesInv in Hp. rewrite Hp, <- list_fmap_compose.
    change (fst ∘ fetchKey env) with (@id string). rewrite list_fmap_id.
    apply NoDup_filter, Hv.
  - intros u result sig Hu. rewrite (Hcreate u result sig Hu). by eexists.
  - intros u Hlog Hok.
    destruct (bfsIteration_cases env crawlRunId baseDomain settings s)
      as [(_ & _ & Hl) | (v & dep & s1 & Hv1 & Hvis1 & Hd1 & Hl1 & Hs')].
    + exfalso. rewrite Hl in Hlog. apply (f_equal List.length) in Hlog.
      rewrite length_app in Hlog. simpl in Hlog. lia.
    + rewrite Hs' in Hlog |- *.
      rewrite (proj1 (processPage_log _ _ _ _ _ _ _)), Hl1 in Hlog.
      apply app_inv_head in Hlog. injection Hlog as ->.
      unfold processPage. unfold fetchFailed in Hok.
      destruct (nonEmpty (pr_error (fetchAndParsePage env u))); [done|].
      cbn [db logFetch]. rewrite Hd1, (Hcreate _ _ _ Hv1).
      cbn [db withQueue withDb]. rewrite persistIssues_pages. reflexivity.
Qed.

(** *** The shape of one pass *)

(** The links of a page add, behind the frontier, entries one level deeper
    whose URL is internal and was not visited. *)
Lemma processLinks_spec normalizedUrl dep vis links : forall q,
  exists added,
    foldl (processLink env baseDomain settings normalizedUrl dep vis) q links
    = (q ++ added)%list
    /\ Forall (fun item => depth item = dep + 1
                           /\ isInternalUrl env (url item) baseDomain
                                 (includeSubdomains settings) = true
                           /\ url item ∉ vis) added.
Proof.
  induction links as [|link links IH]; intros q.
  - exists []. split; [by rewrite app_nil_r | constructor].
  - simpl. unfold processLink at 2.
    destruct (resolveAndNormalize env link normalizedUrl (ignoreParams settings)) as [nl|];
      [|apply IH].
    destruct (isInternalUrl env nl baseDomain (includeSubdomains settings)) eqn:Hint;
      simpl; [|apply IH].
    case_bool_decide as Hvis; [apply IH|].
    destruct (IH (q ++ [{| url := nl; depth := dep + 1 |}])%list) as (added & -> & Hall).
    exists ({| url := nl; depth := dep + 1 |} :: added).
    split; [by rewrite <- app_assoc|].
    constructor; [simpl; done | exact Hall].
Qed.

(** The frontier after the [try] block: as it was, or with link entries
    behind it. *)
Lemma processPage_queue u dep s :
  exists added,
    queue (processPage env crawlRunId baseDomain settings u dep s) = (queue s ++ added)%list
    /\ Forall (fun item => depth item = dep + 1
                           /\ isInternalUrl env (url item) baseDomain
                                 (includeSubdomains settings) = true
                           /\ url item ∉ visited s) added.
Proof.
  unfold processPage.
  destruct (nonEmpty _); [exists []; split; [by rewrite app_nil_r | constructor]|].
  destruct (page_create _ _) as [[page d]|];
    [|exists []; split; [by rewrite app_nil_r | constructor]].
  simpl. apply processLinks_spec.
Qed.

Lemma processPage_counter u dep s :
  cancelCheckCounter (processPage env crawlRunId baseDomain settings u dep s)
  = cancelCheckCounter s.
Proof.
  unfold processPage. destruct (nonEmpty _); [reflexivity|].
  destruct (page_create _ _) as [[page d]|]; reflexivity.
Qed.

(** The counter after a pass. *)
Definition nextCounter (s : BfsState) : Z :=
  if cancelCheckCounter s + 1 >=? CANCEL_CHECK_INTERVAL then 0
  else cancelCheckCounter s + 1.

(** A pass ends the loop, drops the head of the frontier, or fetches it. *)
Lemma bfsIteration_shape s :
  (exists s', (bfsIteration env crawlRunId baseDomain settings s = Break s'
               \/ bfsIteration env crawlRunId baseDomain settings s = Return s')
              /\ queue s' = queue s /\ visited s' = visited s /\ db s' = db s
              /\ fetchLog s' = fetchLog s)
  \/ (exists item rest,
        queue s = item :: rest
        /\ bfsIteration env crawlRunId baseDomain settings s
           = Next (withQueue rest (withCounter (nextCounter s) s)))
  \/ (exists item rest u,
        queue s = item :: rest
        /\ depth item <= Qfloor (maxDepth settings)
        /\ normalizeUrl env (url item) (ignoreParams settings) = Some u
        /\ (u ∉ visited s)
        /\ Z.of_nat (size (visited s)) < Qceiling (maxPages settings)
        /\ bfsIteration env crawlRunId baseDomain settings s
           = Next (processPage env crawlRunId baseDomain settings u (depth item)
                     (markVisited u (withQueue rest (withCounter (nextCounter s) s))))).
Proof.
  unfold bfsIteration, nextCounter.
  destruct (queue s) as [|item rest] eqn:Hq.
  { left. exists s. rewrite Hq. split; [by left | done]. }
  destruct (_ && _).
  { left. eexists. split; [by right | done]. }
  rewrite geq_ceiling, gt_floor.
  match goal with
  | |- context [?a >=? Qceiling (maxPages settings)] =>
      destruct (Z.geb_spec a (Qceiling (maxPages settings))) as [|Hlt]
  end.
  { left. eexists. split; [by left | done]. }
  cbn [visited withCounter] in Hlt.
  destruct (Z.gtb_spec (depth item) (Qfloor (maxDepth settings))) as [|Hdepth].
  { right. left. by exists item, rest. }
  destruct (normalizeUrl env (url item) (ignoreParams settings)) as [u|] eqn:Hnorm.
  2:{ right. left. by exists item, rest. }
  destruct (String.eqb u "").
  { right. left. by exists item, rest. }
  case_bool_decide as Hin.
  { right. left. by exists item, rest. }
  right. right. exists item, rest, u. repeat split; done.
Qed.

(** *** The frontier *)

Definition seedItem (normalizedStart : string) : QueueItem :=
  {| url := normalizedStart; depth := 0 |}.

(** An entry of the frontier other than the seed: an internal URL, between
    one and [maxDepth + 1] levels deep ([maxDepth] rounded down when it is
    not a whole number). *)
Definition enqueued (item : QueueItem) : Prop :=
  1 <= depth item <= Qfloor (maxDepth settings) + 1
  /\ isInternalUrl env (url item) baseDomain (includeSubdomains settings) = true.

Definition frontierInv (normalizedStart : string) (s : BfsState) : Prop :=
  Forall (fun item => item = seedItem normalizedStart \/ enqueued item) (queue s).

Lemma frontierInv_step normalizedStart s : frontierInv normalizedStart s ->
  frontierInv normalizedStart (stateOf (bfsIteration env crawlRunId baseDomain settings s)).
Proof.
  unfold frontierInv. intros Hinv.
  destruct (bfsIteration_shape s)
    as [(s' & [-> | ->] & Hq & _) | [(item & rest & Hq & ->)
       | (item & rest & u & Hq & Hdepth & Hnorm & Hin & Hcap & ->)]]; cbn [stateOf].
  - by rewrite Hq.
  - by rewrite Hq.
  - rewrite Hq in Hinv. by apply Forall_cons in Hinv as [_ Hrest].
  - rewrite Hq in Hinv. apply Forall_cons in Hinv as [Hitem Hrest].
    destruct (processPage_queue u (depth item)
                (markVisited u (withQueue rest (withCounter (nextCounter s) s))))
      as (added & -> & Hadded).
    apply Forall_app. split; [exact Hrest|].
    eapply Forall_impl; [exact Hadded|].
    intros x (Hx & Hint & _). right. split; [|exact Hint].
    assert (0 <= depth item).
    { destruct Hitem as [-> | [? _]]; simpl; lia. }
    lia.
Qed.

(** X3. External links never enter the frontier and its depth is bounded:
    at every state of the loop, each frontier entry is the seed entry (the
    start URL at depth 0) or an internal URL between 1 and [maxDepth + 1]
    levels deep. The settings give [maxDepth] as any number: a depth, being
    whole, is at most [maxDepth + 1] when it is at most [maxDepth] rounded
    down, plus one. *)
Theorem frontier_internal_and_bounded normalizedStart d s
    (Hreach : reachable env crawlRunId baseDomain settings
                (initialState normalizedStart d) s) :
  forall item, item ∈ queue s ->
    item = seedItem normalizedStart
    \/ (1 <= depth item <= Qfloor (maxDepth settings) + 1
        /\ isInternalUrl env (url item) baseDomain (includeSubdomains settings) = true).
Proof.
  assert (Hinv : frontierInv normalizedStart s).
  { induction Hreach; [|by apply frontierInv_step].
    unfold frontierInv. simpl. constructor; [by left | constructor]. }
  intros item Hitem. unfold frontierInv in Hinv. rewrite Forall_forall in Hinv.
  by apply Hinv.
Qed.

(** *** Depth zero *)

Definition startOnly (normalizedStart : string) (s : BfsState) : Prop :=
  (fetchLog s = [] /\ queue s = [seedItem normalizedStart])
  \/ (Forall (fun item => 1 <= depth item) (queue s)
      /\ (fetchLog s = []
          \/ exists u, normalizeUrl env normalizedStart (ignoreParams settings) = Some u
                       /\ fetchLog s = [u])).

Lemma startOnly_step normalizedStart s :
  (maxDepth settings == 0)%Q -> startOnly normalizedStart s ->
  startOnly normalizedStart (stateOf (bfsIteration env crawlRunId baseDomain settings s)).
Proof.
  intros Hzero Hinv.
  assert (Hfloor : Qfloor (maxDepth settings) = 0)
    by (rewrite (Qfloor_comp _ _ Hzero); reflexivity).
  destruct (bfsIteration_shape s)
    as [(s' & [-> | ->] & Hq & _ & _ & Hl) | [(item & rest & Hq & ->)
       | (item & rest & u & Hq & Hdepth & Hnorm & Hin & Hcap & ->)]]; cbn [stateOf].
  - unfold startOnly. by rewrite Hq, Hl.
  - unfold startOnly. by rewrite Hq, Hl.
  - destruct Hinv as [[Hl Hseed] | [Hall Hl]].
    + right. cbn. rewrite Hq in Hseed. injection Hseed as _ ->.
      split; [constructor | by left].
    + right. cbn. rewrite Hq in Hall. apply Forall_cons in Hall as [_ Hrest]. done.
  - destruct (processPage_queue u (depth item)
                (markVisited u (withQueue rest (withCounter (nextCounter s) s))))
      as (added & Hqueue & Hadded).
    destruct (processPage_log env crawlRunId baseDomain settings u (depth item)
                (markVisited u (withQueue rest (withCounter (nextCounter s) s))))
      as [Hlog _].
    destruct Hinv as [[Hl Hseed] | [Hall Hl]].
    + rewrite Hq in Hseed. injection Hseed as -> ->. right.
      rewrite Hqueue, Hlog. cbn. rewrite Hl. split.
      * eapply Forall_impl; [exact Hadded|]. intros x (Hx & _). simpl in Hx. lia.
      * right. exists u. done.
    + rewrite Hq in Hall. apply Forall_cons in Hall as [Hitem _]. lia.
Qed.

(** X4. With [maxDepth = 0] only the start URL is fetched: at every state
    of the loop the fetch log is empty or holds the normalized start URL
    alone. *)
Theorem maxDepth_zero_fetches_start_only normalizedStart d s
    (Hzero : (maxDepth settings == 0)%Q)
    (Hreach : reachable env crawlRunId baseDomain settings
                (initialState normalizedStart d) s) :
  fetchLog s = []
  \/ exists u, normalizeUrl env normalizedStart (ignoreParams settings) = Some u
               /\ fetchLog s = [u].
Proof.
  assert (Hinv : startOnly normalizedStart s).
  { induction Hreach; [by left | by apply startOnly_step]. }
  destruct Hinv as [[Hl _] | [_ Hl]]; [by left | exact Hl].
Qed.

(** *** Cancellation *)

Lemma isCrawlCanceled_runs d d' :
  crawlRuns d' = crawlRuns d ->
  isCrawlCanceled crawlRunId d' = isCrawlCanceled crawlRunId d.
Proof. unfold isCrawlCanceled. by intros ->. Qed.

(** The pass in which the check falls due ends the loop when the run is
    canceled. *)
Lemma canceled_pass_ends s :
  isCrawlCanceled crawlRunId (db s) = true ->
  CANCEL_CHECK_INTERVAL <= cancelCheckCounter s + 1 ->
  exists s', (bfsIteration env crawlRunId baseDomain settings s = Break s'
              \/ bfsIteration env crawlRunId baseDomain settings s = Return s')
             /\ fetchLog s' = fetchLog s.
Proof.
  intros Hcanceled Hdue. unfold bfsIteration.
  destruct (queue s) as [|item rest]; [exists s; split; [by left | done]|].
  destruct (Z.geb_spec (cancelCheckCounter s + 1) CANCEL_CHECK_INTERVAL) as [_|Hlt];
    [|lia].
  cbn [db withCounter]. rewrite Hcanceled. cbn [andb].
  eexists. split; [by right | done].
Qed.

Lemma next_pass_state s s1 :
  bfsIteration env crawlRunId baseDomain settings s = Next s1 ->
  cancelCheckCounter s1 = nextCounter s
  /\ crawlRuns (db s1) = crawlRuns (db s)
  /\ (List.length (fetchLog s1) <= List.length (fetchLog s) + 1)%nat.
Proof.
  intros Hnext.
  destruct (bfsIteration_shape s)
    as [(s' & [H | H] & _) | [(item & rest & Hq & H)
       | (item & rest & u & Hq & Hdepth & Hnorm & Hin & Hcap & H)]];
    rewrite H in Hnext; try discriminate; injection Hnext as <-.
  - cbn. split; [reflexivity | split; [reflexivity | lia]].
  - rewrite processPage_counter, processPage_crawlRuns.
    rewrite (proj1 (processPage_log _ _ _ _ _ _ _)), length_app. cbn.
    split; [reflexivity | split; [reflexivity | lia]].
Qed.

Lemma canceled_loop_ends n : forall s,
  isCrawlCanceled crawlRunId (db s) = true ->
  CANCEL_CHECK_INTERVAL <= cancelCheckCounter s + Z.of_nat n ->
  (1 <= n)%nat ->
  exists canceled s',
    bfsLoop env crawlRunId baseDomain settings n s = Some (canceled, s')
    /\ (List.length (fetchLog s') + 1 <= List.length (fetchLog s) + n)%nat.
Proof.
  induction n as [|m IH]; intros s Hcanceled Hdue Hpos; [lia|].
  cbn [bfsLoop].
  destruct (decide (CANCEL_CHECK_INTERVAL <= cancelCheckCounter s + 1)) as [Hnow|Hlater].
  - destruct (canceled_pass_ends s Hcanceled Hnow) as (s' & [-> | ->] & Hl);
      eexists _, s'; (split; [reflexivity | rewrite Hl; lia]).
  - destruct (bfsIteration env crawlRunId baseDomain settings s) as [s1|s1|s1] eqn:Hit.
    + destruct (next_pass_state s s1 Hit) as (Hc & Hruns & Hlen).
      assert (Hc' : cancelCheckCounter s1 = cancelCheckCounter s + 1).
      { rewrite Hc. unfold nextCounter.
        destruct (Z.geb_spec (cancelCheckCounter s + 1) CANCEL_CHECK_INTERVAL); [lia | done]. }
      destruct (IH s1) as (canceled & s' & Hloop & Hbound).
      * by rewrite (isCrawlCanceled_runs _ _ Hruns).
      * lia.
      * lia.
      * exists canceled, s'. split; [exact Hloop | lia].
    + destruct (bfsIteration_shape s)
        as [(s' & [H | H] & _ & _ & _ & Hl) | [(item & rest & Hq & H)
           | (item & rest & u & Hq & Hdepth & Hnorm & Hin & Hcap & H)]];
        rewrite H in Hit; try discriminate; injection Hit as <-.
      exists false, s'. split; [reflexivity | rewrite Hl; lia].
    + destruct (bfsIteration_shape s)
        as [(s' & [H | H] & _ & _ & _ & Hl) | [(item & rest & Hq & H)
           | (item & rest & u & Hq & Hdepth & Hnorm & Hin & Hcap & H)]];
        rewrite H in Hit; try discriminate; injection Hit as <-.
      exists true, s'. split; [reflexivity | rewrite Hl; lia].
Qed.

(** X5. A canceled run stops the loop within [CANCEL_CHECK_INTERVAL]
    passes: from a state whose counter is not negative and whose store
    shows the run CANCELED, twenty passes are enough for the loop to end,
    and at most nineteen more URLs are fetched on the way. *)
Theorem cancel_observed_within_interval s
    (Hcanceled : isCrawlCanceled crawlRunId (db s) = true)
    (Hcounter : 0 <= cancelCheckCounter s) :
  exists canceled s',
    bfsLoop env crawlRunId baseDomain settings 20 s = Some (canceled, s')
    /\ (List.length (fetchLog s') <= List.length (fetchLog s) + 19)%nat.
Proof.
  destruct (canceled_loop_ends 20 s Hcanceled) as (canceled & s' & Hloop & Hbound).
  - unfold CANCEL_CHECK_INTERVAL. lia.
  - lia.
  - exists canceled, s'. split; [exact Hloop | lia].
Qed.

End BfsBounds.

Section BfsBoundsExamples.
Import Store Runner.

Definition depthZero : CrawlSettings :=
  {| maxPages := 1000%Q; maxDepth := 0%Q;
     ignoreParams := ignoreParams DEFAULT_CRAWL_SETTINGS;
     respectRobots := true; throttleMs := 100%Q; includeSubdomains := false |}.

(** The settings of a project whose [settingsJson] has [maxPages: 0.5]. *)
Definition halfPage : CrawlSettings :=
  buildCrawlSettings (JObj {["maxPages" := JFrac (1 # 2)]}).

(** The state after two passes over the two-page site under that limit. *)
Definition afterTwoPassesHalfPage : BfsState :=
  stateOf (bfsIteration (Lifecycle.urlEnv linkingFetch) "run1" "a.test" halfPage
     (stateOf (bfsIteration (Lifecycle.urlEnv linkingFetch) "run1" "a.test" halfPage
                            seeded))).

Lemma afterTwoPassesHalfPage_reachable :
  reachable (Lifecycle.urlEnv linkingFetch) "run1" "a.test" halfPage
            seeded afterTwoPassesHalfPage.
Proof. apply reach_step, reach_step, reach_init. Qed.

(** Under a limit of 0.5 the first pass fetches the start page (0 >= 0.5
    is false) and the second one leaves the loop (1 >= 0.5), with the
    linked page still in the frontier. *)
Example half_page_fetches_one :
  fetchLog afterTwoPassesHalfPage = ["https://a.test/"]
  /\ url <$> queue afterTwoPassesHalfPage = ["https://a.test/a"]
  /\ Z.max 0 (Qceiling (maxPages halfPage)) = 1.
Proof. repeat split; vm_compute; reflexivity. Qed.

(** The state after two passes over the two-page site, at depth zero. *)
Definition afterTwoPassesDepthZero : BfsState :=
  stateOf (bfsIteration (Lifecycle.urlEnv linkingFetch) "run1" "a.test" depthZero
     (stateOf (bfsIteration (Lifecycle.urlEnv linkingFetch) "run1" "a.test" depthZero
                            seeded))).

Lemma afterTwoPassesDepthZero_reachable :
  reachable (Lifecycle.urlEnv linkingFetch) "run1" "a.test" depthZero
            seeded afterTwoPassesDepthZero.
Proof. apply reach_step, reach_step, reach_init. Qed.

(** The loop about to start on a run that is already canceled. *)
Definition seededCanceled : BfsState :=
  initialState "https://a.test/" (dbWithStatus CANCELED).

Lemma maxPages_caps_fetches_witness :
  Z.of_nat (List.length (pagesOf "run1" (db afterTwoPassesHalfPage)))
  <= Z.of_nat (List.length (fetchLog afterTwoPassesHalfPage))
  /\ Z.of_nat (List.length (fetchLog afterTwoPassesHalfPage))
     <= Z.max 0 (Qceiling (maxPages halfPage)).
Proof.
  exact (maxPages_caps_fetches (Lifecycle.urlEnv linkingFetch) "run1" "a.test"
           halfPage "https://a.test/" emptyDb
           afterTwoPassesHalfPage afterTwoPassesHalfPage_reachable).
Defined.

Lemma page_create_never_rejected_witness :
  NoDup (page_normalizedUrl <$> pagesOf "run1" (db (afterFirstPass linkingFetch)))
  /\ is_Some (page_create
                (pageOfResult "run1" "https://a.test/a" (linkingFetch "https://a.test/a")
                              (None, None))
                (db (afterFirstPass linkingFetch)))
  /\ page_normalizedUrl <$> pages (db (afterSecondPass linkingFetch))
     = ["https://a.test/"; "https://a.test/a"].
Proof.
  destruct (page_create_never_rejected (Lifecycle.urlEnv linkingFetch) "run1" "a.test"
              DEFAULT_CRAWL_SETTINGS "https://a.test/" emptyDb
              (afterFirstPass linkingFetch) (afterFirstPass_reachable linkingFetch))
    as (Hnd & _ & Hcreate & Hgrow).
  split; [exact Hnd|]. split.
  - apply Hcreate. apply (bool_decide_unpack _). vm_compute. exact I.
  - unfold afterSecondPass.
    rewrite (Hgrow "https://a.test/a"); [vm_compute; reflexivity | reflexivity | discriminate].
Defined.

Lemma frontier_internal_and_bounded_witness :
  Forall (fun item =>
            item = seedItem "https://a.test/"
            \/ (1 <= depth item <= Qfloor (maxDepth DEFAULT_CRAWL_SETTINGS) + 1
                /\ Url.isInternalUrl (url item) "a.test" false = true))
         (queue (afterFirstPass linkingFetch)).
Proof.
  apply Forall_forall.
  exact (frontier_internal_and_bounded (Lifecycle.urlEnv linkingFetch) "run1" "a.test"
           DEFAULT_CRAWL_SETTINGS "https://a.test/" emptyDb
           (afterFirstPass linkingFetch) (afterFirstPass_reachable linkingFetch)).
Defined.

Lemma maxDepth_zero_fetches_start_only_witness :
  fetchLog afterTwoPassesDepthZero = []
  \/ exists u, Url.normalizeUrl Url.codeUnitCompare "https://a.test/"
                 (ignoreParams depthZero) = Some u
               /\ fetchLog afterTwoPassesDepthZero = [u].
Proof.
  exact (maxDepth_zero_fetches_start_only (Lifecycle.urlEnv linkingFetch) "run1" "a.test"
           depthZero "https://a.test/" emptyDb afterTwoPassesDepthZero
           eq_refl afterTwoPassesDepthZero_reachable).
Defined.

Example depth_zero_two_passes :
  fetchLog afterTwoPassesDepthZero = ["https://a.test/"]
  /\ queue afterTwoPassesDepthZero = [].
Proof. split; vm_compute; reflexivity. Qed.

Lemma cancel_observed_within_interval_witness :
  exists canceled s',
    bfsLoop (Lifecycle.urlEnv linkingFetch) "run1" "a.test" DEFAULT_CRAWL_SETTINGS 20
            seededCanceled = Some (canceled, s')
    /\ (List.length (fetchLog s') <= List.length (fetchLog seededCanceled) + 19)%nat.
Proof.
  exact (cancel_observed_within_interval (Lifecycle.urlEnv linkingFetch) "run1" "a.test"
           DEFAULT_CRAWL_SETTINGS seededCanceled eq_refl (Z.le_refl 0)).
Defined.

End BfsBoundsExamples.

(** ** Sorting by descending count *)

Section Sorting.
Context {A : Type}.
Variable key : A -> Z.

(** The comparator of the two "top ten" lists: [(a, b) => b.count - a.count]. *)
Definition byCountDesc (a b : A) : Z := key b - key a.

Lemma insertBy_perm (cmp : A -> A -> Z) x l : Js.insertBy cmp x l ≡ₚ x :: l.
Proof.
  induction l as [|y l IH]; simpl; [reflexivity|].
  destruct (cmp x y <=? 0); [reflexivity|].
  rewrite IH. apply Permutation_swap.
Qed.

Lemma sort_perm (cmp : A -> A -> Z) l : Js.sort cmp l ≡ₚ l.
Proof.
  unfold Js.sort. induction l as [|x l IH]; simpl; [reflexivity|].
  rewrite insertBy_perm. by rewrite IH.
Qed.

(** No element is followed, anywhere later, by one with a larger key. *)
Definition descending (l : list A) : Prop :=
  StronglySorted (fun a b => key b <= key a) l.

Lemma insertBy_descending x l :
  descending l -> descending (Js.insertBy byCountDesc x l).
Proof.
  unfold descending, byCountDesc. induction l as [|y l IH]; intros Hs; simpl.
  - repeat constructor.
  - apply StronglySorted_inv in Hs as [Hs Hy].
    destruct (Z.leb_spec (key y - key x) 0) as [Hle|Hgt].
    + constructor; [by constructor|].
      constructor; [lia|].
      eapply Forall_impl; [exact Hy|]. intros z Hz. simpl in Hz. lia.
    + constructor; [by apply IH|].
      rewrite (insertBy_perm _ x l). constructor; [lia | exact Hy].
Qed.

Lemma sort_descending l : descending (Js.sort byCountDesc l).
Proof.
  unfold Js.sort. induction l as [|x l IH]; simpl; [constructor|].
  by apply insertBy_descending.
Qed.

Lemma descending_take n l : descending l -> descending (take n l).
Proof.
  unfold descending. revert n. induction l as [|x l IH]; intros [|n] Hs; simpl;
    try constructor.
  - apply IH. by apply StronglySorted_inv in Hs as [Hs _].
  - apply StronglySorted_inv in Hs as [_ Hx].
    rewrite Forall_forall in Hx |- *. intros y Hy. apply Hx.
    apply list_elem_of_lookup in Hy as [i Hi].
    apply lookup_take_Some in Hi as [Hi _]. by eapply list_elem_of_lookup_2.
Qed.

Lemma top_ten_spec l :
  let top := take 10 (Js.sort byCountDesc l) in
  (List.length top <= 10)%nat
  /\ descending top
  /\ (forall x, x ∈ top -> x ∈ l)
  /\ ((List.length l <= 10)%nat -> top ≡ₚ l).
Proof.
  cbv zeta. split; [|split; [|split]].
  - rewrite length_take. lia.
  - apply descending_take, sort_descending.
  - intros x Hx. rewrite <- (sort_perm byCountDesc l).
    apply list_elem_of_lookup in Hx as [i Hi].
    apply lookup_take_Some in Hi as [Hi _]. by eapply list_elem_of_lookup_2.
  - intros Hlen. rewrite take_ge; [apply sort_perm|].
    rewrite (Permutation_length (sort_perm byCountDesc l)). exact Hlen.
Qed.

End Sorting.

(** ** The post-processor: the other totals *)

Section LinkTotals.
Import Store PostProcess.

Definition linksOf (crawlRunId : string) (db : DB) : list Link :=
  filter (fun l => link_crawlRunId l = crawlRunId) (links db).

Definition externalLinksOf (crawlRunId : string) (db : DB) : list Link :=
  filter (fun l => link_crawlRunId l = crawlRunId /\ link_linkType l = EXTERNAL)
         (links db).

(** The internal links of the run that are marked broken. *)
Definition brokenLinksOf (crawlRunId : string) (db : DB) : list Link :=
  filter (fun l => link_crawlRunId l = crawlRunId /\ link_linkType l = INTERNAL
                   /\ link_isBroken l = true) (links db).

Definition updatesOf (crawlRunId : string) (db : DB) : list (string * Z) :=
  omap (brokenUpdate (statusMapOf crawlRunId db)) (internalLinksOf crawlRunId db).

Definition errorPageCountsOf (crawlRunId : string) (db : DB) : list ErrorPage :=
  (scanLinks (statusMapOf crawlRunId db) (internalLinksOf crawlRunId db)).2.

(** The record [postProcessCrawl] returns, field by field. *)
Lemma postProcessCrawl_fields crawlRunId db :
  (postProcessCrawl crawlRunId db).1
  = {| pagesCount := Z.of_nat (List.length (pagesOf crawlRunId db));
       linksCount :=
         Z.of_nat (List.length (linksOf crawlRunId (postProcessCrawl crawlRunId db).2));
       internalLinksCount := Z.of_nat (List.length (internalLinksOf crawlRunId db));
       externalLinksCount :=
         Z.of_nat (List.length (externalLinksOf crawlRunId (postProcessCrawl crawlRunId db).2));
       brokenInternalLinksCount := Z.of_nat (List.length (updatesOf crawlRunId db));
       statusCodeDistribution := (scanPages (pagesOf crawlRunId db)).2;
       topErrorPages :=
         take 10 (Js.sort (byCountDesc ep_count) (errorPageCountsOf crawlRunId db)) |}.
Proof.
  rewrite postProcessCrawl_db.
  unfold postProcessCrawl, updatesOf, errorPageCountsOf, statusMapOf, linksOf,
    externalLinksOf.
  fold (pagesOf crawlRunId db). fold (internalLinksOf crawlRunId db).
  pose proof (scanPages_map_from (∅, ∅) (pagesOf crawlRunId db)) as Hm.
  fold (scanPages (pagesOf crawlRunId db)) in Hm. simpl in Hm.
  destruct (scanPages (pagesOf crawlRunId db)) as [m d]. simpl in Hm. subst m.
  pose proof (scanLinks_updates (foldl recordStatus ∅ (pagesOf crawlRunId db))
                (internalLinksOf crawlRunId db)) as Hu.
  destruct (scanLinks _ _) as [ups eps]. simpl in Hu. subst ups. reflexivity.
Qed.

Lemma applyRow_fields ups : forall l,
  link_crawlRunId (applyRow ups l) = link_crawlRunId l
  /\ link_linkType (applyRow ups l) = link_linkType l
  /\ link_toNormalizedUrl (applyRow ups l) = link_toNormalizedUrl l.
Proof.
  unfold applyRow. induction ups as [|u ups IH]; intros l; [done|].
  simpl. destruct (IH (if bool_decide (link_id l = u.1) then withBroken u.2 l else l))
    as (-> & -> & ->).
  by case_bool_decide.
Qed.

Lemma length_filter_fmap {A B} (f : A -> B) (P : B -> Prop) (Q : A -> Prop)
    `{forall x, Decision (P x)} `{forall x, Decision (Q x)} (l : list A) :
  (forall x, P (f x) <-> Q x) ->
  List.length (filter P (f <$> l)) = List.length (filter Q l).
Proof.
  intros HPQ. induction l as [|x l IH]; [reflexivity|].
  rewrite fmap_cons, !filter_cons.
  destruct (decide (P (f x))) as [HP|HP]; destruct (decide (Q x)) as [HQ|HQ];
    simpl; try (by rewrite IH); exfalso.
  - by apply HQ, HPQ.
  - by apply HP, HPQ.
Qed.

Lemma length_by_type crawlRunId (ls : list Link) :
  List.length (filter (fun l => link_crawlRunId l = crawlRunId) ls)
  = (List.length (filter (fun l => link_crawlRunId l = crawlRunId
                                   /\ link_linkType l = INTERNAL) ls)
     + List.length (filter (fun l => link_crawlRunId l = crawlRunId
                                     /\ link_linkType l = EXTERNAL) ls))%nat.
Proof.
  induction ls as [|l ls IH]; [reflexivity|].
  rewrite !filter_cons.
  destruct (decide (link_crawlRunId l = crawlRunId)) as [Hrun|Hrun].
  - destruct (link_linkType l) eqn:Hty.
    + rewrite decide_True by done. rewrite decide_False by (intros [_ ?]; done).
      simpl. by rewrite IH.
    + rewrite decide_False by (intros [_ ?]; done). rewrite decide_True by done.
      simpl. rewrite IH. lia.
  - rewrite !decide_False by (intros [? _]; done). exact IH.
Qed.

Lemma length_omap_le {A B} (f : A -> option B) (l : list A) :
  (List.length (omap f l) <= List.length l)%nat.
Proof.
  induction l as [|x l IH]; [reflexivity|].
  cbn [omap list_omap]. fold (omap f l).
  destruct (f x); cbn [List.length]; lia.
Qed.

Lemma links_after crawlRunId db :
  links (postProcessCrawl crawlRunId db).2
  = applyRow (updatesOf crawlRunId db) <$> links db.
Proof. by rewrite postProcessCrawl_db, applyUpdates_links. Qed.

(** X6. The link totals agree with the Link table and with each other:
    [linksCount] is the number of Link rows of the run, it is the sum of
    [internalLinksCount] and [externalLinksCount], and
    [brokenInternalLinksCount] is at most [internalLinksCount]. *)
Theorem link_totals_consistent crawlRunId db :
  let totals := (postProcessCrawl crawlRunId db).1 in
  linksCount totals = Z.of_nat (List.length (linksOf crawlRunId db))
  /\ internalLinksCount totals = Z.of_nat (List.length (internalLinksOf crawlRunId db))
  /\ externalLinksCount totals = Z.of_nat (List.length (externalLinksOf crawlRunId db))
  /\ linksCount totals = internalLinksCount totals + externalLinksCount totals
  /\ 0 <= brokenInternalLinksCount totals <= internalLinksCount totals.
Proof.
  cbv zeta. rewrite postProcessCrawl_fields. cbn [linksCount internalLinksCount
    externalLinksCount brokenInternalLinksCount].
  assert (Hall : List.length (linksOf crawlRunId (postProcessCrawl crawlRunId db).2)
                 = List.length (linksOf crawlRunId db)).
  { unfold linksOf. rewrite links_after. apply length_filter_fmap.
    intros l. by destruct (applyRow_fields (updatesOf crawlRunId db) l) as (-> & _). }
  assert (Hext : List.length (externalLinksOf crawlRunId (postProcessCrawl crawlRunId db).2)
                 = List.length (externalLinksOf crawlRunId db)).
  { unfold externalLinksOf. rewrite links_after. apply length_filter_fmap.
    intros l. by destruct (applyRow_fields (updatesOf crawlRunId db) l) as (-> & -> & _). }
  rewrite Hall, Hext.
  pose proof (length_by_type crawlRunId (links db)) as Hsplit.
  fold (linksOf crawlRunId db) (internalLinksOf crawlRunId db)
    (externalLinksOf crawlRunId db) in Hsplit.
  pose proof (length_omap_le (brokenUpdate (statusMapOf crawlRunId db))
                (internalLinksOf crawlRunId db)) as Hle.
  fold (updatesOf crawlRunId db) in Hle.
  repeat split; lia.
Qed.

(** X7. Under the Link primary key and for links that entered with the
    column defaults, [brokenInternalLinksCount] is the number of internal
    Link rows of the run that are marked broken after post-processing. *)
Theorem broken_count_matches_rows crawlRunId db
    (Hids : linkIdsUnique db)
    (Hfresh : linksFresh crawlRunId db) :
  brokenInternalLinksCount (postProcessCrawl crawlRunId db).1
  = Z.of_nat (List.length (brokenLinksOf crawlRunId (postProcessCrawl crawlRunId db).2)).
Proof.
  rewrite postProcessCrawl_fields. cbn [brokenInternalLinksCount]. f_equal.
  unfold brokenLinksOf. rewrite links_after. unfold updatesOf at 1, internalLinksOf.
  assert (Hgen : forall ls, (forall l, l ∈ ls -> l ∈ links db) ->
    List.length (omap (brokenUpdate (statusMapOf crawlRunId db))
                   (filter (fun l => link_crawlRunId l = crawlRunId
                                     /\ link_linkType l = INTERNAL) ls))
    = List.length (filter (fun l => link_crawlRunId l = crawlRunId
                                    /\ link_linkType l = INTERNAL
                                    /\ link_isBroken l = true)
                     (applyRow (updatesOf crawlRunId db) <$> ls))).
  { induction ls as [|l ls IH]; intros Hsub; [reflexivity|].
    assert (Hl : l ∈ links db) by (apply Hsub; by left).
    specialize (IH (fun x Hx => Hsub x (list_elem_of_further _ _ _ Hx))).
    rewrite fmap_cons, !filter_cons.
    pose proof (postProcessCrawl_row crawlRunId db l Hids Hl) as Hrow.
    fold (updatesOf crawlRunId db) in Hrow. rewrite Hrow. clear Hrow.
    destruct (decide (link_crawlRunId l = crawlRunId /\ link_linkType l = INTERNAL))
      as [Hint|Hint].
    - destruct (Hfresh l Hl (proj1 Hint)) as [Hb Hs].
      cbn [omap list_omap].
      destruct (brokenUpdate (statusMapOf crawlRunId db) l) as [[i s]|].
      + rewrite bool_decide_eq_true_2 by done.
        rewrite decide_True by (destruct Hint; done). simpl. by rewrite IH.
      + rewrite decide_False by (intros (_ & _ & ?); congruence). exact IH.
    - destruct (brokenUpdate (statusMapOf crawlRunId db) l) as [[i s]|].
      + rewrite bool_decide_eq_false_2 by done.
        rewrite decide_False by (intros (? & ? & _); by apply Hint). exact IH.
      + rewrite decide_False by (intros (? & ? & _); by apply Hint). exact IH. }
  by apply Hgen.
Qed.

Lemma broken_count_matches_rows_witness :
  brokenInternalLinksCount (postProcessCrawl "run1" dbScenarioB).1 = 1
  /\ brokenInternalLinksCount (postProcessCrawl "run1" dbScenarioB).1
     = Z.of_nat (List.length (brokenLinksOf "run1" (postProcessCrawl "run1" dbScenarioB).2)).
Proof.
  split; [reflexivity|].
  destruct scenarioB_constraints as (Hids & _ & Hfresh).
  exact (broken_count_matches_rows "run1" dbScenarioB Hids Hfresh).
Defined.

End LinkTotals.

(** ** The post-processor: the error pages *)

Section ErrorPages.
Import Store PostProcess.

Lemma descending_app {A} (key : A -> Z) (l1 l2 : list A) :
  descending key (l1 ++ l2) ->
  forall y x, y ∈ l1 -> x ∈ l2 -> key x <= key y.
Proof.
  unfold descending. induction l1 as [|a l1 IH]; intros Hs y x Hy Hx.
  - by apply elem_of_nil in Hy.
  - simpl in Hs. apply StronglySorted_inv in Hs as [Hs Ha].
    apply elem_of_cons in Hy as [->|Hy]; [|by eapply IH].
    rewrite Forall_forall in Ha. apply Ha. apply elem_of_app. by right.
Qed.

(** What is cut off by [slice(0, 10)] has no larger key than what is kept. *)
Lemma top_ten_dominates {A} (key : A -> Z) (l : list A) x y :
  x ∈ l -> x ∉ take 10 (Js.sort (byCountDesc key) l) ->
  y ∈ take 10 (Js.sort (byCountDesc key) l) -> key x <= key y.
Proof.
  intros Hx Hnot Hy.
  pose proof (sort_descending key l) as Hs.
  rewrite <- (take_drop 10 (Js.sort (byCountDesc key) l)) in Hs.
  eapply descending_app; [exact Hs | exact Hy |].
  assert (Hin : x ∈ Js.sort (byCountDesc key) l) by by rewrite sort_perm.
  rewrite <- (take_drop 10 (Js.sort (byCountDesc key) l)) in Hin.
  apply elem_of_app in Hin as [Hin|Hin]; [by destruct Hnot | exact Hin].
Qed.

(** The number of links of [ls] that point to [url]. *)
Definition linksTo (url : string) (ls : list Link) : Z :=
  Z.of_nat (List.length (filter (fun l => link_toNormalizedUrl l = url) ls)).

Lemma linksTo_snoc url ls l :
  linksTo url (ls ++ [l])
  = linksTo url ls + (if decide (link_toNormalizedUrl l = url) then 1 else 0).
Proof.
  unfold linksTo. rewrite filter_app, length_app, filter_cons, filter_nil.
  destruct (decide (link_toNormalizedUrl l = url)); simpl; lia.
Qed.

(** The entries of [errorPageCounts] after the links [ls]: one per broken
    target, with the target's status and the number of links to it. *)
Definition errorPagesInv (m : gmap string Z) (ls : list Link) (eps : list ErrorPage)
    : Prop :=
  NoDup (ep_url <$> eps)
  /\ Forall (fun e => m !! ep_url e = Some (ep_statusCode e)
                      /\ 400 <= ep_statusCode e
                      /\ 1 <= ep_count e
                      /\ ep_count e = linksTo (ep_url e) ls) eps
  /\ (forall l s, l ∈ ls -> m !! link_toNormalizedUrl l = Some s -> 400 <= s ->
        link_toNormalizedUrl l ∈ ep_url <$> eps).

Lemma countErrorPage_urls url status eps :
  url ∈ ep_url <$> countErrorPage url status eps
  /\ (forall u, u ∈ ep_url <$> eps -> u ∈ ep_url <$> countErrorPage url status eps)
  /\ (forall u, u ∈ ep_url <$> countErrorPage url status eps ->
        u = url \/ u ∈ ep_url <$> eps).
Proof.
  induction eps as [|e eps (IH1 & IH2 & IH3)]; simpl.
  - split; [by left|]. split; [intros u Hu; by apply elem_of_nil in Hu|].
    intros u Hu. apply list_elem_of_singleton in Hu. by left.
  - destruct (String.eqb_spec (ep_url e) url) as [He|He]; simpl.
    + subst url. split; [by left|]. split; [done|]. intros u Hu. by right.
    + split; [by right|]. split.
      * intros u Hu. apply elem_of_cons in Hu as [->|Hu]; [by left|right; by apply IH2].
      * intros u Hu. apply elem_of_cons in Hu as [->|Hu]; [right; by left|].
        destruct (IH3 u Hu) as [->|H]; [by left|right; by right].
Qed.

Lemma countErrorPage_NoDup url status eps :
  NoDup (ep_url <$> eps) -> NoDup (ep_url <$> countErrorPage url status eps).
Proof.
  induction eps as [|e eps IH]; simpl; intros Hnd.
  - apply NoDup_singleton.
  - apply NoDup_cons in Hnd as [Hne Hnd].
    destruct (String.eqb_spec (ep_url e) url) as [He|He]; simpl.
    + by apply NoDup_cons.
    + apply NoDup_cons. split; [|by apply IH].
      intros Hin. destruct (countErrorPage_urls url status eps) as (_ & _ & H3).
      destruct (H3 _ Hin) as [H|H]; [by apply He | by apply Hne].
Qed.

(** Each entry after [countErrorPage] is an old entry for another URL, the
    old entry for [url] with its count raised by one, or the new entry. *)
Lemma countErrorPage_entries url status eps :
  NoDup (ep_url <$> eps) ->
  forall e', e' ∈ countErrorPage url status eps ->
    (e' ∈ eps /\ ep_url e' <> url)
    \/ (exists e, e ∈ eps /\ ep_url e = url /\ ep_url e' = url
                  /\ ep_statusCode e' = ep_statusCode e
                  /\ ep_count e' = ep_count e + 1)
    \/ ((url ∉ ep_url <$> eps) /\ ep_url e' = url
        /\ ep_statusCode e' = status /\ ep_count e' = 1).
Proof.
  induction eps as [|e eps IH]; simpl; intros Hnd e' He'.
  - apply list_elem_of_singleton in He'. subst e'. right; right.
    split; [apply not_elem_of_nil|done].
  - apply NoDup_cons in Hnd as [Hne Hnd].
    destruct (String.eqb_spec (ep_url e) url) as [He|He].
    + apply elem_of_cons in He' as [->|He'].
      * right; left. exists e. split; [by left|done].
      * left. split; [by right|]. intros Hu. apply Hne. rewrite He, <- Hu.
        by apply list_elem_of_fmap_2.
    + apply elem_of_cons in He' as [->|He'].
      * left. split; [by left|done].
      * destruct (IH Hnd e' He') as [[Hin Hu]|[(e0 & Hin & H)|(Hnot & H)]].
        -- left. split; [by right|done].
        -- right; left. exists e0. split; [by right|done].
        -- right; right. split; [|done]. intros Hin.
           apply elem_of_cons in Hin as [Hin|Hin]; [by apply He | by apply Hnot].
Qed.

Lemma errorPagesInv_step m ls ups eps l :
  errorPagesInv m ls eps ->
  errorPagesInv m (ls ++ [l]) (scanLink m (ups, eps) l).2.
Proof.
  intros (Hnd & Hall & Hcov). unfold scanLink.
  assert (Hkeep : (forall s, m !! link_toNormalizedUrl l = Some s -> ~ 400 <= s) ->
                  errorPagesInv m (ls ++ [l]) eps).
  { intros Hno. split; [exact Hnd|]. split.
    - eapply Forall_impl; [exact Hall|]. intros e (Hm & Hs & Hc1 & Hc).
      repeat split; try done. rewrite linksTo_snoc.
      destruct (decide (link_toNormalizedUrl l = ep_url e)) as [Heq|]; [|lia].
      exfalso. rewrite <- Heq in Hm. by apply (Hno _ Hm).
    - intros l0 s Hl0 Hm Hs. apply elem_of_app in Hl0 as [Hl0|Hl0]; [by eapply Hcov|].
      apply list_elem_of_singleton in Hl0. subst l0. exfalso. by apply (Hno _ Hm). }
  destruct (m !! link_toNormalizedUrl l) as [s|] eqn:Hm; [|by apply Hkeep].
  destruct (Z.geb_spec s 400) as [Hs|Hs]; [|apply Hkeep; intros s' [= <-]; lia].
  cbn [snd]. set (url := link_toNormalizedUrl l) in *.
  destruct (countErrorPage_urls url s eps) as (H1 & H2 & H3).
  split; [by apply countErrorPage_NoDup|]. split.
  - rewrite Forall_forall in Hall |- *. intros e' He'. rewrite linksTo_snoc. fold url.
    destruct (countErrorPage_entries url s eps Hnd e' He')
      as [[Hin Hu]|[(e & Hin & Hu & Hu' & Hst & Hc)|(Hnot & Hu' & Hst & Hc)]].
    + destruct (Hall e' Hin) as (? & ? & ? & ?).
      rewrite decide_False by done. repeat split; try done; lia.
    + destruct (Hall e Hin) as (He1 & He2 & He3 & He4).
      rewrite Hu', Hst, Hc, decide_True by done. rewrite Hu in He1, He4.
      repeat split; try done; lia.
    + rewrite Hu', Hst, Hc, decide_True by done.
      repeat split; try done; try lia.
      assert (Hz : linksTo url ls = 0); [|lia].
      unfold linksTo.
      destruct (filter (fun l0 => link_toNormalizedUrl l0 = url) ls) as [|l0 rest] eqn:Hf;
        [reflexivity|].
      exfalso. assert (Hl0 : l0 ∈ filter (fun l0 => link_toNormalizedUrl l0 = url) ls)
        by (rewrite Hf; by left).
      apply list_elem_of_filter in Hl0 as [Hto Hl0]. apply Hnot. rewrite <- Hto.
      eapply Hcov; [exact Hl0 | by rewrite Hto | lia].
  - intros l0 s0 Hl0 Hm0 Hs0. apply elem_of_app in Hl0 as [Hl0|Hl0].
    + apply H2. by eapply Hcov.
    + apply list_elem_of_singleton in Hl0. by subst l0.
Qed.

Lemma errorPagesInv_from m ls : forall ls0 ups eps,
  errorPagesInv m ls0 eps ->
  errorPagesInv m (ls0 ++ ls) (foldl (scanLink m) (ups, eps) ls).2.
Proof.
  induction ls as [|l ls IH]; intros ls0 ups eps Hinv.
  - simpl. by rewrite app_nil_r.
  - change (foldl (scanLink m) (ups, eps) (l :: ls))
      with (foldl (scanLink m) (scanLink m (ups, eps) l) ls).
    replace (ls0 ++ l :: ls)%list with ((ls0 ++ [l]) ++ ls)%list
      by by rewrite <- app_assoc.
    pose proof (errorPagesInv_step m ls0 ups eps l Hinv) as Hstep.
    destruct (scanLink m (ups, eps) l) as [ups' eps']. by apply IH.
Qed.

Lemma errorPagesInv_scanLinks m ls : errorPagesInv m ls (scanLinks m ls).2.
Proof.
  apply (errorPagesInv_from m ls [] [] []).
  split; [apply NoDup_nil_2|]. split; [constructor|].
  intros l s Hl. by apply elem_of_nil in Hl.
Qed.

(** X8. [topErrorPages] lists at most ten entries, by descending count and
    with distinct URLs. Each entry is for a page of the run with a status of
    400 or more, which is the entry's status, and its count is the number of
    internal links of the run that point to that page's URL. No broken
    target that is left out is linked more often than a listed one. *)
Theorem topErrorPages_spec crawlRunId db :
  let top := topErrorPages (postProcessCrawl crawlRunId db).1 in
  (List.length top <= 10)%nat
  /\ descending ep_count top
  /\ NoDup (ep_url <$> top)
  /\ (forall e, e ∈ top ->
        400 <= ep_statusCode e
        /\ (exists p, p ∈ pagesOf crawlRunId db
                      /\ page_normalizedUrl p = ep_url e
                      /\ page_statusCode p = Some (ep_statusCode e))
        /\ 1 <= ep_count e
        /\ ep_count e = linksTo (ep_url e) (internalLinksOf crawlRunId db))
  /\ (forall l s e, l ∈ internalLinksOf crawlRunId db ->
        statusMapOf crawlRunId db !! link_toNormalizedUrl l = Some s -> 400 <= s ->
        link_toNormalizedUrl l ∉ ep_url <$> top -> e ∈ top ->
        linksTo (link_toNormalizedUrl l) (internalLinksOf crawlRunId db) <= ep_count e).
Proof.
  cbv zeta. rewrite postProcessCrawl_fields. cbn [topErrorPages].
  destruct (top_ten_spec ep_count (errorPageCountsOf crawlRunId db))
    as (Hlen & Hdesc & Hsub & _).
  destruct (errorPagesInv_scanLinks (statusMapOf crawlRunId db)
              (internalLinksOf crawlRunId db)) as (Hnd & Hall & Hcov).
  fold (errorPageCountsOf crawlRunId db) in Hnd, Hall, Hcov.
  rewrite Forall_forall in Hall.
  split; [exact Hlen|]. split; [exact Hdesc|]. split; [|split].
  - eapply sublist_NoDup; [|apply fmap_sublist, sublist_take].
    by rewrite sort_perm.
  - intros e He. destruct (Hall e (Hsub e He)) as (Hm & Hs & Hc1 & Hc).
    split; [exact Hs|]. split; [|done].
    apply recordStatus_sound in Hm as [Hm | (p & Hp & Hu & Hst)].
    + by rewrite lookup_empty in Hm.
    + by exists p.
  - intros l s e Hl Hm Hs Hnot He.
    destruct (proj1 (list_elem_of_fmap _ _ _) (Hcov l s Hl Hm Hs)) as (e0 & Hu & He0).
    destruct (Hall e0 He0) as (_ & _ & _ & Hc0). rewrite Hu, <- Hc0.
    apply (top_ten_dominates ep_count (errorPageCountsOf crawlRunId db)); try done.
    intros Hin. apply Hnot. rewrite Hu. by apply list_elem_of_fmap_2.
Qed.

End ErrorPages.

(** ** The post-processor: running it again *)

Section PostProcessAgain.
Import Store PostProcess.

Lemma applyUpdates_setLinks ups : forall db,
  applyUpdates ups db = setLinks (fmap (applyRow ups)) db.
Proof.
  unfold applyUpdates, applyRow. induction ups as [|u ups IH]; intros db.
  - destruct db. unfold setLinks. simpl. f_equal. by rewrite list_fmap_id.
  - simpl. rewrite IH. unfold link_update, setLinks. simpl. f_equal.
    by rewrite <- list_fmap_compose.
Qed.

(** The updates either leave the rows of an id alone or overwrite their two
    columns with the status of the last update for that id. *)
Lemma applyRow_cons u ups l :
  applyRow (u :: ups) l
  = applyRow ups (if bool_decide (link_id l = u.1) then withBroken u.2 l else l).
Proof. reflexivity. Qed.

Lemma applyRow_cases ups : forall i,
  (forall l, link_id l = i -> applyRow ups l = l)
  \/ (exists s, forall l, link_id l = i -> applyRow ups l = withBroken s l).
Proof.
  induction ups as [|u ups IH]; intros i; [by left|].
  destruct (decide (i = u.1)) as [Hid|Hid].
  - right. destruct (IH i) as [Hsame|(s & Hs)].
    + exists u.2. intros l Hl. rewrite applyRow_cons.
      rewrite bool_decide_eq_true_2 by congruence. by apply Hsame.
    + exists s. intros l Hl. rewrite applyRow_cons.
      rewrite bool_decide_eq_true_2 by congruence. by rewrite (Hs (withBroken u.2 l) Hl).
  - destruct (IH i) as [Hsame|(s & Hs)]; [left|right; exists s]; intros l Hl;
      rewrite applyRow_cons; rewrite bool_decide_eq_false_2 by congruence; auto.
Qed.

Lemma applyRow_twice ups l : applyRow ups (applyRow ups l) = applyRow ups l.
Proof.
  destruct (applyRow_cases ups (link_id l)) as [Hsame|(s & Hs)].
  - rewrite (Hsame l eq_refl). apply (Hsame l eq_refl).
  - rewrite (Hs l eq_refl). apply (Hs (withBroken s l) eq_refl).
Qed.

Lemma scanLink_applyRow m ups acc l :
  scanLink m acc (applyRow ups l) = scanLink m acc l.
Proof.
  unfold scanLink. destruct acc as [us eps].
  destruct (applyRow_fields ups l) as (_ & _ & ->). by rewrite applyRow_id.
Qed.

Lemma scanLinks_applyRow m ups ls :
  scanLinks m (applyRow ups <$> ls) = scanLinks m ls.
Proof.
  unfold scanLinks. generalize (@nil (string * Z), @nil ErrorPage).
  induction ls as [|l ls IH]; intros acc; [reflexivity|].
  rewrite fmap_cons. cbn [foldl]. rewrite scanLink_applyRow. apply IH.
Qed.

Lemma internalLinksOf_after crawlRunId db :
  internalLinksOf crawlRunId (postProcessCrawl crawlRunId db).2
  = applyRow (updatesOf crawlRunId db) <$> internalLinksOf crawlRunId db.
Proof.
  unfold internalLinksOf. rewrite links_after.
  induction (links db) as [|l ls IH]; [reflexivity|].
  rewrite fmap_cons, !filter_cons, IH.
  destruct (applyRow_fields (updatesOf crawlRunId db) l) as (-> & -> & _).
  by destruct (decide _).
Qed.

Lemma pagesOf_after crawlRunId db :
  pagesOf crawlRunId (postProcessCrawl crawlRunId db).2 = pagesOf crawlRunId db.
Proof. unfold pagesOf. by rewrite postProcessCrawl_db, applyUpdates_pages. Qed.

Lemma scanLinks_after crawlRunId db :
  scanLinks (statusMapOf crawlRunId (postProcessCrawl crawlRunId db).2)
            (internalLinksOf crawlRunId (postProcessCrawl crawlRunId db).2)
  = scanLinks (statusMapOf crawlRunId db) (internalLinksOf crawlRunId db).
Proof.
  unfold statusMapOf. rewrite pagesOf_after, internalLinksOf_after.
  apply scanLinks_applyRow.
Qed.

Lemma updatesOf_after crawlRunId db :
  updatesOf crawlRunId (postProcessCrawl crawlRunId db).2 = updatesOf crawlRunId db.
Proof.
  unfold updatesOf. rewrite <- !scanLinks_updates. by rewrite scanLinks_after.
Qed.

Lemma postProcessCrawl_db_again crawlRunId db :
  (postProcessCrawl crawlRunId (postProcessCrawl crawlRunId db).2).2
  = (postProcessCrawl crawlRunId db).2.
Proof.
  rewrite (postProcessCrawl_db crawlRunId (postProcessCrawl crawlRunId db).2).
  fold (updatesOf crawlRunId (postProcessCrawl crawlRunId db).2).
  rewrite updatesOf_after, postProcessCrawl_db.
  fold (updatesOf crawlRunId db). rewrite !applyUpdates_setLinks.
  unfold setLinks. simpl. f_equal. rewrite <- list_fmap_compose.
  apply list_fmap_ext. intros k l _. apply applyRow_twice.
Qed.

(** X9. Post-processing a run a second time changes nothing: it returns the
    same totals, and it leaves every table as the first pass left it. *)
Theorem postProcessCrawl_idempotent crawlRunId db :
  postProcessCrawl crawlRunId (postProcessCrawl crawlRunId db).2
  = postProcessCrawl crawlRunId db.
Proof.
  rewrite (surjective_pairing (postProcessCrawl crawlRunId (postProcessCrawl crawlRunId db).2)).
  rewrite (surjective_pairing (postProcessCrawl crawlRunId db)) at 3.
  f_equal; [|apply postProcessCrawl_db_again].
  rewrite !postProcessCrawl_fields, !postProcessCrawl_db_again.
  unfold errorPageCountsOf. rewrite scanLinks_after, updatesOf_after, pagesOf_after.
  rewrite internalLinksOf_after, length_fmap. reflexivity.
Qed.

End PostProcessAgain.

(** ** The issue summary *)

Section Tally.
Context {A : Type}.
Variable f : A -> string.

(** The counter table after the loop [for (const x of l) o[f x] = (o[f x] ?? 0) + 1]. *)
Definition tally (l : list A) : list (string * Z) :=
  foldl (fun o x => Js.bump (f x) o) [] l.

Definition occurrences (k : string) (l : list A) : Z :=
  Z.of_nat (List.length (filter (fun x => f x = k) l)).

Definition sumCounts (o : list (string * Z)) : Z := foldr Z.add 0 o.*2.

Definition tallyInv (l : list A) (o : list (string * Z)) : Prop :=
  NoDup o.*1
  /\ Forall (fun e => 1 <= e.2 /\ e.2 = occurrences e.1 l) o
  /\ (forall x, x ∈ l -> f x ∈ o.*1)
  /\ sumCounts o = Z.of_nat (List.length l).

Lemma occurrences_snoc k l x :
  occurrences k (l ++ [x]) = occurrences k l + (if decide (f x = k) then 1 else 0).
Proof.
  unfold occurrences. rewrite filter_app, length_app, filter_cons, filter_nil.
  destruct (decide (f x = k)); simpl; lia.
Qed.

Lemma occurrences_zero k l : (forall x, x ∈ l -> f x <> k) -> occurrences k l = 0.
Proof.
  intros Hno. unfold occurrences.
  destruct (filter (fun x => f x = k) l) as [|x rest] eqn:Hf; [reflexivity|].
  exfalso. assert (Hx : x ∈ filter (fun x => f x = k) l) by (rewrite Hf; by left).
  apply list_elem_of_filter in Hx as [Hk Hx]. by apply (Hno x Hx).
Qed.

Lemma occurrences_pos k l x : x ∈ l -> f x = k -> 1 <= occurrences k l.
Proof.
  intros Hx Hk. unfold occurrences.
  assert (Hin : x ∈ filter (fun x => f x = k) l) by by apply list_elem_of_filter.
  destruct (filter (fun x => f x = k) l); [by apply elem_of_nil in Hin|].
  rewrite length_cons. lia.
Qed.

Lemma bump_keys k o :
  k ∈ (Js.bump k o).*1
  /\ (forall u, u ∈ o.*1 -> u ∈ (Js.bump k o).*1)
  /\ (forall u, u ∈ (Js.bump k o).*1 -> u = k \/ u ∈ o.*1).
Proof.
  induction o as [|[k' n] o (IH1 & IH2 & IH3)]; simpl.
  - split; [by left|]. split; [intros u Hu; by apply elem_of_nil in Hu|].
    intros u Hu. apply list_elem_of_singleton in Hu. by left.
  - destruct (String.eqb_spec k' k) as [He|He]; simpl.
    + subst k'. split; [by left|]. split; [done|]. intros u Hu. by right.
    + split; [by right|]. split.
      * intros u Hu. apply elem_of_cons in Hu as [->|Hu]; [by left|right; by apply IH2].
      * intros u Hu. apply elem_of_cons in Hu as [->|Hu]; [right; by left|].
        destruct (IH3 u Hu) as [->|H]; [by left|right; by right].
Qed.

Lemma bump_NoDup k o : NoDup o.*1 -> NoDup (Js.bump k o).*1.
Proof.
  induction o as [|[k' n] o IH]; simpl; intros Hnd.
  - apply NoDup_singleton.
  - apply NoDup_cons in Hnd as [Hne Hnd].
    destruct (String.eqb_spec k' k) as [He|He]; simpl.
    + by apply NoDup_cons.
    + apply NoDup_cons. split; [|by apply IH].
      intros Hin. destruct (bump_keys k o) as (_ & _ & H3).
      destruct (H3 _ Hin) as [H|H]; [by apply He | by apply Hne].
Qed.

Lemma bump_entries k o :
  NoDup o.*1 ->
  forall e', e' ∈ Js.bump k o ->
    (e' ∈ o /\ e'.1 <> k)
    \/ (exists n, (k, n) ∈ o /\ e' = (k, n + 1))
    \/ ((k ∉ o.*1) /\ e' = (k, 1)).
Proof.
  induction o as [|[k' n] o IH]; simpl; intros Hnd e' He'.
  - apply list_elem_of_singleton in He'. subst e'. right; right.
    split; [apply not_elem_of_nil|done].
  - apply NoDup_cons in Hnd as [Hne Hnd].
    destruct (String.eqb_spec k' k) as [He|He].
    + subst k'. apply elem_of_cons in He' as [->|He'].
      * right; left. exists n. split; [by left|done].
      * left. split; [by right|]. intros Hu. apply Hne. rewrite <- Hu.
        by apply (list_elem_of_fmap_2 fst).
    + apply elem_of_cons in He' as [->|He'].
      * left. split; [by left|done].
      * destruct (IH Hnd e' He') as [[Hin Hu]|[(n0 & Hin & H)|(Hnot & H)]].
        -- left. split; [by right|done].
        -- right; left. exists n0. split; [by right|done].
        -- right; right. split; [|done]. intros Hin.
           apply elem_of_cons in Hin as [Hin|Hin]; [by apply He | by apply Hnot].
Qed.

Lemma bump_sum k o : sumCounts (Js.bump k o) = sumCounts o + 1.
Proof.
  unfold sumCounts. induction o as [|[k' n] o IH]; [reflexivity|].
  cbn [Js.bump]. destruct (String.eqb k' k); rewrite !fmap_cons; cbn [foldr snd]; lia.
Qed.

Lemma tallyInv_step l o x : tallyInv l o -> tallyInv (l ++ [x]) (Js.bump (f x) o).
Proof.
  intros (Hnd & Hall & Hcov & Hsum).
  destruct (bump_keys (f x) o) as (H1 & H2 & H3).
  split; [by apply bump_NoDup|]. split; [|split].
  - rewrite Forall_forall in Hall |- *. intros e' He'. rewrite occurrences_snoc.
    destruct (bump_entries (f x) o Hnd e' He')
      as [[Hin Hu]|[(n & Hin & ->)|(Hnot & ->)]].
    + destruct (Hall e' Hin) as [? ?]. rewrite decide_False by done. lia.
    + destruct (Hall _ Hin) as [? ?]. simpl in *. rewrite decide_True by done. lia.
    + simpl. rewrite decide_True by done.
      rewrite occurrences_zero; [lia|].
      intros y Hy Hk. apply Hnot. rewrite <- Hk. by apply Hcov.
  - intros y Hy. apply elem_of_app in Hy as [Hy|Hy]; [by apply H2, Hcov|].
    apply list_elem_of_singleton in Hy. by subst y.
  - rewrite bump_sum, Hsum, length_app. simpl. lia.
Qed.

Lemma tallyInv_from l : forall l0 o,
  tallyInv l0 o -> tallyInv (l0 ++ l) (foldl (fun o x => Js.bump (f x) o) o l).
Proof.
  induction l as [|x l IH]; intros l0 o Hinv; simpl.
  - by rewrite app_nil_r.
  - replace (l0 ++ x :: l)%list with ((l0 ++ [x]) ++ l)%list by by rewrite <- app_assoc.
    by apply IH, tallyInv_step.
Qed.

Lemma tally_inv l : tallyInv l (tally l).
Proof.
  apply (tallyInv_from l [] []).
  split; [apply NoDup_nil_2|]. split; [constructor|]. split; [|reflexivity].
  intros x Hx. by apply elem_of_nil in Hx.
Qed.

(** The table holds exactly the keys that occur, each with the number of
    its occurrences. *)
Lemma tally_spec l k n :
  (k, n) ∈ tally l <-> 1 <= n /\ n = occurrences k l.
Proof.
  destruct (tally_inv l) as (Hnd & Hall & Hcov & _). rewrite Forall_forall in Hall.
  split.
  - intros Hin. apply (Hall _ Hin).
  - intros [Hn ->].
    assert (Hex : exists x, x ∈ l /\ f x = k).
    { unfold occurrences in Hn.
      destruct (filter (fun x => f x = k) l) as [|x rest] eqn:Hf; [simpl in Hn; lia|].
      assert (Hx : x ∈ filter (fun x => f x = k) l) by (rewrite Hf; by left).
      apply list_elem_of_filter in Hx as [Hk Hx]. by exists x. }
    destruct Hex as (x & Hx & Hk).
    pose proof (Hcov x Hx) as Hkey. rewrite Hk in Hkey.
    apply list_elem_of_fmap in Hkey as ([k' n'] & Hk' & Hin). simpl in Hk'. subst k'.
    destruct (Hall _ Hin) as [_ Hn']. simpl in Hn'. by rewrite <- Hn'.
Qed.

End Tally.

Section IssueSummary.
Import Store Summary.

Definition issuesOf (crawlRunId : string) (db : DB) : list Issue :=
  filter (fun i => issue_crawlRunId i = crawlRunId) (issues db).

(** The types the worker writes: the names of [IssueType]. The counters of
    [computeIssueSummary] are plain objects, keyed by whatever the [type]
    column holds; for a key that [Object.prototype] already has
    ([__proto__], [constructor], ...) the object does not count, which
    the tables of the model do not follow. *)
Definition typesOfRules (rows : list Issue) : Prop :=
  forall i, i ∈ rows -> exists t, issue_type i = Runner.typeName t.

(** X10. The issue summary counts the Issue rows of the run, when their
    types are those the worker writes:
    [issueCountTotal] is their number; [issueCountByType] and
    [issueCountBySeverity] hold, once each, exactly the types and the
    severities that occur, each with the number of rows that have it, so
    both tables sum to [issueCountTotal]; [topIssueTypes] lists at most ten
    entries of [issueCountByType], by descending count, and no type that is
    left out has a larger count than a listed one. *)
Theorem computeIssueSummary_counts crawlRunId db
    (Htypes : typesOfRules (issuesOf crawlRunId db)) :
  let summary := computeIssueSummary crawlRunId db in
  let rows := issuesOf crawlRunId db in
  issueCountTotal summary = Z.of_nat (List.length rows)
  /\ NoDup (issueCountByType summary).*1
  /\ (forall t n, (t, n) ∈ issueCountByType summary
                  <-> 1 <= n /\ n = occurrences issue_type t rows)
  /\ NoDup (issueCountBySeverity summary).*1
  /\ (forall v n, (v, n) ∈ issueCountBySeverity summary
                  <-> 1 <= n /\ n = occurrences (fun i => severityName (issue_severity i)) v rows)
  /\ sumCounts (issueCountByType summary) = issueCountTotal summary
  /\ sumCounts (issueCountBySeverity summary) = issueCountTotal summary
  /\ (List.length (topIssueTypes summary) <= 10)%nat
  /\ descending snd (topIssueTypes summary)
  /\ (forall e, e ∈ topIssueTypes summary -> e ∈ issueCountByType summary)
  /\ (forall e e', e ∈ issueCountByType summary -> e ∉ topIssueTypes summary ->
                   e' ∈ topIssueTypes summary -> e.2 <= e'.2).
Proof.
  cbv zeta. unfold computeIssueSummary.
  fold (issuesOf crawlRunId db).
  cbn [issueCountTotal issueCountByType issueCountBySeverity topIssueTypes].
  fold (tally issue_type (issuesOf crawlRunId db)).
  fold (tally (fun i => severityName (issue_severity i)) (issuesOf crawlRunId db)).
  destruct (tally_inv issue_type (issuesOf crawlRunId db)) as (Hnd & _ & _ & Hsum).
  destruct (tally_inv (fun i => severityName (issue_severity i)) (issuesOf crawlRunId db))
    as (Hnd' & _ & _ & Hsum').
  destruct (top_ten_spec snd (tally issue_type (issuesOf crawlRunId db)))
    as (Hlen & Hdesc & Hsub & _).
  split; [reflexivity|]. split; [exact Hnd|]. split; [apply tally_spec|].
  split; [exact Hnd'|]. split; [apply tally_spec|].
  split; [exact Hsum|]. split; [exact Hsum'|].
  split; [exact Hlen|]. split; [exact Hdesc|]. split; [exact Hsub|].
  intros e e' He Hnot He'.
  by apply (top_ten_dominates snd (tally issue_type (issuesOf crawlRunId db))).
Qed.

(** The issues of a page that answered 404 and has no title, and of a
    second page without a title. *)
Definition issueOf (id pageId : string) (t : Issues.IssueType) (sev : Issues.Severity)
    : Issue :=
  {| issue_id := id; issue_crawlRunId := "run1"; issue_pageId := Some pageId;
     issue_type := Runner.typeName t; issue_severity := sev;
     issue_title := ""; issue_description := ""; issue_recommendation := "";
     issue_evidenceJson := JObj ∅ |}.

Definition dbThreeIssues : DB :=
  setIssues (fun _ => [issueOf "i1" "p2" Issues.STATUS_4XX_5XX Issues.CRITICAL;
                       issueOf "i2" "p2" Issues.MISSING_TITLE Issues.HIGH;
                       issueOf "i3" "p1" Issues.MISSING_TITLE Issues.HIGH])
            dbTwoPages.

Lemma computeIssueSummary_counts_witness :
  let summary := computeIssueSummary "run1" dbThreeIssues in
  issueCountTotal summary = 3
  /\ issueCountByType summary = [("STATUS_4XX_5XX", 1); ("MISSING_TITLE", 2)]
  /\ topIssueTypes summary = [("MISSING_TITLE", 2); ("STATUS_4XX_5XX", 1)]
  /\ sumCounts (issueCountByType summary) = issueCountTotal summary
  /\ sumCounts (issueCountBySeverity summary) = issueCountTotal summary.
Proof.
  cbv zeta.
  assert (Htypes : typesOfRules (issuesOf "run1" dbThreeIssues)).
  { intros i Hi.
    change (issuesOf "run1" dbThreeIssues)
      with [issueOf "i1" "p2" Issues.STATUS_4XX_5XX Issues.CRITICAL;
            issueOf "i2" "p2" Issues.MISSING_TITLE Issues.HIGH;
            issueOf "i3" "p1" Issues.MISSING_TITLE Issues.HIGH] in Hi.
    rewrite !elem_of_cons, elem_of_nil in Hi.
    destruct Hi as [-> | [-> | [-> | []]]]; eexists; reflexivity. }
  destruct (computeIssueSummary_counts "run1" dbThreeIssues Htypes)
    as (_ & _ & _ & _ & _ & Hsum & Hsum' & _).
  split; [reflexivity|]. split; [reflexivity|]. split; [reflexivity|].
  split; [exact Hsum | exact Hsum'].
Defined.

End IssueSummary.

(** ** The run's row through a crawl *)

Section RunRow.
Import Store Runner Lifecycle.

(** The keys of [totalsJson] after a crawl that ran to its end. *)
Definition totalsKeys : list string :=
  ["pagesCount"; "linksCount"; "internalLinksCount"; "externalLinksCount";
   "brokenInternalLinksCount"; "statusCodeDistribution"; "topErrorPages";
   "issueCountTotal"; "issueCountByType"; "issueCountBySeverity"; "topIssueTypes"].

(** [r'] is [r] but for its totals. *)
Definition sameButTotals (r r' : CrawlRun) : Prop :=
  run_id r' = run_id r /\ run_projectId r' = run_projectId r
  /\ run_status r' = run_status r /\ run_createdAt r' = run_createdAt r
  /\ run_startedAt r' = run_startedAt r /\ run_finishedAt r' = run_finishedAt r.

Lemma sameButTotals_refl r : sameButTotals r r.
Proof. by repeat split. Qed.

Lemma crawlRun_update_own id f d r :
  crawlRuns d !! id = Some r ->
  crawlRun_update id f d = Some (setCrawlRuns (insert id (f r)) d).
Proof. unfold crawlRun_update. by intros ->. Qed.

Lemma generateGlobalIssues_pages id d :
  pages (GlobalIssues.generateGlobalIssues id d) = pages d.
Proof.
  unfold GlobalIssues.generateGlobalIssues, GlobalIssues.detectDuplicateTitles.
  destruct (filter _ _); [reflexivity|].
  destruct (_ ≫= _); reflexivity.
Qed.

Lemma generateGlobalIssues_links id d :
  links (GlobalIssues.generateGlobalIssues id d) = links d.
Proof.
  unfold GlobalIssues.generateGlobalIssues, GlobalIssues.detectDuplicateTitles.
  destruct (filter _ _); [reflexivity|].
  destruct (_ ≫= _); reflexivity.
Qed.

Lemma totalsKeys_dom totals summary :
  dom (Summary.mergeSummary (Summary.spreadOf (PostProcess.totalsJson totals)) summary)
  = list_to_set totalsKeys.
Proof.
  unfold Summary.mergeSummary, PostProcess.totalsJson, Summary.spreadOf, totalsKeys.
  rewrite !dom_insert_L, dom_empty_L. cbn [list_to_set foldr].
  apply set_eq. intros k. rewrite !elem_of_union, !elem_of_singleton, elem_of_empty.
  tauto.
Qed.

Lemma totals_lookups totals summary :
  let m := Summary.mergeSummary (Summary.spreadOf (PostProcess.totalsJson totals)) summary in
  m !! "pagesCount" = Some (JNum (PostProcess.pagesCount totals))
  /\ m !! "linksCount" = Some (JNum (PostProcess.linksCount totals))
  /\ m !! "internalLinksCount" = Some (JNum (PostProcess.internalLinksCount totals))
  /\ m !! "externalLinksCount" = Some (JNum (PostProcess.externalLinksCount totals))
  /\ m !! "issueCountTotal" = Some (JNum (Summary.issueCountTotal summary)).
Proof.
  cbv zeta.
  assert (Hout : forall k, k ∈ ["pagesCount"; "linksCount"; "internalLinksCount";
                               "externalLinksCount"] -> k ∉ summaryKeys).
  { intros k Hk. unfold summaryKeys. rewrite !elem_of_cons, elem_of_nil in Hk.
    rewrite !not_elem_of_cons.
    destruct Hk as [-> | [-> | [-> | [-> | []]]]]; repeat split; try done;
      apply not_elem_of_nil. }
  split; [|split; [|split; [|split]]].
  - rewrite mergeSummary_frame by (apply Hout; rewrite !elem_of_cons; tauto). reflexivity.
  - rewrite mergeSummary_frame by (apply Hout; rewrite !elem_of_cons; tauto). reflexivity.
  - rewrite mergeSummary_frame by (apply Hout; rewrite !elem_of_cons; tauto). reflexivity.
  - rewrite mergeSummary_frame by (apply Hout; rewrite !elem_of_cons; tauto). reflexivity.
  - apply mergeSummary_keys.
Qed.

(** The tail of [runCrawl] on a run that exists: it returns, with the
    run's totals replaced by the crawl totals merged with the issue
    summary of the store as it is left. *)
Lemma postProcessing_shape crawlRunId d run :
  crawlRuns d !! crawlRunId = Some run ->
  exists d',
    postProcessing crawlRunId d = Returned d'
    /\ crawlRuns d' !! crawlRunId
       = Some (withTotals
                 (JObj (Summary.mergeSummary
                          (Summary.spreadOf
                             (PostProcess.totalsJson (PostProcess.postProcessCrawl crawlRunId d).1))
                          (Summary.computeIssueSummary crawlRunId d')))
                 run)
    /\ pages d' = pages d
    /\ links d' = links (PostProcess.postProcessCrawl crawlRunId d).2.
Proof.
  intros Hrun. unfold postProcessing.
  pose proof (postProcessCrawl_crawlRuns crawlRunId d) as Hruns.
  pose proof (postProcessCrawl_db crawlRunId d) as Hdb.
  destruct (PostProcess.postProcessCrawl crawlRunId d) as [totals d1].
  cbn [fst snd] in Hruns, Hdb |- *.
  assert (Hpages : pages d1 = pages d) by (rewrite Hdb; apply applyUpdates_pages).
  unfold PostProcess.saveCrawlTotals.
  rewrite (crawlRun_update_own crawlRunId _ d1 run) by (by rewrite Hruns).
  set (d2 := setCrawlRuns _ d1).
  set (d3 := GlobalIssues.generateGlobalIssues crawlRunId d2).
  assert (Hrun3 : crawlRuns d3 !! crawlRunId
                  = Some (withTotals (PostProcess.totalsJson totals) run)).
  { unfold d3. rewrite generateGlobalIssues_crawlRuns. unfold d2.
    cbn [crawlRuns setCrawlRuns]. apply lookup_insert_eq. }
  unfold Summary.saveIssueSummary. rewrite Hrun3.
  rewrite (crawlRun_update_own crawlRunId _ d3 _ Hrun3).
  change (run_totalsJson (withTotals (PostProcess.totalsJson totals) run))
    with (PostProcess.totalsJson totals).
  eexists. split; [reflexivity|].
  split; [cbn [crawlRuns setCrawlRuns]; by rewrite lookup_insert_eq|].
  cbn [pages links setCrawlRuns]. unfold d3.
  by rewrite generateGlobalIssues_pages, generateGlobalIssues_links.
Qed.

(** X11. The tail of [runCrawl] on a run that exists: it returns, and the
    totals it leaves on the run's row are an object with exactly the seven
    keys of the crawl totals and the four of the issue summary (whatever
    the row held before, such as the counters written when the run was
    created, is gone). The stored numbers describe the store as it is left:
    [pagesCount], [linksCount], [internalLinksCount], [externalLinksCount]
    and [issueCountTotal] are the numbers of Page rows, Link rows, internal
    and external Link rows and Issue rows of the run. Nothing else of the
    row changes, and the Page table is as it was. *)
Theorem postProcessing_totals crawlRunId d run
    (Hrun : crawlRuns d !! crawlRunId = Some run) :
  exists d' totals,
    postProcessing crawlRunId d = Returned d'
    /\ crawlRuns d' !! crawlRunId = Some (withTotals (JObj totals) run)
    /\ dom totals = list_to_set totalsKeys
    /\ totals !! "pagesCount" = Some (JNum (Z.of_nat (List.length (pagesOf crawlRunId d'))))
    /\ totals !! "linksCount" = Some (JNum (Z.of_nat (List.length (linksOf crawlRunId d'))))
    /\ totals !! "internalLinksCount"
       = Some (JNum (Z.of_nat (List.length (internalLinksOf crawlRunId d'))))
    /\ totals !! "externalLinksCount"
       = Some (JNum (Z.of_nat (List.length (externalLinksOf crawlRunId d'))))
    /\ totals !! "issueCountTotal"
       = Some (JNum (Z.of_nat (List.length (issuesOf crawlRunId d'))))
    /\ pages d' = pages d.
Proof.
  destruct (postProcessing_shape crawlRunId d run Hrun) as (d' & Hpost & Hrow & Hpages & Hlinks).
  exists d'. eexists. split; [exact Hpost|]. split; [exact Hrow|].
  split; [apply totalsKeys_dom|].
  destruct (totals_lookups (PostProcess.postProcessCrawl crawlRunId d).1
              (Summary.computeIssueSummary crawlRunId d')) as (Hk1 & Hk2 & Hk3 & Hk4 & Hk5).
  rewrite Hk1, Hk2, Hk3, Hk4, Hk5, postProcessCrawl_fields.
  cbn [PostProcess.pagesCount PostProcess.linksCount PostProcess.internalLinksCount
       PostProcess.externalLinksCount].
  assert (Hint : internalLinksOf crawlRunId d'
                 = internalLinksOf crawlRunId (PostProcess.postProcessCrawl crawlRunId d).2)
    by (unfold internalLinksOf; by rewrite Hlinks).
  split; [unfold pagesOf; by rewrite Hpages|].
  split; [unfold linksOf; by rewrite Hlinks|].
  split; [by rewrite Hint, internalLinksOf_after, length_fmap|].
  split; [unfold externalLinksOf; by rewrite Hlinks|].
  split; [reflexivity | exact Hpages].
Qed.

(** The theorem at Scenario B: two pages and three links, one of them
    external. *)
Lemma postProcessing_totals_witness :
  exists d' totals,
    postProcessing "run1" dbWithRun = Returned d'
    /\ crawlRuns d' !! "run1" = Some (withTotals (JObj totals) runScenarioB)
    /\ dom totals = list_to_set totalsKeys
    /\ totals !! "pagesCount" = Some (JNum 2)
    /\ totals !! "linksCount" = Some (JNum 3)
    /\ totals !! "externalLinksCount" = Some (JNum 1).
Proof.
  destruct (postProcessing_totals "run1" dbWithRun runScenarioB eq_refl)
    as (d' & totals & Hpost & Hrow & Hdom & Hpc & Hlc & _ & Hec & _ & Hpages).
  exists d', totals. split; [exact Hpost|]. split; [exact Hrow|]. split; [exact Hdom|].
  assert (Hd' : postProcessing "run1" dbWithRun = Returned d') by exact Hpost.
  vm_compute in Hd'. injection Hd' as <-.
  split; [exact Hpc|]. split; [exact Hlc | exact Hec].
Defined.

Lemma postProcessing_totals_run id d run :
  crawlRuns d !! id = Some run ->
  exists d' totals, postProcessing id d = Returned d'
                    /\ crawlRuns d' !! id = Some (withTotals (JObj totals) run).
Proof.
  intros Hrun. destruct (postProcessing_shape id d run Hrun) as (d' & H1 & H2 & _).
  exists d'. eexists. split; [exact H1 | exact H2].
Qed.

Lemma postProcessing_own id d run before :
  crawlRuns d !! id = Some run ->
  exists run', outcomeRuns (postProcessing id d) before !! id = Some run'
               /\ sameButTotals run run'.
Proof.
  intros Hrun. destruct (postProcessing_totals_run id d run Hrun) as (d' & totals & -> & Hrow).
  exists (withTotals (JObj totals) run). split; [exact Hrow | by repeat split].
Qed.

Lemma runCrawl_own env fuel pid id d run :
  crawlRuns d !! id = Some run ->
  exists run', outcomeRuns (runCrawl env fuel pid id d) (crawlRuns d) !! id = Some run'
               /\ sameButTotals run run'.
Proof.
  intros Hrun. unfold runCrawl.
  destruct (projects d !! pid) as [project|];
    [|exists run; split; [exact Hrun | apply sameButTotals_refl]].
  rewrite Hrun.
  destruct (normalizeUrl env _ _) as [start|];
    [|exists run; split; [exact Hrun | apply sameButTotals_refl]].
  destruct (String.eqb start "");
    [exists run; split; [exact Hrun | apply sameButTotals_refl]|].
  destruct (bfsLoop _ _ _ _ _ _) as [[[] s]|] eqn:Hloop.
  - apply bfsLoop_crawlRuns in Hloop. cbn [db initialState] in Hloop.
    rewrite cleanUp_crawlRuns in Hloop.
    exists run. split; [simpl; by rewrite Hloop | apply sameButTotals_refl].
  - apply bfsLoop_crawlRuns in Hloop. cbn [db initialState] in Hloop.
    rewrite cleanUp_crawlRuns in Hloop.
    apply postProcessing_own. by rewrite Hloop.
  - exists run. split; [exact Hrun | apply sameButTotals_refl].
Qed.

(** How [processJob] leaves the row of its run, when the run exists and is
    not CANCELED. *)
Lemma processJob_own env fuel t0 t1 job d run :
  crawlRuns d !! crawlRunId job = Some run ->
  run_status run <> CANCELED ->
  match processJob env fuel t0 t1 job d with
  | Resolved d' =>
      exists run', crawlRuns d' !! crawlRunId job = Some run'
                   /\ run_status run' = DONE
                   /\ run_startedAt run' = Some t0 /\ run_finishedAt run' = Some t1
                   /\ run_projectId run' = run_projectId run
                   /\ run_createdAt run' = run_createdAt run
  | Rejected message d' =>
      exists run', crawlRuns d' !! crawlRunId job = Some run'
                   /\ run_status run' = FAILED
                   /\ run_startedAt run' = Some t0 /\ run_finishedAt run' = Some t1
                   /\ run_projectId run' = run_projectId run
                   /\ run_createdAt run' = run_createdAt run
                   /\ run_totalsJson run' = JObj {["lastErrorMessage" := JStr message]}
  | Unfinished => True
  end.
Proof.
  intros Hrun Hst. unfold processJob. rewrite Hrun.
  rewrite bool_decide_eq_false_2 by done.
  rewrite (crawlRun_update_own _ _ d run Hrun).
  set (d1 := setCrawlRuns _ d).
  assert (Hrun1 : crawlRuns d1 !! crawlRunId job = Some (markRunning t0 run)).
  { unfold d1. cbn [crawlRuns setCrawlRuns]. apply lookup_insert_eq. }
  destruct (runCrawl_own env fuel (projectId job) (crawlRunId job) d1 _ Hrun1)
    as (run2 & Hrun2 & _ & Hp & Hs & Hc & Hsa & Hf).
  assert (Hfail : forall message d2,
            crawlRuns d2 !! crawlRunId job = Some run2 ->
            exists run', match onError t1 (crawlRunId job) message d2 with
                         | Rejected m d' =>
                             m = message /\ crawlRuns d' !! crawlRunId job = Some run'
                         | _ => False
                         end
                         /\ run' = markFailed t1 message run2).
  { intros message d2 H2. exists (markFailed t1 message run2). unfold onError.
    rewrite (crawlRun_update_own _ _ d2 run2 H2). cbn [crawlRuns setCrawlRuns].
    by rewrite lookup_insert_eq. }
  destruct (runCrawl env fuel (projectId job) (crawlRunId job) d1) as [d2|message d2|];
    cbn [outcomeRuns] in Hrun2; [| |exact I].
  - rewrite Hrun2. rewrite bool_decide_eq_false_2 by (rewrite Hs; discriminate).
    rewrite (crawlRun_update_own _ _ d2 run2 Hrun2).
    exists (markDone t1 run2). cbn [crawlRuns setCrawlRuns].
    rewrite lookup_insert_eq. repeat split; try done.
  - destruct (Hfail message d2 Hrun2) as (run' & Hres & ->).
    destruct (onError t1 (crawlRunId job) message d2) as [|m d'|]; try done.
    destruct Hres as [-> Hrow]. exists (markFailed t1 message run2).
    repeat split; try done.
Qed.

(** X12. A job for a run that exists and is not CANCELED ends with the run
    in a final state (no other writer interleaving): the call resolves or
    rejects once enough passes are allowed; when it resolves the run is
    DONE, when it rejects the run is FAILED and its totals are the
    rejection's message under [lastErrorMessage]; either way [startedAt]
    and [finishedAt] are the two clock readings, and the run's project and
    creation time are kept. *)
Theorem processJob_finishes_run env t0 t1 job d run
    (Hrun : crawlRuns d !! crawlRunId job = Some run)
    (Hstatus : run_status run <> CANCELED) :
  (exists fuel, processJob env fuel t0 t1 job d <> Unfinished)
  /\ forall fuel,
       match processJob env fuel t0 t1 job d with
       | Resolved d' =>
           exists run', crawlRuns d' !! crawlRunId job = Some run'
                        /\ run_status run' = DONE
                        /\ run_startedAt run' = Some t0 /\ run_finishedAt run' = Some t1
                        /\ run_projectId run' = run_projectId run
                        /\ run_createdAt run' = run_createdAt run
       | Rejected message d' =>
           exists run', crawlRuns d' !! crawlRunId job = Some run'
                        /\ run_status run' = FAILED
                        /\ run_startedAt run' = Some t0 /\ run_finishedAt run' = Some t1
                        /\ run_projectId run' = run_projectId run
                        /\ run_createdAt run' = run_createdAt run
                        /\ run_totalsJson run' = JObj {["lastErrorMessage" := JStr message]}
       | Unfinished => True
       end.
Proof.
  split; [apply processJob_ends|].
  intros fuel. by apply processJob_own.
Qed.

Lemma processJob_finishes_run_witness :
  (exists fuel, processJob (urlEnv linkingFetch) fuel 5 6 jobA (dbWithStatus QUEUED)
                <> Unfinished)
  /\ match processJob (urlEnv linkingFetch) 10 5 6 jobA (dbWithStatus QUEUED) with
     | Resolved d' =>
         exists run', crawlRuns d' !! "run1" = Some run' /\ run_status run' = DONE
                      /\ run_startedAt run' = Some 5%nat /\ run_finishedAt run' = Some 6%nat
     | _ => False
     end.
Proof.
  assert (Hrun : crawlRuns (dbWithStatus QUEUED) !! crawlRunId jobA = Some (runWith QUEUED))
    by reflexivity.
  assert (Hst : run_status (runWith QUEUED) <> CANCELED) by discriminate.
  destruct (processJob_finishes_run (urlEnv linkingFetch) 5%nat 6%nat jobA
              (dbWithStatus QUEUED) (runWith QUEUED) Hrun Hst) as [Hends Hall].
  split; [exact Hends|].
  specialize (Hall 10%nat).
  destruct (processJob (urlEnv linkingFetch) 10 5 6 jobA (dbWithStatus QUEUED))
    as [d'|m d'|] eqn:Hjob.
  - clear Hjob. destruct Hall as (run' & H1 & H2 & H3 & H4 & _).
    exists run'. repeat split; assumption.
  - exfalso. vm_compute in Hjob. discriminate.
  - exfalso. vm_compute in Hjob. discriminate.
Defined.

(** ** One active run per project *)

(** No project has two runs that are QUEUED or RUNNING. *)
Definition oneActivePerProject (runs : gmap string CrawlRun) : Prop :=
  forall k1 k2 r1 r2,
    runs !! k1 = Some r1 -> runs !! k2 = Some r2 ->
    run_projectId r1 = run_projectId r2 ->
    isActive (run_status r1) = true -> isActive (run_status r2) = true ->
    k1 = k2.

Lemma oneActive_shrinks (runs runs' : gmap string CrawlRun) :
  (forall k r', runs' !! k = Some r' -> isActive (run_status r') = true ->
     exists r, runs !! k = Some r /\ run_projectId r = run_projectId r'
               /\ isActive (run_status r) = true) ->
  oneActivePerProject runs -> oneActivePerProject runs'.
Proof.
  intros Hsub Hone k1 k2 r1 r2 H1 H2 Hp Ha1 Ha2.
  destruct (Hsub k1 r1 H1 Ha1) as (q1 & Hq1 & Hp1 & Hb1).
  destruct (Hsub k2 r2 H2 Ha2) as (q2 & Hq2 & Hp2 & Hb2).
  apply (Hone k1 k2 q1 q2); try done. congruence.
Qed.

Lemma findActive_None pid d :
  findActive pid d = None <->
  (forall k r, crawlRuns d !! k = Some r -> run_projectId r = pid ->
               isActive (run_status r) = false).
Proof.
  unfold findActive. rewrite fmap_None. split.
  - intros Hnone k r Hk Hp.
    pose proof (find_none _ _ Hnone (k, r)) as Hf. cbn [snd] in Hf.
    rewrite <- list_elem_of_In, elem_of_map_to_list in Hf. specialize (Hf Hk).
    apply andb_false_iff in Hf as [Hf|Hf]; [|exact Hf].
    rewrite Hp, String.eqb_refl in Hf. discriminate.
  - intros Hall.
    destruct (List.find _ _) as [[k r]|] eqn:Hfind; [|reflexivity].
    apply find_some in Hfind as [Hin Hf]. cbn [snd] in Hf.
    apply list_elem_of_In, elem_of_map_to_list in Hin.
    apply andb_true_iff in Hf as [Hp Ha]. apply String.eqb_eq in Hp.
    rewrite (Hall k r Hin Hp) in Ha. discriminate.
Qed.

Lemma findActive_Some pid d r :
  findActive pid d = Some r ->
  exists k, crawlRuns d !! k = Some r /\ run_projectId r = pid
            /\ isActive (run_status r) = true.
Proof.
  unfold findActive. intros H. apply fmap_Some in H as ([k r'] & Hfind & ->).
  apply find_some in Hfind as [Hin Hf]. cbn [snd] in *.
  apply list_elem_of_In, elem_of_map_to_list in Hin.
  apply andb_true_iff in Hf as [Hp Ha]. apply String.eqb_eq in Hp.
  by exists k.
Qed.

Lemma oneActive_insert_new runs k pid t by_ :
  runs !! k = None ->
  (forall k' r, runs !! k' = Some r -> run_projectId r = pid ->
                isActive (run_status r) = false) ->
  oneActivePerProject runs ->
  oneActivePerProject (<[k := newRun k pid by_ t]> runs).
Proof.
  intros Hfresh Hnone Hone k1 k2 r1 r2 H1 H2 Hp Ha1 Ha2.
  destruct (decide (k1 = k)) as [->|Hk1]; destruct (decide (k2 = k)) as [->|Hk2];
    [reflexivity| | |].
  - exfalso. rewrite lookup_insert_eq in H1. injection H1 as <-.
    rewrite lookup_insert_ne in H2 by done.
    rewrite (Hnone k2 r2 H2) in Ha2; [discriminate | by rewrite <- Hp].
  - exfalso. rewrite lookup_insert_eq in H2. injection H2 as <-.
    rewrite lookup_insert_ne in H1 by done.
    rewrite (Hnone k1 r1 H1) in Ha1; [discriminate | by rewrite Hp].
  - rewrite lookup_insert_ne in H1, H2 by done. by apply (Hone k1 k2 r1 r2).
Qed.

Lemma runNow_runs role userId newId t pid d d' job :
  runNow role userId newId t pid d = inr (d', job) ->
  findActive pid d = None /\ crawlRuns d !! newId = None
  /\ d' = setCrawlRuns (insert newId (newRun newId pid userId t)) d
  /\ job = {| crawlRunId := newId; projectId := pid |}.
Proof.
  unfold runNow, crawlRun_create. intros H.
  destruct (projects d !! pid); [|discriminate].
  destruct role as [[]|]; try discriminate.
  all: destruct (findActive pid d); [discriminate|].
  all: destruct (crawlRuns d !! newId); [discriminate|].
  all: by injection H as <- <-.
Qed.

Lemma runScheduled_runs newId t pid d d' job :
  runScheduled newId t pid d = inr (Some (d', job)) ->
  findActive pid d = None /\ crawlRuns d !! newId = None
  /\ d' = setCrawlRuns (insert newId (newRun newId pid "scheduler" t)) d
  /\ job = {| crawlRunId := newId; projectId := pid |}.
Proof.
  unfold runScheduled, hasActiveCrawl, crawlRun_create. intros H.
  destruct (projects d !! pid); [|discriminate].
  destruct (findActive pid d); [discriminate|].
  destruct (crawlRuns d !! newId); [discriminate|].
  by injection H as <- <-.
Qed.

Lemma cancel_runs role t pid id d d' :
  cancel role t pid id d = inr d' ->
  exists k run, crawlRuns d !! k = Some run
                /\ d' = setCrawlRuns (insert k (markCanceled t run)) d.
Proof.
  unfold cancel. intros H.
  destruct (projects d !! pid); [|discriminate].
  destruct role as [[]|]; try discriminate.
  all: destruct (findRunToCancel pid id d) as [e|[k found]] eqn:Hfind; [discriminate|].
  all: apply findRunToCancel_lookup in Hfind.
  all: destruct (_ || _); [discriminate|].
  all: rewrite (crawlRun_update_own _ _ d found Hfind) in H.
  all: injection H as <-; by exists k, found.
Qed.

Lemma processJob_runs env fuel t0 t1 job d k r' :
  jobRuns (processJob env fuel t0 t1 job d) (crawlRuns d) !! k = Some r' ->
  isActive (run_status r') = true ->
  crawlRuns d !! k = Some r'.
Proof.
  intros Hk Ha. destruct (decide (k = crawlRunId job)) as [->|Hne];
    [|by rewrite processJob_other in Hk].
  destruct (crawlRuns d !! crawlRunId job) as [run|] eqn:Hrun.
  - destruct (decide (run_status run = CANCELED)) as [Hc|Hc].
    + unfold processJob in Hk. rewrite Hrun, bool_decide_eq_true_2 in Hk by done.
      cbn [jobRuns] in Hk. by rewrite Hrun in Hk.
    + pose proof (processJob_own env fuel t0 t1 job d run Hrun Hc) as Hown.
      destruct (processJob env fuel t0 t1 job d) as [d'|m d'|]; cbn [jobRuns] in Hk.
      * destruct Hown as (run' & Hrow & Hst & _). rewrite Hrow in Hk.
        injection Hk as <-. rewrite Hst in Ha. discriminate.
      * destruct Hown as (run' & Hrow & Hst & _). rewrite Hrow in Hk.
        injection Hk as <-. rewrite Hst in Ha. discriminate.
      * by rewrite Hrun in Hk.
  - unfold processJob in Hk. rewrite Hrun in Hk. cbn [jobRuns] in Hk.
    by rewrite Hrun in Hk.
Qed.

(** X13. "One active run per project" is kept by every operation on runs:
    if no project has two runs that are QUEUED or RUNNING, the same holds
    after a successful [runNow], [runScheduled] or [cancel], and after
    [processJob] however it ends. *)
Theorem active_runs_stay_unique d
    (Hone : oneActivePerProject (crawlRuns d)) :
  (forall role userId newId t pid d' job,
      runNow role userId newId t pid d = inr (d', job) ->
      oneActivePerProject (crawlRuns d'))
  /\ (forall newId t pid d' job,
        runScheduled newId t pid d = inr (Some (d', job)) ->
        oneActivePerProject (crawlRuns d'))
  /\ (forall role t pid id d',
        cancel role t pid id d = inr d' -> oneActivePerProject (crawlRuns d'))
  /\ (forall env fuel t0 t1 job,
        oneActivePerProject (jobRuns (processJob env fuel t0 t1 job d) (crawlRuns d))).
Proof.
  split; [|split; [|split]].
  - intros role userId newId t pid d' job H.
    apply runNow_runs in H as (Hnone & Hfresh & -> & _).
    cbn [crawlRuns setCrawlRuns]. apply oneActive_insert_new; try done.
    by apply findActive_None.
  - intros newId t pid d' job H.
    apply runScheduled_runs in H as (Hnone & Hfresh & -> & _).
    cbn [crawlRuns setCrawlRuns]. apply oneActive_insert_new; try done.
    by apply findActive_None.
  - intros role t pid id d' H. apply cancel_runs in H as (k & run & Hk & ->).
    cbn [crawlRuns setCrawlRuns]. eapply oneActive_shrinks; [|exact Hone].
    intros k' r' Hk' Ha. destruct (decide (k' = k)) as [->|Hne].
    + rewrite lookup_insert_eq in Hk'. injection Hk' as <-. discriminate.
    + rewrite lookup_insert_ne in Hk' by done. by exists r'.
  - intros env fuel t0 t1 job. eapply oneActive_shrinks; [|exact Hone].
    intros k r' Hk Ha. exists r'. split; [|done]. by eapply processJob_runs.
Qed.

Lemma active_runs_stay_unique_witness :
  oneActivePerProject (crawlRuns (dbWithStatus QUEUED))
  /\ oneActivePerProject
       (jobRuns (processJob (urlEnv linkingFetch) 10 5 6 jobA (dbWithStatus QUEUED))
                (crawlRuns (dbWithStatus QUEUED))).
Proof.
  assert (Hone : oneActivePerProject (crawlRuns (dbWithStatus QUEUED))).
  { intros k1 k2 r1 r2 H1 H2 _ _ _. cbn [crawlRuns dbWithStatus] in H1, H2.
    apply lookup_singleton_Some in H1 as [<- _].
    by apply lookup_singleton_Some in H2 as [<- _]. }
  split; [exact Hone|].
  exact (proj2 (proj2 (proj2 (active_runs_stay_unique (dbWithStatus QUEUED) Hone)))
           (urlEnv linkingFetch) 10%nat 5%nat 6%nat jobA).
Defined.

(** X14. [runNow] starts a run exactly when the project exists, the caller
    is an ADMIN or a MEMBER of its organisation, no run of the project is
    QUEUED or RUNNING and the generated id is new; the store then gains the
    one QUEUED run of that project, created at the given time, and the job
    names it. In particular a member's request while a run of the project
    is active is refused with a conflict. *)
Theorem runNow_starts_iff role userId newId t pid d d' job :
  runNow role userId newId t pid d = inr (d', job)
  <-> (is_Some (projects d !! pid)
       /\ (role = Some ADMIN \/ role = Some MEMBER)
       /\ (forall k r, crawlRuns d !! k = Some r -> run_projectId r = pid ->
                       run_status r <> QUEUED /\ run_status r <> RUNNING)
       /\ crawlRuns d !! newId = None
       /\ d' = setCrawlRuns (insert newId (newRun newId pid userId t)) d
       /\ job = {| crawlRunId := newId; projectId := pid |}).
Proof.
  assert (Hact : forall s, isActive s = false <-> s <> QUEUED /\ s <> RUNNING).
  { intros s. unfold isActive. rewrite orb_false_iff, !bool_decide_eq_false. tauto. }
  split.
  - intros H. pose proof (runNow_runs _ _ _ _ _ _ _ _ H) as (Hnone & Hfresh & Hd & Hj).
    split; [|split; [|split; [|done]]].
    + unfold runNow in H. by destruct (projects d !! pid).
    + unfold runNow in H. destruct (projects d !! pid); [|discriminate].
      destruct role as [[]|]; try discriminate; auto.
    + intros k r Hk Hp. apply Hact. by apply (proj1 (findActive_None pid d) Hnone k r).
  - intros ([p Hp] & Hrole & Hnone & Hfresh & -> & ->).
    unfold runNow, crawlRun_create. rewrite Hp.
    assert (Hfind : findActive pid d = None).
    { apply findActive_None. intros k r Hk Hpr. apply Hact. by apply (Hnone k r). }
    destruct Hrole as [-> | ->]; by rewrite Hfind, Hfresh.
Qed.

(** With a run of the project active, a member's [runNow] is a conflict. *)
Lemma runNow_conflict role userId newId t pid d k r :
  is_Some (projects d !! pid) -> role = Some ADMIN \/ role = Some MEMBER ->
  crawlRuns d !! k = Some r -> run_projectId r = pid ->
  isActive (run_status r) = true ->
  exists message, runNow role userId newId t pid d = inl (ConflictException message).
Proof.
  intros [p Hp] Hrole Hk Hpr Ha. unfold runNow. rewrite Hp.
  destruct (findActive pid d) as [existing|] eqn:Hfind.
  - destruct Hrole as [-> | ->]; eexists; reflexivity.
  - exfalso. rewrite (proj1 (findActive_None pid d) Hfind k r Hk Hpr) in Ha. discriminate.
Qed.
End RunRow.

(** ** The drafts of one page *)

Section Drafts.
Import Issues.

Lemma draft_types_sublist page extra rules :
  (type <$> omap (draftOf page extra) rules) `sublist_of` (rule_type <$> rules).
Proof.
  induction rules as [|r rules IH]; [constructor|].
  rewrite fmap_cons. cbn [omap list_omap]. fold (omap (draftOf page extra) rules).
  unfold draftOf at 1. destruct (evaluate r page extra).1.
  - rewrite fmap_cons. by apply sublist_skip.
  - by apply sublist_cons.
Qed.

(** Each type is drafted at most once, and only when its trigger holds. *)
Lemma countType_trigger page extra t :
  (countType t (evaluatePageIssues page extra) = 1%nat /\ trigger t page extra)
  \/ (countType t (evaluatePageIssues page extra) = 0%nat /\ ~ trigger t page extra).
Proof.
  pose proof rules_sound as Hsound. rewrite Forall_forall in Hsound.
  rewrite evaluatePageIssues_omap, countType_omap.
  destruct (decide (t ∈ rule_type <$> RULES)) as [Hin | Hout].
  - apply list_elem_of_fmap in Hin as (r & -> & Hin).
    rewrite (sum_types_in (fun r' => (evaluate r' page extra).1) RULES r
               rule_types_distinct Hin).
    destruct (Hsound r Hin) as [_ Hiff]. specialize (Hiff page extra).
    destruct (evaluate r page extra).1.
    + left. split; [reflexivity | by apply Hiff].
    + right. split; [reflexivity|]. intros H. apply Hiff in H. discriminate.
  - right. rewrite sum_types_out by done. split; [reflexivity|].
    apply absent_type in Hout as ->. simpl. tauto.
Qed.

Lemma countType_cons t d l :
  countType t (d :: l)
  = ((if decide (type d = t) then 1 else 0) + countType t l)%nat.
Proof.
  unfold countType. rewrite filter_cons. by destruct (decide (type d = t)).
Qed.

Lemma length_by_types (ts : list IssueType) (l : list IssueDraft) :
  NoDup ts -> (forall d, d ∈ l -> type d ∈ ts) ->
  List.length l = sum_list ((fun t => countType t l) <$> ts).
Proof.
  intros Hnd. induction l as [|d l IH]; intros Hin.
  - clear. induction ts as [|t ts IH]; [reflexivity|].
    rewrite fmap_cons. cbn [sum_list sum_list_with]. by rewrite <- IH.
  - rewrite length_cons, IH by (intros d' Hd'; apply Hin; by right).
    assert (Hd : type d ∈ ts) by (apply Hin; by left).
    clear IH Hin. induction ts as [|t ts IHts]; [by apply elem_of_nil in Hd|].
    apply NoDup_cons in Hnd as [Hfresh Hnd].
    rewrite !fmap_cons. cbn [sum_list sum_list_with]. rewrite countType_cons.
    destruct (decide (type d = t)) as [Heq|Hne].
    + assert (Hrest : sum_list ((fun t0 => countType t0 (d :: l)) <$> ts)
                      = sum_list ((fun t0 => countType t0 l) <$> ts)).
      { subst t. clear -Hfresh. induction ts as [|t' ts IH']; [reflexivity|].
        apply not_elem_of_cons in Hfresh as [Hne Hfresh].
        rewrite !fmap_cons. cbn [sum_list sum_list_with]. rewrite IH' by done.
        by rewrite countType_cons, decide_False by done. }
      rewrite Hrest. cbn [id]. lia.
    + apply elem_of_cons in Hd as [Hd|Hd]; [done|].
      specialize (IHts Hnd Hd). cbn [id]. lia.
Qed.

(** X15. The drafts of a page come in the order of the rule table, no type
    twice. The two status rules exclude each other, and so do the three
    title rules and the two H1 rules, so a page gets at most nine drafts. *)
Theorem evaluatePageIssues_shape page extra :
  let drafts := evaluatePageIssues page extra in
  (type <$> drafts) `sublist_of` (rule_type <$> RULES)
  /\ NoDup (type <$> drafts)
  /\ (countType STATUS_4XX_5XX drafts + countType STATUS_3XX_REDIRECT drafts <= 1)%nat
  /\ (countType MISSING_TITLE drafts + countType TITLE_TOO_LONG drafts
      + countType TITLE_TOO_SHORT drafts <= 1)%nat
  /\ (countType H1_MISSING drafts + countType H1_MULTIPLE drafts <= 1)%nat
  /\ (List.length drafts <= 9)%nat.
Proof.
  cbv zeta.
  assert (Hsub : (type <$> evaluatePageIssues page extra) `sublist_of` (rule_type <$> RULES)).
  { rewrite evaluatePageIssues_omap. apply draft_types_sublist. }
  assert (Hstatus : (countType STATUS_4XX_5XX (evaluatePageIssues page extra)
                     + countType STATUS_3XX_REDIRECT (evaluatePageIssues page extra) <= 1)%nat).
  { destruct (countType_trigger page extra STATUS_4XX_5XX) as [[-> H1]|[-> _]];
      destruct (countType_trigger page extra STATUS_3XX_REDIRECT) as [[-> H2]|[-> _]];
      try lia.
    exfalso. cbn [trigger] in H1, H2. lia. }
  assert (Htitle : (countType MISSING_TITLE (evaluatePageIssues page extra)
                    + countType TITLE_TOO_LONG (evaluatePageIssues page extra)
                    + countType TITLE_TOO_SHORT (evaluatePageIssues page extra) <= 1)%nat).
  { destruct (countType_trigger page extra MISSING_TITLE) as [[-> H1]|[-> _]];
      destruct (countType_trigger page extra TITLE_TOO_LONG) as [[-> H2]|[-> _]];
      destruct (countType_trigger page extra TITLE_TOO_SHORT) as [[-> H3]|[-> _]];
      try lia; exfalso; cbn [trigger] in *;
      try (rewrite H1 in *); change (Js.length "") with 0 in *; lia. }
  assert (Hh1 : (countType H1_MISSING (evaluatePageIssues page extra)
                 + countType H1_MULTIPLE (evaluatePageIssues page extra) <= 1)%nat).
  { destruct (countType_trigger page extra H1_MISSING) as [[-> H1]|[-> _]];
      destruct (countType_trigger page extra H1_MULTIPLE) as [[-> H2]|[-> _]];
      try lia.
    exfalso. cbn [trigger] in H1, H2. lia. }
  split; [exact Hsub|]. split; [eapply sublist_NoDup; [apply rule_types_distinct | exact Hsub]|].
  split; [exact Hstatus|]. split; [exact Htitle|]. split; [exact Hh1|].
  rewrite (length_by_types (rule_type <$> RULES) _ rule_types_distinct).
  - rewrite rule_types. cbn [fmap list_fmap sum_list sum_list_with].
    assert (Hle : forall t, (countType t (evaluatePageIssues page extra) <= 1)%nat).
    { intros t. destruct (countType_trigger page extra t) as [[-> _]|[-> _]]; lia. }
    pose proof (Hle REDIRECT_CHAIN_LONG). pose proof (Hle MISSING_META_DESCRIPTION).
    pose proof (Hle CANONICAL_MISSING). pose proof (Hle ROBOTS_NOINDEX).
    pose proof (Hle THIN_CONTENT). pose proof (Hle IMAGES_MISSING_ALT).
    cbn [id]. lia.
  - intros d Hd. eapply elem_of_sublist; [|exact Hsub]. by apply list_elem_of_fmap_2.
Qed.

End Drafts.

(** ** The issues the loop records *)

Section CrawlIssues.
Import Store Runner.
Variable env : Env.
Variable crawlRunId : string.
Variable baseDomain : string.
Variable settings : CrawlSettings.

(** An Issue row as the loop writes it: of a page rule other than the
    redirect chain rule, with the severity of the table, and about a Page
    row of the run. *)
Definition pageIssue (d : DB) (i : Issue) : Prop :=
  (exists t, issue_type i = typeName t
             /\ issue_severity i = specSeverity t
             /\ t <> Issues.REDIRECT_CHAIN_LONG /\ t <> Issues.DUPLICATE_TITLE)
  /\ (exists p, p ∈ pages d /\ page_crawlRunId p = crawlRunId
                /\ issue_pageId i = Some (page_id p)).

Definition issuesInv (d : DB) : Prop :=
  forall i, i ∈ issues d -> issue_crawlRunId i = crawlRunId -> pageIssue d i.

Lemma draft_without_chain page extra d :
  Issues.redirectChainJson page = None ->
  d ∈ Issues.evaluatePageIssues page extra ->
  Issues.severity d = specSeverity (Issues.type d)
  /\ Issues.type d <> Issues.REDIRECT_CHAIN_LONG
  /\ Issues.type d <> Issues.DUPLICATE_TITLE.
Proof.
  intros Hchain Hd.
  assert (Htrig : trigger (Issues.type d) page extra).
  { destruct (countType_trigger page extra (Issues.type d)) as [[_ H]|[H _]]; [exact H|].
    exfalso. unfold countType in H.
    assert (Hin : d ∈ filter (fun d' => Issues.type d' = Issues.type d)
                             (Issues.evaluatePageIssues page extra))
      by by apply list_elem_of_filter.
    destruct (filter _ _); [by apply elem_of_nil in Hin | discriminate]. }
  split; [|split].
  - pose proof rules_sound as Hsound. rewrite Forall_forall in Hsound.
    rewrite evaluatePageIssues_omap in Hd.
    apply list_elem_of_omap in Hd as (r & Hin & Hr). unfold draftOf in Hr.
    destruct (Issues.evaluate r page extra).1; [|discriminate].
    injection Hr as <-. simpl. by apply Hsound.
  - intros Ht. rewrite Ht in Htrig. cbn [trigger] in Htrig.
    unfold redirectChainLength in Htrig. rewrite Hchain in Htrig. lia.
  - intros Ht. rewrite Ht in Htrig. exact Htrig.
Qed.

Lemma persistIssues_issues page result d :
  exists rows,
    issues (persistIssues crawlRunId page result d) = (issues d ++ rows)%list
    /\ Forall (fun i =>
                 issue_crawlRunId i = crawlRunId
                 /\ issue_pageId i = Some (page_id page)
                 /\ exists t, issue_type i = typeName t
                              /\ issue_severity i = specSeverity t
                              /\ t <> Issues.REDIRECT_CHAIN_LONG
                              /\ t <> Issues.DUPLICATE_TITLE) rows.
Proof.
  unfold persistIssues.
  destruct (pr_statusCode result) as [statusCode|];
    [|exists []; split; [by rewrite app_nil_r | constructor]].
  set (page_ := {| Issues.statusCode := Some statusCode |}).
  set (extra := Some _).
  pose proof (draft_without_chain page_ extra) as Hdrafts.
  specialize (fun d => Hdrafts d eq_refl).
  destruct (Issues.evaluatePageIssues page_ extra) as [|d0 ds] eqn:Heval;
    [exists []; split; [by rewrite app_nil_r | constructor]|].
  eexists. split; [reflexivity|].
  apply Forall_forall. intros i Hi.
  apply elem_of_lookup_imap in Hi as (k & mk & -> & Hmk).
  apply list_lookup_fmap_Some in Hmk as (dr & -> & Hd).
  apply list_elem_of_lookup_2 in Hd. destruct (Hdrafts dr Hd) as (Hsev & H1 & H2).
  split; [reflexivity|]. split; [reflexivity|]. by exists (Issues.type dr).
Qed.

Lemma pageIssue_more_pages d d' i :
  (forall p, p ∈ pages d -> p ∈ pages d') -> pageIssue d i -> pageIssue d' i.
Proof.
  intros Hsub [Ht (p & Hp & Hrun & Hid)]. split; [exact Ht|].
  exists p. split; [by apply Hsub | done].
Qed.

Lemma issuesInv_processPage u depth s :
  issuesInv (db s) -> issuesInv (db (processPage env crawlRunId baseDomain settings u depth s)).
Proof.
  intros Hinv. unfold processPage.
  destruct (nonEmpty _); [exact Hinv|].
  unfold page_create. cbn [db logFetch].
  case_bool_decide; [exact Hinv|]. cbn [db withQueue withDb].
  set (row := pageOfResult crawlRunId u _ _ _).
  set (d1 := bumpId 1 _).
  destruct (persistIssues_issues row (fetchAndParsePage env u) d1) as (rows & Hiss & Hrows).
  assert (Hpages : pages (persistIssues crawlRunId row (fetchAndParsePage env u) d1)
                   = (pages (db s) ++ [row])%list)
    by (rewrite persistIssues_pages; reflexivity).
  intros i Hi Hrun. rewrite Hiss in Hi. apply elem_of_app in Hi as [Hi|Hi].
  - apply (pageIssue_more_pages (db s)); [|by apply Hinv].
    intros p Hp. rewrite Hpages. apply elem_of_app. by left.
  - rewrite Forall_forall in Hrows. destruct (Hrows i Hi) as (_ & Hpid & Ht).
    split; [exact Ht|]. exists row. split; [|done].
    rewrite Hpages. apply elem_of_app. right. by left.
Qed.

Lemma issuesInv_step s :
  issuesInv (db s) ->
  issuesInv (db (stateOf (bfsIteration env crawlRunId baseDomain settings s))).
Proof.
  intros Hinv.
  destruct (bfsIteration_cases env crawlRunId baseDomain settings s)
    as [(_ & Hd & _) | (u & dep & s1 & _ & _ & Hd & _ & ->)].
  - by rewrite Hd.
  - apply issuesInv_processPage. by rewrite Hd.
Qed.

Lemma typeName_inj t t' : typeName t = typeName t' -> t = t'.
Proof. destruct t, t'; simpl; intros H; (reflexivity || discriminate H). Qed.

(** X16. What the loop records about pages: at every state of the loop,
    started as [runCrawl] starts it, each Issue row of the run is about a
    Page row of the run that exists, is of one of the page rules with the
    severity of the rule table, and is never of type REDIRECT_CHAIN_LONG
    (the loop hands the evaluator no redirect chain) nor DUPLICATE_TITLE. *)
Theorem loop_issues_wellformed normalizedStart d s
    (Hreach : reachable env crawlRunId baseDomain settings
                (initialState normalizedStart (cleanUpExistingData crawlRunId d)) s) :
  forall i, i ∈ issues (db s) -> issue_crawlRunId i = crawlRunId ->
    (exists p, p ∈ pages (db s) /\ page_crawlRunId p = crawlRunId
               /\ issue_pageId i = Some (page_id p))
    /\ (exists t, issue_type i = typeName t /\ issue_severity i = specSeverity t)
    /\ issue_type i <> "REDIRECT_CHAIN_LONG"
    /\ issue_type i <> "DUPLICATE_TITLE".
Proof.
  assert (Hinv : issuesInv (db s)).
  { induction Hreach; [|by apply issuesInv_step].
    intros i Hi Hrun. exfalso. cbn in Hi.
    apply list_elem_of_fmap in Hi as (i0 & -> & Hi).
    apply list_elem_of_filter in Hi as [Hne _]. by apply Hne. }
  intros i Hi Hrun. destruct (Hinv i Hi Hrun) as [(t & Ht & Hsev & H1 & H2) Hp].
  split; [exact Hp|]. split; [by exists t|]. rewrite Ht. split.
  - intros H. apply H1. by apply typeName_inj.
  - intros H. apply H2. by apply typeName_inj.
Qed.

End CrawlIssues.

Section CrawlIssuesExamples.
Import Store Runner.

Lemma loop_issues_wellformed_witness :
  Forall (fun i =>
            (exists p, p ∈ pages (db (afterFirstPass linkingFetch))
                       /\ page_crawlRunId p = "run1"
                       /\ issue_pageId i = Some (page_id p))
            /\ (exists t, issue_type i = typeName t /\ issue_severity i = specSeverity t)
            /\ issue_type i <> "REDIRECT_CHAIN_LONG"
            /\ issue_type i <> "DUPLICATE_TITLE")
         (issues (db (afterFirstPass linkingFetch)))
  /\ List.length (issues (db (afterFirstPass linkingFetch))) = 3%nat.
Proof.
  split; [|vm_compute; reflexivity].
  apply Forall_forall. intros i Hi.
  apply (loop_issues_wellformed (Lifecycle.urlEnv linkingFetch) "run1" "a.test"
           DEFAULT_CRAWL_SETTINGS "https://a.test/" emptyDb
           (afterFirstPass linkingFetch) (afterFirstPass_reachable linkingFetch) i Hi).
  revert i Hi. apply Forall_forall. vm_compute. repeat constructor.
Defined.

End CrawlIssuesExamples.

(** ** Canceling a run *)

Section Cancel.
Import Store Runner Lifecycle.

Definition activeOf (projectId : string) (kv : string * CrawlRun) : bool :=
  String.eqb (run_projectId kv.2) projectId && isActive (run_status kv.2).

(** [latestActive] finds an active run of the project that no other
    active run of the project is newer than. *)
Lemma latestActive_spec projectId d k run :
  latestActive projectId d = Some (k, run) ->
  crawlRuns d !! k = Some run
  /\ run_projectId run = projectId
  /\ isActive (run_status run) = true
  /\ (forall k' run', crawlRuns d !! k' = Some run' -> run_projectId run' = projectId ->
        isActive (run_status run') = true ->
        (run_createdAt run' <= run_createdAt run)%nat).
Proof.
  unfold latestActive. intros H.
  match type of H with foldr ?f None _ = _ => set (step := f) in * end.
  enough (Hgen : forall l,
             match foldr step None l with
             | Some kv => kv ∈ l /\ activeOf projectId kv = true
                          /\ forall x, x ∈ l -> activeOf projectId x = true ->
                                       (run_createdAt x.2 <= run_createdAt kv.2)%nat
             | None => forall x, x ∈ l -> activeOf projectId x = false
             end).
  { specialize (Hgen (map_to_list (crawlRuns d))). rewrite H in Hgen.
    destruct Hgen as (Hin & Hact & Hmax).
    apply elem_of_map_to_list in Hin. unfold activeOf in Hact. cbn [snd] in Hact.
    apply andb_true_iff in Hact as [Hp Ha]. apply String.eqb_eq in Hp.
    split; [exact Hin|]. split; [exact Hp|]. split; [exact Ha|].
    intros k' run' Hk' Hp' Ha'.
    apply (Hmax (k', run')); [by apply elem_of_map_to_list|].
    unfold activeOf. cbn [snd]. rewrite Hp', String.eqb_refl, Ha'. reflexivity. }
  clear H. induction l as [|x l IH]; [intros x Hx; by apply elem_of_nil in Hx|].
  cbn [foldr]. unfold step at 1. cbv zeta. fold (activeOf projectId x).
  destruct (activeOf projectId x) eqn:Hx.
  - destruct (foldr step None l) as [b|].
    + destruct IH as (Hb & Hab & Hmax).
      destruct (Nat.ltb_spec (run_createdAt b.2) (run_createdAt x.2)) as [Hlt|Hge].
      * split; [by left|]. split; [exact Hx|].
        intros y Hy Hay. apply elem_of_cons in Hy as [->|Hy]; [lia|].
        specialize (Hmax y Hy Hay). lia.
      * split; [by right|]. split; [exact Hab|].
        intros y Hy Hay. apply elem_of_cons in Hy as [->|Hy]; [lia|].
        by apply Hmax.
    + split; [by left|]. split; [exact Hx|].
      intros y Hy Hay. apply elem_of_cons in Hy as [->|Hy]; [lia|].
      rewrite (IH y Hy) in Hay. discriminate.
  - destruct (foldr step None l) as [b|].
    + destruct IH as (Hb & Hab & Hmax). split; [by right|]. split; [exact Hab|].
      intros y Hy Hay. apply elem_of_cons in Hy as [->|Hy]; [congruence|].
      by apply Hmax.
    + intros y Hy. apply elem_of_cons in Hy as [->|Hy]; [exact Hx | by apply IH].
Qed.

(** X17. A [cancel] that succeeds marks one run and nothing else: the
    caller is an ADMIN or a MEMBER; the run belongs to the project and was
    QUEUED or RUNNING; it is the run named, or, when none is named, an
    active run of the project that no other is newer than; the store
    changes in that row only, which becomes CANCELED with the given finish
    time. A job for that run delivered afterwards is acknowledged with the
    store as [cancel] left it. *)
Theorem cancel_marks_one_run role t pid id d d'
    (Hcancel : cancel role t pid id d = inr d') :
  exists k run,
    crawlRuns d !! k = Some run
    /\ (role = Some ADMIN \/ role = Some MEMBER)
    /\ run_projectId run = pid
    /\ (run_status run = QUEUED \/ run_status run = RUNNING)
    /\ (forall k', id = Some k' -> k' <> "" -> k = k')
    /\ (id = None \/ id = Some "" ->
        forall k' run', crawlRuns d !! k' = Some run' -> run_projectId run' = pid ->
          isActive (run_status run') = true ->
          (run_createdAt run' <= run_createdAt run)%nat)
    /\ d' = setCrawlRuns (insert k (withFinishedAt t (withStatus CANCELED run))) d
    /\ (forall env fuel t0 t1 job,
          crawlRunId job = k -> processJob env fuel t0 t1 job d' = Resolved d').
Proof.
  unfold cancel in Hcancel.
  destruct (projects d !! pid); [|discriminate].
  assert (Hrole : role = Some ADMIN \/ role = Some MEMBER).
  { destruct role as [[]|]; try discriminate; auto. }
  assert (Hrest : match findRunToCancel pid id d with
                  | inl e => inl e
                  | inr (k, crawlRun) =>
                      if bool_decide (run_status crawlRun = DONE)
                         || bool_decide (run_status crawlRun = FAILED)
                         || bool_decide (run_status crawlRun = CANCELED)
                      then inl (BadRequestException
                                  ("Cannot cancel a crawl run with status "
                                     +:+ statusName (run_status crawlRun)))
                      else match crawlRun_update k (markCanceled t) d with
                           | Some d' => inr d'
                           | None => inl (NotFoundException "Record to update not found.")
                           end
                  end = inr d').
  { destruct Hrole as [-> | ->]; exact Hcancel. }
  clear Hcancel.
  destruct (findRunToCancel pid id d) as [e|[k run]] eqn:Hfind; [discriminate|].
  pose proof (findRunToCancel_lookup _ _ _ _ _ Hfind) as Hk.
  destruct (_ || _) eqn:Hst; [discriminate|].
  apply orb_false_iff in Hst as [Hst Hc]. apply orb_false_iff in Hst as [Hd Hf].
  apply bool_decide_eq_false in Hd, Hf, Hc.
  rewrite (crawlRun_update_own _ _ d run Hk) in Hrest. injection Hrest as <-.
  exists k, run. split; [exact Hk|]. split; [exact Hrole|].
  assert (Hfound : run_projectId run = pid
                   /\ (forall k', id = Some k' -> k' <> "" -> k = k')
                   /\ (id = None \/ id = Some "" ->
                       forall k' run', crawlRuns d !! k' = Some run' ->
                         run_projectId run' = pid -> isActive (run_status run') = true ->
                         (run_createdAt run' <= run_createdAt run)%nat)).
  { unfold findRunToCancel in Hfind. destruct id as [k0|].
    - destruct (String.eqb_spec k0 "") as [->|Hne].
      + destruct (latestActive pid d) as [[k1 r1]|] eqn:Hl; [|discriminate].
        injection Hfind as -> ->. apply latestActive_spec in Hl as (_ & Hp & _ & Hmax).
        split; [exact Hp|]. split; [intros k' [= <-] Hk'; done | intros _; exact Hmax].
      + destruct (crawlRuns d !! k0) as [r0|]; [|discriminate].
        destruct (String.eqb_spec (run_projectId r0) pid) as [Hp|Hp]; [|discriminate].
        cbn [negb] in Hfind. injection Hfind as -> ->.
        split; [exact Hp|]. split; [by intros k' [= <-] _|].
        intros [Hid|Hid]; [discriminate | injection Hid as ->; done].
    - destruct (latestActive pid d) as [[k1 r1]|] eqn:Hl; [|discriminate].
      injection Hfind as -> ->. apply latestActive_spec in Hl as (_ & Hp & _ & Hmax).
      split; [exact Hp|]. split; [intros k' H; discriminate | intros _; exact Hmax]. }
  destruct Hfound as (Hp & Hnamed & Hlatest).
  split; [exact Hp|]. split; [destruct (run_status run); auto; done|].
  split; [exact Hnamed|]. split; [exact Hlatest|]. split; [reflexivity|].
  intros env fuel t0 t1 job Hjob. unfold processJob. rewrite Hjob.
  cbn [crawlRuns setCrawlRuns]. rewrite lookup_insert_eq.
  by rewrite bool_decide_eq_true_2.
Qed.

Lemma cancel_marks_one_run_witness :
  exists d',
    cancel (Some MEMBER) 7 "proj1" None (dbWithStatus RUNNING) = inr d'
    /\ (run_status <$> crawlRuns d' !! "run1") = Some CANCELED
    /\ processJob (urlEnv linkingFetch) 10 8 9 jobA d' = Resolved d'.
Proof.
  destruct (cancel (Some MEMBER) 7 "proj1" None (dbWithStatus RUNNING)) as [e|d'] eqn:Hc;
    [exfalso; vm_compute in Hc; discriminate|].
  exists d'. split; [reflexivity|].
  destruct (cancel_marks_one_run _ _ _ _ _ _ Hc)
    as (k & run & Hk & _ & _ & _ & _ & _ & Hd & Hjob).
  assert (k = "run1") as ->.
  { cbn [crawlRuns dbWithStatus] in Hk. by apply lookup_singleton_Some in Hk as [<- _]. }
  split; [|by apply Hjob].
  rewrite Hd. cbn [crawlRuns setCrawlRuns]. by rewrite lookup_insert_eq.
Defined.

End Cancel.

(** ** Duplicate titles *)

Section DuplicateTitles.
Import Store GlobalIssues.

(** The key a page is grouped under: its title, trimmed and in lower
    case; none for a page without a title or with a blank one. *)
Definition titleKey (p : Page) : option string :=
  match page_title p with
  | Some t => if String.eqb (Js.trim t) "" then None
              else Some (Js.toLowerCase (Js.trim t))
  | None => None
  end.

(** The page shares its title with another page of the run. *)
Definition sharesTitle (crawlRunId : string) (db : DB) (p : Page) : Prop :=
  titleKey p <> None
  /\ (2 <= List.length (filter (fun q => titleKey q = titleKey p)
                               (pagesOf crawlRunId db)))%nat.

Definition entryOf (p : Page) : option TitledPage :=
  match page_title p with
  | Some t => if String.eqb (Js.trim t) "" then None
              else Some {| tp_id := page_id p; tp_url := page_url p;
                           tp_title := Js.trim t |}
  | None => None
  end.

Definition keyOf (e : TitledPage) : string := Js.toLowerCase (tp_title e).

Lemma groupPage_entry groups p :
  groupPage groups p
  = match entryOf p with
    | Some e => addToGroup (keyOf e) e groups
    | None => groups
    end.
Proof.
  unfold groupPage, entryOf. destruct (page_title p) as [t|]; [|reflexivity].
  by destruct (String.eqb (Js.trim t) "").
Qed.

Lemma entryOf_key p : titleKey p = keyOf <$> entryOf p.
Proof.
  unfold titleKey, entryOf. destruct (page_title p) as [t|]; [|done].
  by destruct (String.eqb (Js.trim t) "").
Qed.

Lemma entryOf_id p e : entryOf p = Some e -> tp_id e = page_id p.
Proof.
  unfold entryOf. destruct (page_title p) as [t|]; [|done].
  destruct (String.eqb (Js.trim t) ""); [done|]. by intros [= <-].
Qed.

(** Every group holds entries of its own key only. *)
Definition homogeneous (groups : list (string * list TitledPage)) : Prop :=
  Forall (fun kg => Forall (fun e => keyOf e = kg.1) kg.2) groups.

Lemma addToGroup_keys k e groups :
  forall k', k' ∈ (addToGroup k e groups).*1 -> k' = k \/ k' ∈ groups.*1.
Proof.
  induction groups as [|[k0 g0] groups IH]; simpl; intros k' Hk'.
  - apply list_elem_of_singleton in Hk'. by left.
  - destruct (String.eqb_spec k0 k) as [->|Hne]; simpl in Hk'.
    + by right.
    + apply elem_of_cons in Hk' as [->|Hk']; [right; by left|].
      destruct (IH k' Hk') as [->|H]; [by left | right; by right].
Qed.

Lemma addToGroup_NoDup k e groups :
  NoDup groups.*1 -> NoDup (addToGroup k e groups).*1.
Proof.
  induction groups as [|[k0 g0] groups IH]; simpl; intros Hnd.
  - apply NoDup_singleton.
  - apply NoDup_cons in Hnd as [Hfresh Hnd].
    destruct (String.eqb_spec k0 k) as [->|Hne]; simpl.
    + by apply NoDup_cons.
    + apply NoDup_cons. split; [|by apply IH].
      intros Hin. destruct (addToGroup_keys k e groups k0 Hin) as [H|H]; done.
Qed.

Lemma addToGroup_homogeneous k e groups :
  keyOf e = k -> homogeneous groups -> homogeneous (addToGroup k e groups).
Proof.
  intros Hk. unfold homogeneous.
  induction groups as [|[k0 g0] groups IH]; simpl; intros Hh.
  - repeat constructor. exact Hk.
  - apply Forall_cons in Hh as [H0 Hh].
    destruct (String.eqb_spec k0 k) as [->|Hne].
    + apply Forall_cons. split; [|exact Hh]. simpl in *.
      apply Forall_app. split; [exact H0 | by repeat constructor].
    + apply Forall_cons. split; [exact H0 | by apply IH].
Qed.

Lemma addToGroup_concat k e groups :
  concat (addToGroup k e groups).*2 ≡ₚ (concat groups.*2 ++ [e])%list.
Proof.
  induction groups as [|[k0 g0] groups IH]; simpl; [reflexivity|].
  destruct (String.eqb k0 k); simpl.
  - rewrite <- !app_assoc. apply Permutation_app_head, Permutation_app_comm.
  - rewrite IH. by rewrite app_assoc.
Qed.

Definition titleGroupsOf (ps : list Page) : list (string * list TitledPage) :=
  foldl groupPage [] ps.

Lemma titleGroups_inv ps : forall groups,
  NoDup groups.*1 -> homogeneous groups ->
  NoDup (foldl groupPage groups ps).*1
  /\ homogeneous (foldl groupPage groups ps)
  /\ concat (foldl groupPage groups ps).*2 ≡ₚ (concat groups.*2 ++ omap entryOf ps)%list.
Proof.
  induction ps as [|p ps IH]; intros groups Hnd Hh.
  - simpl. by rewrite app_nil_r.
  - cbn [foldl]. rewrite groupPage_entry. cbn [omap list_omap].
    fold (omap entryOf ps).
    destruct (entryOf p) as [e|]; [|by apply IH].
    destruct (IH (addToGroup (keyOf e) e groups)) as (H1 & H2 & H3).
    + by apply addToGroup_NoDup.
    + by apply addToGroup_homogeneous.
    + split; [exact H1|]. split; [exact H2|].
      rewrite H3, addToGroup_concat, <- app_assoc. reflexivity.
Qed.

(** With distinct keys and homogeneous groups, the group of a key is all
    the entries of that key. *)
Lemma group_length groups k g :
  NoDup groups.*1 -> homogeneous groups -> (k, g) ∈ groups ->
  List.length g = List.length (filter (fun e => keyOf e = k) (concat groups.*2)).
Proof.
  unfold homogeneous. induction groups as [|[k0 g0] groups IH]; intros Hnd Hh Hin.
  - by apply elem_of_nil in Hin.
  - rewrite fmap_cons in Hnd. apply NoDup_cons in Hnd as [Hfresh Hnd].
    apply Forall_cons in Hh as [H0 Hh]. cbn [fst snd] in *.
    rewrite fmap_cons. cbn [concat snd]. rewrite filter_app, length_app.
    apply elem_of_cons in Hin as [Heq|Hin].
    + injection Heq as -> ->.
      assert (Hall : filter (fun e => keyOf e = k0) g0 = g0).
      { clear -H0. induction g0 as [|e g0 IH]; [reflexivity|].
        apply Forall_cons in H0 as [He H0].
        rewrite filter_cons, decide_True by done. by rewrite IH. }
      assert (Hnone : filter (fun e => keyOf e = k0) (concat groups.*2) = []).
      { clear -Hfresh Hh. induction groups as [|[k1 g1] groups IH]; [reflexivity|].
        rewrite fmap_cons in Hfresh. apply not_elem_of_cons in Hfresh as [Hne Hfresh].
        apply Forall_cons in Hh as [H1 Hh]. cbn [fst snd] in *.
        rewrite fmap_cons. cbn [concat snd]. rewrite filter_app, IH by done.
        rewrite app_nil_r. clear -H1 Hne. induction g1 as [|e g1 IH]; [reflexivity|].
        apply Forall_cons in H1 as [He H1].
        rewrite filter_cons, decide_False by congruence. by apply IH. }
      rewrite Hall, Hnone. simpl. lia.
    + assert (Hne : k <> k0).
      { intros ->. apply Hfresh. by apply (list_elem_of_fmap_2 fst) in Hin. }
      assert (Hnone : filter (fun e => keyOf e = k) g0 = []).
      { clear -H0 Hne. induction g0 as [|e g0 IH]; [reflexivity|].
        apply Forall_cons in H0 as [He H0].
        rewrite filter_cons, decide_False by congruence. by apply IH. }
      rewrite Hnone. simpl. by apply IH.
Qed.

Lemma filter_ext_in {A} (P Q : A -> Prop) `{forall x, Decision (P x)}
    `{forall x, Decision (Q x)} (l : list A) :
  (forall x, x ∈ l -> P x <-> Q x) -> filter P l = filter Q l.
Proof.
  induction l as [|x l IH]; intros Hext; [reflexivity|].
  rewrite !filter_cons, IH by (intros y Hy; apply Hext; by right).
  destruct (decide (P x)) as [HP|HP]; destruct (decide (Q x)) as [HQ|HQ];
    try reflexivity; exfalso.
  - apply HQ, (Hext x); [by left | exact HP].
  - apply HP, (Hext x); [by left | exact HQ].
Qed.

(** Selecting groups by a property of their key selects the entries with
    that property. *)
Lemma concat_filter_groups (D : string -> Prop) `{forall k, Decision (D k)} groups :
  homogeneous groups ->
  concat (filter (fun kg => D kg.1) groups).*2
  = filter (fun e => D (keyOf e)) (concat groups.*2).
Proof.
  unfold homogeneous. induction groups as [|[k0 g0] groups IH]; intros Hh; [reflexivity|].
  apply Forall_cons in Hh as [H0 Hh]. cbn [fst snd] in *.
  rewrite fmap_cons. cbn [concat snd]. rewrite filter_app, filter_cons. cbn [fst].
  assert (Hg0 : filter (fun e => D (keyOf e)) g0 = if decide (D k0) then g0 else []).
  { clear -H0. induction g0 as [|e g0 IH]; [by destruct (decide (D k0))|].
    apply Forall_cons in H0 as [He H0]. rewrite filter_cons, IH by done. rewrite He.
    by destruct (decide (D k0)). }
  rewrite Hg0. destruct (decide (D k0)).
  - rewrite fmap_cons. cbn [concat snd]. by rewrite IH.
  - by rewrite IH.
Qed.

#[global] Instance sharesTitle_dec crawlRunId db p : Decision (sharesTitle crawlRunId db p).
Proof. unfold sharesTitle. apply _. Defined.

Lemma entries_of_key ps k :
  List.length (filter (fun e => keyOf e = k) (omap entryOf ps))
  = List.length (filter (fun q => titleKey q = Some k) ps).
Proof.
  induction ps as [|p ps IH]; [reflexivity|].
  cbn [omap list_omap]. fold (omap entryOf ps). rewrite (filter_cons _ p), entryOf_key.
  destruct (entryOf p) as [e|]; cbn [fmap option_fmap option_map].
  - rewrite filter_cons.
    destruct (decide (keyOf e = k)) as [He|He].
    + rewrite decide_True by congruence. by rewrite !length_cons, IH.
    + rewrite decide_False by congruence. exact IH.
  - rewrite decide_False by done. exact IH.
Qed.

(** The ids of the entries selected by a property of the key, read off the
    pages. *)
Lemma entry_ids (D : string -> Prop) `{forall k, Decision (D k)}
    (S : Page -> Prop) `{forall p, Decision (S p)} (ps : list Page) :
  (forall p, p ∈ ps -> S p <-> exists k, titleKey p = Some k /\ D k) ->
  tp_id <$> filter (fun e => D (keyOf e)) (omap entryOf ps)
  = page_id <$> filter S ps.
Proof.
  induction ps as [|p ps IH]; intros HS; [reflexivity|].
  assert (IH' := IH (fun q Hq => HS q (list_elem_of_further _ _ _ Hq))).
  specialize (HS p (list_elem_of_here _ _)).
  cbn [omap list_omap]. fold (omap entryOf ps). rewrite (filter_cons S p).
  pose proof (entryOf_key p) as Hkey. pose proof (entryOf_id p) as Hid.
  destruct (entryOf p) as [e|]; cbn [fmap option_fmap option_map] in Hkey.
  - rewrite filter_cons. destruct (decide (D (keyOf e))) as [HD|HD].
    + rewrite decide_True by (apply HS; by exists (keyOf e)).
      rewrite !fmap_cons, IH', (Hid e eq_refl). reflexivity.
    + rewrite decide_False; [exact IH'|].
      intros HSp. apply HS in HSp as (k & Hk & HDk). apply HD. congruence.
  - rewrite decide_False; [exact IH'|].
    intros HSp. apply HS in HSp as (k & Hk & _). congruence.
Qed.

Lemma pagesWithTitles_groups crawlRunId (l : list Page) : forall groups,
  foldl groupPage groups
        (filter (fun p => page_crawlRunId p = crawlRunId /\ page_title p <> None) l)
  = foldl groupPage groups (filter (fun p => page_crawlRunId p = crawlRunId) l).
Proof.
  induction l as [|p l IH]; intros groups; [reflexivity|].
  rewrite !filter_cons.
  destruct (decide (page_crawlRunId p = crawlRunId)) as [Hrun|Hrun].
  - destruct (page_title p) as [t|] eqn:Ht.
    + rewrite decide_True by done. cbn [foldl]. apply IH.
    + rewrite decide_False by (intros [_ ?]; done). cbn [foldl].
      rewrite groupPage_entry. unfold entryOf. rewrite Ht. apply IH.
  - rewrite decide_False by (intros [? _]; done). apply IH.
Qed.

(** A DUPLICATE_TITLE row for the entry [e]. *)
Definition duplicateRow (crawlRunId : string) (i : Issue) (e : TitledPage) : Prop :=
  issue_crawlRunId i = crawlRunId /\ issue_pageId i = Some (tp_id e)
  /\ issue_type i = "DUPLICATE_TITLE" /\ issue_severity i = Issues.MEDIUM.

Lemma imap_rows (Q : Issue -> TitledPage -> Prop) (h : nat -> string) :
  forall (mks : list (string -> Issue)) (es : list TitledPage),
    Forall2 (fun mk e => forall x, Q (mk x) e) mks es ->
    Forall2 Q (imap (fun k f => f (h k)) mks) es.
Proof.
  intros mks es Hall. revert h.
  induction Hall as [|mk e mks es Hmk Hall IH]; intros h; [constructor|].
  rewrite imap_cons. constructor; [apply Hmk | apply (IH (h ∘ S))].
Qed.

Lemma duplicateIssues_rows crawlRunId (groups : list (string * list TitledPage)) :
  Forall2 (fun mk e => forall x, duplicateRow crawlRunId (mk x) e)
          (groups ≫= (fun g => duplicateIssues crawlRunId g.2))
          (concat groups.*2).
Proof.
  induction groups as [|[k g] groups IH]; [constructor|].
  rewrite bind_cons, fmap_cons. cbn [concat snd].
  apply Forall2_app; [|exact IH].
  unfold duplicateIssues. apply Forall2_fmap_l, Forall_Forall2_diag, Forall_forall.
  intros e _ x. by repeat split.
Qed.

Lemma duplicateRows_ids crawlRunId rows es :
  Forall2 (duplicateRow crawlRunId) rows es ->
  issue_pageId <$> rows = Some <$> (tp_id <$> es)
  /\ Forall (fun i => issue_crawlRunId i = crawlRunId
                      /\ issue_type i = "DUPLICATE_TITLE"
                      /\ issue_severity i = Issues.MEDIUM) rows.
Proof.
  induction 1 as [|i e rows es (H1 & H2 & H3 & H4) Hall [IH1 IH2]]; [done|].
  split; [by rewrite !fmap_cons, H2, IH1 | by constructor].
Qed.

(** X18. Duplicate titles are flagged page by page: [generateGlobalIssues]
    appends to the Issue table one DUPLICATE_TITLE row of severity MEDIUM
    for each page of the run whose title, trimmed and compared without
    regard to case, is not blank and is the title of at least two pages of
    the run, and no row for any other page; it changes no other table. *)
Theorem duplicate_titles_flagged crawlRunId db :
  exists rows,
    issues (generateGlobalIssues crawlRunId db) = (issues db ++ rows)%list
    /\ issue_pageId <$> rows
       ≡ₚ Some <$> (page_id <$> filter (sharesTitle crawlRunId db) (pagesOf crawlRunId db))
    /\ Forall (fun i => issue_crawlRunId i = crawlRunId
                        /\ issue_type i = "DUPLICATE_TITLE"
                        /\ issue_severity i = Issues.MEDIUM) rows
    /\ pages (generateGlobalIssues crawlRunId db) = pages db
    /\ links (generateGlobalIssues crawlRunId db) = links db
    /\ crawlRuns (generateGlobalIssues crawlRunId db) = crawlRuns db.
Proof.
  set (ps := pagesOf crawlRunId db).
  set (groups := titleGroupsOf ps).
  set (dups := filter (fun g : string * list TitledPage => (2 <= List.length g.2)%nat) groups).
  set (issueData := dups ≫= (fun g => duplicateIssues crawlRunId g.2)).
  set (rows := imap (fun k (f : string -> Issue) => f (freshId "issue_" (nextId db + k)))
                    issueData).
  exists rows.
  assert (Hdb : issues (generateGlobalIssues crawlRunId db) = (issues db ++ rows)%list).
  { unfold generateGlobalIssues, detectDuplicateTitles.
    rewrite pagesWithTitles_groups. fold (pagesOf crawlRunId db). fold ps.
    fold (titleGroupsOf ps). fold groups. fold dups.
    destruct dups as [|g0 dups'] eqn:Hdups.
    - unfold rows, issueData. simpl. by rewrite app_nil_r.
    - fold issueData. unfold rows.
      destruct issueData as [|mk0 rest]; [simpl; by rewrite app_nil_r | reflexivity]. }
  split; [exact Hdb|].
  destruct (titleGroups_inv ps [] (NoDup_nil_2) (Forall_nil_2 _)) as (Hnd & Hh & Hperm).
  fold (titleGroupsOf ps) in Hnd, Hh, Hperm. fold groups in Hnd, Hh, Hperm.
  cbn [fmap list_fmap concat app] in Hperm.
  set (D := fun k => (2 <= List.length (filter (fun e => keyOf e = k) (omap entryOf ps)))%nat).
  assert (Ddec : forall k, Decision (D k)) by (intros k; unfold D; apply _).
  assert (Hsel : dups = filter (fun kg => D kg.1) groups).
  { unfold dups. apply filter_ext_in. intros [k g] Hin. cbn [fst snd]. unfold D.
    rewrite (group_length groups k g Hnd Hh Hin).
    by rewrite (Permutation_length (filter_Permutation _ _ _ Hperm)). }
  assert (Hentries : concat dups.*2 ≡ₚ filter (fun e => D (keyOf e)) (omap entryOf ps)).
  { replace (concat dups.*2) with (filter (fun e => D (keyOf e)) (concat groups.*2));
      [by rewrite Hperm|].
    rewrite Hsel. symmetry. exact (concat_filter_groups D groups Hh). }
  destruct (duplicateRows_ids crawlRunId rows (concat dups.*2)) as [Hids Hrows].
  { unfold rows. apply imap_rows. apply duplicateIssues_rows. }
  split; [|split; [exact Hrows|]].
  - rewrite Hids, Hentries.
    rewrite (entry_ids D (sharesTitle crawlRunId db) ps); [reflexivity|].
    intros p Hp. unfold sharesTitle, D. fold ps. split.
    + intros [Hk Hlen]. destruct (titleKey p) as [k|] eqn:Hkey; [|done].
      exists k. split; [reflexivity|]. by rewrite entries_of_key.
    + intros (k & Hk & Hlen). rewrite Hk. split; [done|]. by rewrite <- entries_of_key.
  - split; [apply generateGlobalIssues_pages|].
    split; [apply generateGlobalIssues_links | apply generateGlobalIssues_crawlRuns].
Qed.

End DuplicateTitles.

Section DuplicateTitlesExamples.
Import Store GlobalIssues.

(** Two titles that differ in the case of a Latin-1 letter only: E acute
    in upper case (code unit 201) and in lower case (233), followed by
    [cole]. *)
Definition titleUpper : string := String (ascii_of_nat 201) "cole".
Definition titleLower : string := String (ascii_of_nat 233) "cole".

Definition titledPage (id url title : string) : Page :=
  {| page_id := id; page_crawlRunId := "run1"; page_url := url;
     page_normalizedUrl := url; page_statusCode := Some 200;
     page_contentType := None; page_title := Some title;
     page_metaDescription := None; page_h1Count := None;
     page_canonical := None; page_robotsMeta := None; page_wordCount := None;
     page_templateSignatureHash := None; page_templateSignatureJson := None;
     page_templateId := None |}.

Definition dbLatinTitles : DB :=
  setPages (fun _ => [titledPage "p1" "https://a.test/" titleUpper;
                      titledPage "p2" "https://a.test/a" titleLower;
                      titledPage "p3" "https://a.test/b" "Contact"])
           emptyDb.

(** Both pages are flagged, the third is not. *)
Example latin1_titles_flagged :
  Js.toLowerCase titleUpper = titleLower
  /\ issue_pageId <$> issues (generateGlobalIssues "run1" dbLatinTitles)
     = [Some "p1"; Some "p2"]
  /\ issue_type <$> issues (generateGlobalIssues "run1" dbLatinTitles)
     = ["DUPLICATE_TITLE"; "DUPLICATE_TITLE"].
Proof. repeat split; vm_compute; reflexivity. Qed.

End DuplicateTitlesExamples.

(** ** What a crawl leaves alone *)

Section CrawlFrame.
Import Store Runner.

(** The tables and rows a crawl of [crawlRunId] does not write: projects,
    templates, links, and the pages of other runs. *)
Definition sameOutside (crawlRunId : string) (d d' : DB) : Prop :=
  projects d' = projects d /\ templates d' = templates d /\ links d' = links d
  /\ filter (fun p => page_crawlRunId p <> crawlRunId) (pages d')
     = filter (fun p => page_crawlRunId p <> crawlRunId) (pages d).

Lemma sameOutside_refl id d : sameOutside id d d.
Proof. by repeat split. Qed.

Lemma sameOutside_trans id d1 d2 d3 :
  sameOutside id d1 d2 -> sameOutside id d2 d3 -> sameOutside id d1 d3.
Proof.
  intros (H1 & H2 & H3 & H4) (H1' & H2' & H3' & H4').
  repeat split; congruence.
Qed.

Lemma persistIssues_frame id page result d :
  sameOutside id d (persistIssues id page result d).
Proof.
  unfold persistIssues. destruct (pr_statusCode result); [|apply sameOutside_refl].
  destruct (Issues.evaluatePageIssues _ _); by repeat split.
Qed.

Lemma processPage_frame env id base settings u depth s :
  sameOutside id (db s) (db (processPage env id base settings u depth s)).
Proof.
  unfold processPage. destruct (nonEmpty _); [apply sameOutside_refl|].
  unfold page_create. cbn [db logFetch].
  case_bool_decide; [apply sameOutside_refl|]. cbn [db withQueue withDb].
  eapply sameOutside_trans; [|apply persistIssues_frame].
  repeat split. cbn [pages bumpId setPages].
  rewrite filter_app, filter_cons, decide_False by (intros H'; by apply H').
  by rewrite filter_nil, app_nil_r.
Qed.

Lemma bfsIteration_frame env id base settings s :
  sameOutside id (db s) (db (stateOf (bfsIteration env id base settings s))).
Proof.
  destruct (bfsIteration_cases env id base settings s)
    as [(_ & Hd & _) | (u & dep & s1 & _ & _ & Hd & _ & ->)].
  - rewrite Hd. apply sameOutside_refl.
  - rewrite <- Hd. apply processPage_frame.
Qed.

Lemma bfsLoop_frame env id base settings fuel s canceled s' :
  bfsLoop env id base settings fuel s = Some (canceled, s') ->
  sameOutside id (db s) (db s').
Proof.
  intros H. apply bfsLoop_reachable in H.
  induction H; [apply sameOutside_refl|].
  eapply sameOutside_trans; [exact IHreachable | apply bfsIteration_frame].
Qed.

Lemma cleanUp_no_links id d : linksOf id (cleanUpExistingData id d) = [].
Proof.
  unfold linksOf, cleanUpExistingData. cbn.
  induction (links d) as [|l ls IH]; [reflexivity|].
  rewrite filter_cons. destruct (decide (link_crawlRunId l <> id)) as [Hne|Heq].
  - rewrite fmap_cons, filter_cons, decide_False; [exact IH|].
    by destruct l.
  - exact IH.
Qed.

Lemma no_links_no_updates id d :
  linksOf id d = [] -> (PostProcess.postProcessCrawl id d).2 = d.
Proof.
  intros Hnone. rewrite postProcessCrawl_db.
  assert (Hint : internalLinksOf id d = []).
  { unfold internalLinksOf. unfold linksOf in Hnone.
    induction (links d) as [|l ls IH]; [reflexivity|].
    rewrite filter_cons in Hnone |- *.
    destruct (decide (link_crawlRunId l = id)) as [Hrun|Hrun]; [discriminate|].
    rewrite decide_False by (intros [? _]; done). by apply IH. }
  rewrite Hint. reflexivity.
Qed.

Lemma generateGlobalIssues_frame id d :
  sameOutside id d (GlobalIssues.generateGlobalIssues id d).
Proof.
  unfold GlobalIssues.generateGlobalIssues, GlobalIssues.detectDuplicateTitles.
  destruct (filter _ _); [apply sameOutside_refl|].
  destruct (_ ≫= _); by repeat split.
Qed.

Lemma postProcessing_frame id d d' :
  linksOf id d = [] ->
  postProcessing id d = Returned d' -> sameOutside id d d'.
Proof.
  intros Hnone. unfold postProcessing.
  pose proof (no_links_no_updates id d Hnone) as Hdb.
  destruct (PostProcess.postProcessCrawl id d) as [totals d1]. cbn [snd] in Hdb. subst d1.
  unfold PostProcess.saveCrawlTotals, crawlRun_update.
  destruct (crawlRuns d !! id) as [run|]; [|discriminate].
  set (d2 := setCrawlRuns _ d).
  unfold Summary.saveIssueSummary, crawlRun_update.
  destruct (crawlRuns (GlobalIssues.generateGlobalIssues id d2) !! id); [|discriminate].
  intros [= <-].
  apply (sameOutside_trans id d d2); [by repeat split|].
  apply (sameOutside_trans id d2 (GlobalIssues.generateGlobalIssues id d2));
    [apply generateGlobalIssues_frame | by repeat split].
Qed.

(** X19. A crawl that returns has written no Link row, and has left the
    rest of the store alone: the Link table holds no row of the run (the
    rows of other runs are kept, but for the reference to a deleted page),
    the projects and templates are as they were, and so are the Page rows
    of every other run. *)
Theorem crawl_writes_no_links env fuel projectId crawlRunId d d'
    (Hreturned : runCrawl env fuel projectId crawlRunId d = Returned d') :
  linksOf crawlRunId d' = []
  /\ links d' = links (cleanUpExistingData crawlRunId d)
  /\ projects d' = projects d
  /\ templates d' = templates d
  /\ filter (fun p => page_crawlRunId p <> crawlRunId) (pages d')
     = filter (fun p => page_crawlRunId p <> crawlRunId) (pages d).
Proof.
  assert (Hclean : sameOutside crawlRunId (cleanUpExistingData crawlRunId d) d').
  { unfold runCrawl in Hreturned.
    destruct (projects d !! projectId) as [project|]; [|discriminate].
    destruct (crawlRuns d !! crawlRunId); [|discriminate].
    destruct (normalizeUrl env _ _) as [start|]; [|discriminate].
    destruct (String.eqb start ""); [discriminate|].
    destruct (bfsLoop _ _ _ _ _ _) as [[[] s]|] eqn:Hloop; [| |discriminate].
    - injection Hreturned as <-. by apply bfsLoop_frame in Hloop.
    - apply bfsLoop_frame in Hloop. cbn [db initialState] in Hloop.
      eapply sameOutside_trans; [exact Hloop|].
      apply postProcessing_frame; [|exact Hreturned].
      destruct Hloop as (_ & _ & Hl & _). unfold linksOf. rewrite Hl.
      apply cleanUp_no_links. }
  destruct Hclean as (Hp & Ht & Hl & Hpages).
  split; [unfold linksOf; rewrite Hl; apply cleanUp_no_links|].
  split; [exact Hl|]. split; [exact Hp|]. split; [exact Ht|].
  rewrite Hpages. unfold cleanUpExistingData, page_deleteMany. cbn.
  apply list_filter_filter_l. by intros p.
Qed.

Lemma crawl_writes_no_links_witness :
  exists d',
    runCrawl (Lifecycle.urlEnv linkingFetch) 10 "proj1" "run1" (dbWithStatus RUNNING)
    = Returned d'
    /\ linksOf "run1" d' = [].
Proof.
  destruct (runCrawl (Lifecycle.urlEnv linkingFetch) 10 "proj1" "run1"
              (dbWithStatus RUNNING)) as [d'|m d'|] eqn:Hrun;
    [|exfalso; vm_compute in Hrun; discriminate..].
  exists d'. split; [reflexivity|].
  exact (proj1 (crawl_writes_no_links _ _ _ _ _ _ Hrun)).
Defined.

End CrawlFrame.

(** ** The totals of a crawl *)

Section CrawlTotals.
Import Store Runner.

(** The loop is left by [return] only on seeing the run canceled. *)
Lemma bfsLoop_canceled env id base settings fuel : forall s s',
  bfsLoop env id base settings fuel s = Some (true, s') ->
  isCrawlCanceled id (db s') = true.
Proof.
  induction fuel as [|fuel IH]; intros s s' H; [discriminate|].
  cbn [bfsLoop] in H.
  destruct (bfsIteration env id base settings s) as [s1|s1|s1] eqn:Hit.
  - by apply (IH s1).
  - discriminate.
  - injection H as <-. unfold bfsIteration in Hit.
    destruct (queue s) as [|item rest]; [discriminate|].
    destruct (_ && isCrawlCanceled id _) eqn:Hc.
    + injection Hit as <-. by apply andb_true_iff in Hc as [_ Hc].
    + destruct (Js.geq _ (maxPages settings)); [discriminate|].
      destruct (Js.gt (depth item) (maxDepth settings)); [discriminate|].
      destruct (normalizeUrl env _ _); [|discriminate].
      destruct (String.eqb _ ""); [discriminate|].
      case_bool_decide; discriminate.
Qed.

(** X20. The totals a crawl stores. When [runCrawl] returns for a run that
    was not CANCELED, the run's row has exactly its totals replaced;
    [pagesCount] is the number of Page rows of the run and is at most
    [maxPages] of the project's settings, rounded up to a whole number
    when the settings give a fraction; [issueCountTotal] is the number of
    Issue rows of the run; and, the loop writing no Link row, [linksCount]
    is 0. *)
Theorem runCrawl_totals env fuel projectId crawlRunId d d' project run
    (Hproject : projects d !! projectId = Some project)
    (Hrun : crawlRuns d !! crawlRunId = Some run)
    (Hstatus : run_status run <> CANCELED)
    (Hreturned : runCrawl env fuel projectId crawlRunId d = Returned d') :
  exists totals,
    crawlRuns d' !! crawlRunId = Some (withTotals (JObj totals) run)
    /\ dom totals = list_to_set totalsKeys
    /\ totals !! "pagesCount" = Some (JNum (Z.of_nat (List.length (pagesOf crawlRunId d'))))
    /\ Z.of_nat (List.length (pagesOf crawlRunId d'))
       <= Z.max 0 (Qceiling (maxPages (buildCrawlSettings (project_settingsJson project))))
    /\ totals !! "issueCountTotal"
       = Some (JNum (Z.of_nat (List.length (issuesOf crawlRunId d'))))
    /\ totals !! "linksCount" = Some (JNum 0).
Proof.
  unfold runCrawl in Hreturned. rewrite Hproject, Hrun in Hreturned.
  set (settings := buildCrawlSettings (project_settingsJson project)) in *.
  set (d0 := cleanUpExistingData crawlRunId d) in *.
  destruct (normalizeUrl env _ _) as [start|]; [|discriminate].
  destruct (String.eqb start ""); [discriminate|].
  destruct (bfsLoop _ _ _ _ _ _) as [[canceled s]|] eqn:Hloop; [|discriminate].
  pose proof (bfsLoop_crawlRuns _ _ _ _ _ _ _ _ Hloop) as Hruns.
  cbn [db initialState] in Hruns. unfold d0 in Hruns. rewrite cleanUp_crawlRuns in Hruns.
  destruct canceled.
  { exfalso. apply bfsLoop_canceled in Hloop. unfold isCrawlCanceled in Hloop.
    rewrite Hruns, Hrun in Hloop. by apply bool_decide_eq_true in Hloop. }
  assert (Hrun_s : crawlRuns (db s) !! crawlRunId = Some run) by by rewrite Hruns.
  destruct (postProcessing_shape crawlRunId (db s) run Hrun_s)
    as (d'' & Hpost & Hrow & Hpages & Hlinks).
  rewrite Hpost in Hreturned. injection Hreturned as ->.
  destruct (totals_lookups (PostProcess.postProcessCrawl crawlRunId (db s)).1
              (Summary.computeIssueSummary crawlRunId d')) as (Hk1 & Hk2 & _ & _ & Hk5).
  eexists. split; [exact Hrow|]. split; [apply totalsKeys_dom|].
  rewrite Hk1, Hk2, Hk5, postProcessCrawl_fields.
  cbn [PostProcess.pagesCount PostProcess.linksCount].
  split; [unfold pagesOf; by rewrite Hpages|].
  pose proof (bfsLoop_frame _ _ _ _ _ _ _ _ Hloop) as Hframe.
  pose proof (postProcessing_frame crawlRunId (db s) d') as Hframe'.
  assert (Hnolinks : linksOf crawlRunId (db s) = []).
  { destruct Hframe as (_ & _ & Hl & _). unfold linksOf. rewrite Hl.
    apply cleanUp_no_links. }
  specialize (Hframe' Hnolinks Hpost).
  apply bfsLoop_reachable in Hloop.
  assert (Hv : visitInv s)
    by (eapply visitInv_reachable; [apply visitInv_initial | exact Hloop]).
  assert (Hp : pagesInv env crawlRunId s).
  { eapply pagesInv_reachable; [apply visitInv_initial | | exact Hloop].
    unfold pagesInv. cbn [db initialState fetchLog]. unfold d0.
    by rewrite cleanUp_no_pages. }
  assert (Hc : capInv settings s).
  { eapply capInv_reachable; [|exact Hloop].
    unfold capInv. cbn [visited initialState]. rewrite size_empty. apply Z.le_max_l. }
  split; [|split; [reflexivity|]].
  - unfold pagesOf. rewrite Hpages. fold (pagesOf crawlRunId (db s)).
    rewrite <- (length_fmap pageKey (pagesOf crawlRunId (db s))).
    unfold pagesInv in Hp. rewrite Hp, length_fmap.
    etrans; [apply inj_le, length_filter|].
    rewrite (fetchLog_length s Hv). exact Hc.
  - rewrite (no_links_no_updates crawlRunId (db s) Hnolinks). by rewrite Hnolinks.
Qed.

Lemma runCrawl_totals_witness :
  exists d' totals,
    runCrawl (Lifecycle.urlEnv linkingFetch) 10 "proj1" "run1" (dbWithStatus RUNNING)
    = Returned d'
    /\ crawlRuns d' !! "run1" = Some (withTotals (JObj totals) (runWith RUNNING))
    /\ totals !! "pagesCount" = Some (JNum (Z.of_nat (List.length (pagesOf "run1" d'))))
    /\ Z.of_nat (List.length (pagesOf "run1" d'))
       <= Z.max 0 (Qceiling (maxPages (buildCrawlSettings (project_settingsJson projectA))))
    /\ totals !! "linksCount" = Some (JNum 0).
Proof.
  destruct (runCrawl (Lifecycle.urlEnv linkingFetch) 10 "proj1" "run1"
              (dbWithStatus RUNNING)) as [d'|m d'|] eqn:Hrun;
    [|exfalso; vm_compute in Hrun; discriminate..].
  destruct (runCrawl_totals (Lifecycle.urlEnv linkingFetch) 10 "proj1" "run1"
              (dbWithStatus RUNNING) d' projectA (runWith RUNNING))
    as (totals & Hrow & _ & Hpc & Hcap & _ & Hlc); [reflexivity | reflexivity | discriminate
                                                    | exact Hrun |].
  clear Hrun. exists d', totals.
  split; [reflexivity|]. split; [exact Hrow|]. split; [exact Hpc|].
  split; [exact Hcap | exact Hlc].
Defined.

End CrawlTotals.

(** ** What is fetched *)

Section Fetches.
Import Store Runner.
Variable env : Env.
Variable crawlRunId : string.
Variable baseDomain : string.
Variable settings : CrawlSettings.

(** [u] is the normalized form of the start URL, or of a URL that
    [isInternalUrl] accepts. *)
Definition fetchable (normalizedStart u : string) : Prop :=
  normalizeUrl env normalizedStart (ignoreParams settings) = Some u
  \/ exists link,
       isInternalUrl env link baseDomain (includeSubdomains settings) = true
       /\ normalizeUrl env link (ignoreParams settings) = Some u.

Definition fetchesInv (normalizedStart : string) (s : BfsState) : Prop :=
  frontierInv env baseDomain settings normalizedStart s
  /\ Forall (fetchable normalizedStart) (fetchLog s).

Lemma fetchesInv_step normalizedStart s :
  fetchesInv normalizedStart s ->
  fetchesInv normalizedStart (stateOf (bfsIteration env crawlRunId baseDomain settings s)).
Proof.
  intros [Hfront Hlog]. split; [by apply frontierInv_step|].
  destruct (bfsIteration_shape env crawlRunId baseDomain settings s)
    as [(s' & [H | H] & _ & _ & _ & Hl) | [(item & rest & Hq & H)
       | (item & rest & u & Hq & Hdepth & Hnorm & Hin & Hcap & H)]];
    rewrite H; cbn [stateOf]; try (by rewrite Hl); try exact Hlog.
  rewrite (proj1 (processPage_log _ _ _ _ _ _ _)).
  cbn [fetchLog markVisited withQueue withCounter].
  apply Forall_app. split; [exact Hlog|]. apply Forall_singleton.
  unfold frontierInv in Hfront. rewrite Hq in Hfront.
  apply Forall_cons in Hfront as [[-> | [_ Hint]] _].
  - by left.
  - right. by exists (url item).
Qed.

(** X21. Only the start URL and internal URLs are fetched: at every state
    of the loop, each fetched URL is the normalized form of the start URL
    or of a URL that [isInternalUrl] accepts for the base domain. *)
Theorem fetches_are_internal normalizedStart d s
    (Hreach : reachable env crawlRunId baseDomain settings
                (initialState normalizedStart d) s) :
  forall u, u ∈ fetchLog s ->
    normalizeUrl env normalizedStart (ignoreParams settings) = Some u
    \/ exists link,
         isInternalUrl env link baseDomain (includeSubdomains settings) = true
         /\ normalizeUrl env link (ignoreParams settings) = Some u.
Proof.
  assert (Hinv : fetchesInv normalizedStart s).
  { induction Hreach; [|by apply fetchesInv_step].
    split; [|constructor].
    unfold frontierInv. cbn [queue initialState]. constructor; [by left | constructor]. }
  intros u Hu. destruct Hinv as [_ Hlog]. rewrite Forall_forall in Hlog.
  by apply Hlog.
Qed.

End Fetches.

Section FetchesExamples.
Import Store Runner.

Lemma fetches_are_internal_witness :
  Forall (fun u =>
            Url.normalizeUrl Url.codeUnitCompare "https://a.test/"
              (ignoreParams DEFAULT_CRAWL_SETTINGS) = Some u
            \/ exists link,
                 Url.isInternalUrl link "a.test" false = true
                 /\ Url.normalizeUrl Url.codeUnitCompare link
                      (ignoreParams DEFAULT_CRAWL_SETTINGS) = Some u)
         (fetchLog (afterFirstPass linkingFetch))
  /\ fetchLog (afterFirstPass linkingFetch) = ["https://a.test/"].
Proof.
  split; [|vm_compute; reflexivity].
  apply Forall_forall.
  exact (fetches_are_internal (Lifecycle.urlEnv linkingFetch) "run1" "a.test"
           DEFAULT_CRAWL_SETTINGS "https://a.test/" emptyDb
           (afterFirstPass linkingFetch) (afterFirstPass_reachable linkingFetch)).
Defined.

End FetchesExamples.

(** ** The status code distribution, key by key *)

Section Distribution.
Import Store PostProcess.

(** The number of pages counted under the key [k]. *)
Definition pagesUnder (k : string) (ps : list Page) : Z :=
  Z.of_nat (List.length (filter (fun p => statusKey <$> page_statusCode p = Some k) ps)).

(** A counter as an object holds it: absent when zero. *)
Definition counterOf (n : Z) : option Z := if n =? 0 then None else Some n.

Lemma pagesUnder_snoc k ps p :
  pagesUnder k (ps ++ [p])
  = pagesUnder k ps + (if decide (statusKey <$> page_statusCode p = Some k) then 1 else 0).
Proof.
  unfold pagesUnder. rewrite filter_app, length_app, filter_cons, filter_nil.
  destruct (decide _); simpl; lia.
Qed.

Lemma scanPage_counts ps m dist p :
  (forall k, dist !! k = counterOf (pagesUnder k ps)) ->
  forall k, (scanPage (m, dist) p).2 !! k = counterOf (pagesUnder k (ps ++ [p])).
Proof.
  intros Hinv k. rewrite pagesUnder_snoc. unfold scanPage.
  assert (Hnn : 0 <= pagesUnder k ps) by (unfold pagesUnder; lia).
  destruct (page_statusCode p) as [c|]; cbn [snd fmap option_fmap option_map].
  - destruct (decide (Some (statusKey c) = Some k)) as [Heq|Hne].
    + injection Heq as <-. rewrite lookup_insert_eq, Hinv. unfold counterOf.
      destruct (Z.eqb_spec (pagesUnder (statusKey c) ps) 0) as [->|Hnz]; cbn [Js.orElse].
      * reflexivity.
      * destruct (Z.eqb_spec (pagesUnder (statusKey c) ps + 1) 0); [lia | reflexivity].
    + rewrite lookup_insert_ne by congruence. rewrite Hinv. by rewrite Z.add_0_r.
  - rewrite decide_False by done. rewrite Hinv. by rewrite Z.add_0_r.
Qed.

Lemma scanPages_counts_from ps : forall ps0 m dist,
  (forall k, dist !! k = counterOf (pagesUnder k ps0)) ->
  forall k, (foldl scanPage (m, dist) ps).2 !! k = counterOf (pagesUnder k (ps0 ++ ps)).
Proof.
  induction ps as [|p ps IH]; intros ps0 m dist Hinv k.
  - simpl. by rewrite app_nil_r.
  - cbn [foldl].
    replace (ps0 ++ p :: ps)%list with ((ps0 ++ [p]) ++ ps)%list by by rewrite <- app_assoc.
    pose proof (scanPage_counts ps0 m dist p Hinv) as Hstep.
    destruct (scanPage (m, dist) p) as [m' dist']. by apply IH.
Qed.

(** X22. The status code distribution counts the pages of the run status
    by status: the key [String(c)] is present exactly when some page of the
    run has status [c], and then holds the number of those pages; every key
    is the decimal form of a status code. *)
Theorem statusCodeDistribution_counts crawlRunId db :
  let distribution := statusCodeDistribution (postProcessCrawl crawlRunId db).1 in
  (forall c n,
      distribution !! statusKey c = Some n
      <-> 1 <= n
          /\ n = Z.of_nat (List.length (filter (fun p => page_statusCode p = Some c)
                                               (pagesOf crawlRunId db))))
  /\ (forall k, is_Some (distribution !! k) ->
        exists c p, k = statusKey c /\ p ∈ pagesOf crawlRunId db
                    /\ page_statusCode p = Some c).
Proof.
  cbv zeta. rewrite postProcessCrawl_fields. cbn [statusCodeDistribution].
  assert (Hinv : forall k, (scanPages (pagesOf crawlRunId db)).2 !! k
                           = counterOf (pagesUnder k (pagesOf crawlRunId db))).
  { intros k. unfold scanPages.
    apply (scanPages_counts_from (pagesOf crawlRunId db) [] ∅ ∅).
    intros k'. by rewrite lookup_empty. }
  split.
  - intros c n. rewrite Hinv.
    assert (Hsame : pagesUnder (statusKey c) (pagesOf crawlRunId db)
                    = Z.of_nat (List.length (filter (fun p => page_statusCode p = Some c)
                                                    (pagesOf crawlRunId db)))).
    { unfold pagesUnder. f_equal. f_equal. apply list_filter_iff. intros p.
      destruct (page_statusCode p) as [c'|]; cbn [fmap option_fmap option_map];
        [|split; discriminate].
      split; [intros [= H]; apply (inj pretty) in H; by subst | by intros [= ->]]. }
    rewrite Hsame. unfold counterOf.
    destruct (Z.eqb_spec (Z.of_nat (List.length (filter (fun p => page_statusCode p = Some c)
                                                        (pagesOf crawlRunId db)))) 0)
      as [Hz|Hnz].
    + split; [discriminate | intros [H1 H2]; lia].
    + split; [intros [= <-]; lia | intros [_ ->]; reflexivity].
  - intros k [n Hk]. rewrite Hinv in Hk. unfold counterOf in Hk.
    destruct (Z.eqb_spec (pagesUnder k (pagesOf crawlRunId db)) 0) as [|Hnz];
      [discriminate|].
    unfold pagesUnder in Hnz.
    destruct (filter _ _) as [|p rest] eqn:Hf; [done|].
    assert (Hp : p ∈ filter (fun p => statusKey <$> page_statusCode p = Some k)
                            (pagesOf crawlRunId db)) by (rewrite Hf; by left).
    apply list_elem_of_filter in Hp as [Hkey Hp].
    destruct (page_statusCode p) as [c|] eqn:Hc; [|discriminate].
    injection Hkey as <-. by exists c, p.
Qed.

End Distribution.

(** ** Why a job fails *)

Section JobFailures.
Import Store Runner Lifecycle.

(** The start URL of the project does not normalize. *)
Definition startUrlInvalid (env : Env) (project : Project) : Prop :=
  let settings := buildCrawlSettings (project_settingsJson project) in
  normalizeUrl env (project_startUrl project) (ignoreParams settings) = None
  \/ normalizeUrl env (project_startUrl project) (ignoreParams settings) = Some "".

(** The two ways [runCrawl] throws on a run that exists. *)
Definition crawlFailure (env : Env) (projectId : string) (d : DB) (message : string)
    : Prop :=
  (projects d !! projectId = None
   /\ message = "Project " +:+ projectId +:+ " not found")
  \/ (exists project,
        projects d !! projectId = Some project
        /\ startUrlInvalid env project
        /\ message = "Invalid start URL: " +:+ project_startUrl project).

Lemma runCrawl_throws env fuel pid id d run :
  crawlRuns d !! id = Some run ->
  (forall message d', runCrawl env fuel pid id d = Threw message d' ->
                      crawlFailure env pid d message)
  /\ (forall message, crawlFailure env pid d message ->
        exists d', runCrawl env fuel pid id d = Threw message d'
                   /\ crawlRuns d' = crawlRuns d).
Proof.
  intros Hrun. unfold runCrawl, crawlFailure, startUrlInvalid. rewrite Hrun. split.
  - intros message d' H.
    destruct (projects d !! pid) as [project|]; [|left; by injection H as <- _].
    right. exists project. split; [reflexivity|].
    destruct (normalizeUrl env _ _) as [start|] eqn:Hnorm;
      [|injection H as <- _; split; [by left | reflexivity]].
    destruct (String.eqb_spec start "") as [->|Hne];
      [injection H as <- _; split; [by right | reflexivity]|].
    exfalso. destruct (bfsLoop _ _ _ _ _ _) as [[[] s]|] eqn:Hloop; try discriminate.
    apply bfsLoop_crawlRuns in Hloop. cbn [db initialState] in Hloop.
    rewrite cleanUp_crawlRuns in Hloop.
    destruct (postProcessing_shape id (db s) run) as (d'' & Hpost & _);
      [by rewrite Hloop|].
    rewrite Hpost in H. discriminate.
  - intros message [[Hp ->] | (project & Hp & Hbad & ->)]; rewrite Hp.
    + by eexists.
    + destruct Hbad as [-> | ->]; by eexists.
Qed.

(** X23. A job fails for two reasons only. For a run that exists and is
    not CANCELED, [processJob] rejects exactly when the project of the job
    does not exist or its start URL does not normalize under the project's
    settings (an [ignoreParams] array with an element that is no string
    makes every URL fail to normalize), with the message that says so
    (the store answering every call); a failing fetch, a page that cannot
    be stored or an exhausted page limit never fail the job. *)
Theorem processJob_rejects_iff env fuel t0 t1 job d run message
    (Hrun : crawlRuns d !! crawlRunId job = Some run)
    (Hstatus : run_status run <> CANCELED) :
  (exists d', processJob env fuel t0 t1 job d = Rejected message d')
  <-> crawlFailure env (projectId job) d message.
Proof.
  unfold processJob. rewrite Hrun. rewrite bool_decide_eq_false_2 by done.
  rewrite (crawlRun_update_own _ _ d run Hrun).
  set (d1 := setCrawlRuns _ d).
  assert (Hrun1 : crawlRuns d1 !! crawlRunId job = Some (markRunning t0 run)).
  { unfold d1. cbn [crawlRuns setCrawlRuns]. apply lookup_insert_eq. }
  assert (Hsame : forall m, crawlFailure env (projectId job) d1 m
                            <-> crawlFailure env (projectId job) d m) by done.
  destruct (runCrawl_throws env fuel (projectId job) (crawlRunId job) d1 _ Hrun1)
    as [Hthrew Hfails].
  destruct (runCrawl_own env fuel (projectId job) (crawlRunId job) d1 _ Hrun1)
    as (run2 & Hrun2 & _ & _ & Hs & _).
  split.
  - intros [d' H].
    destruct (runCrawl env fuel (projectId job) (crawlRunId job) d1) as [d2|m d2|] eqn:Hcrawl;
      cbn [outcomeRuns] in Hrun2; [| |discriminate].
    + exfalso. rewrite Hrun2 in H.
      rewrite bool_decide_eq_false_2 in H by (rewrite Hs; discriminate).
      rewrite (crawlRun_update_own _ _ d2 run2 Hrun2) in H. discriminate.
    + apply Hsame, Hthrew with d2. unfold onError in H.
      rewrite (crawlRun_update_own _ _ d2 run2 Hrun2) in H. by injection H as <- _.
  - intros Hfail. apply Hsame in Hfail.
    destruct (Hfails message Hfail) as (d2 & -> & Hruns).
    unfold onError. rewrite (crawlRun_update_own _ _ d2 (markRunning t0 run)).
    + by eexists.
    + by rewrite Hruns.
Qed.

(** A project whose settings hold [ignoreParams: [1]]: the array is taken
    as it is, [normalizeUrl] fails on its element, and so the start URL
    does not normalize. *)
Definition projectBadParams : Project :=
  {| project_id := "proj1"; project_domain := "a.test";
     project_startUrl := "https://a.test/";
     project_settingsJson := JObj {["ignoreParams" := JArr [JNum 1]]} |}.

Definition dbBadParams : DB :=
  {| projects := {[ "proj1" := projectBadParams ]};
     crawlRuns := {[ "run1" := runWith QUEUED ]};
     pages := []; links := []; issues := []; templates := []; nextId := 0 |}.

Example bad_params_start_url :
  startUrlInvalid (urlEnv placeholderFetch) projectBadParams
  /\ ~ startUrlInvalid (urlEnv placeholderFetch) projectA.
Proof.
  split; [left; vm_compute; reflexivity|].
  intros [H | H]; vm_compute in H; discriminate.
Qed.

Lemma processJob_rejects_iff_witness :
  (exists d',
     processJob (urlEnv linkingFetch) 10 5 6 noProjectJob (dbWithStatus QUEUED)
     = Rejected "Project gone not found" d')
  /\ (exists d',
        processJob (urlEnv placeholderFetch) 10 5 6 jobA dbBadParams
        = Rejected "Invalid start URL: https://a.test/" d').
Proof.
  split.
  - apply (processJob_rejects_iff (urlEnv linkingFetch) 10%nat 5%nat 6%nat noProjectJob
             (dbWithStatus QUEUED) (runWith QUEUED) "Project gone not found").
    + reflexivity.
    + discriminate.
    + left. split; reflexivity.
  - apply (processJob_rejects_iff (urlEnv placeholderFetch) 10%nat 5%nat 6%nat jobA
             dbBadParams (runWith QUEUED) "Invalid start URL: https://a.test/").
    + reflexivity.
    + discriminate.
    + right. exists projectBadParams. split; [reflexivity|]. split; [|reflexivity].
      left. vm_compute. reflexivity.
Defined.

End JobFailures.

(** ** The rule catalogue *)

Section Catalogue.
Import Issues.

(** What a draft shows of the rule it came from. *)
Definition infoOfDraft (d : IssueDraft) : RuleInfo :=
  {| info_type := type d; info_severity := severity d; info_title := title d;
     info_description := description d; info_recommendation := recommendation d |}.

Lemma find_by_type (rules : list RuleDefinition) r :
  NoDup (rule_type <$> rules) -> r ∈ rules ->
  List.find (fun x => bool_decide (rule_type x = rule_type r)) rules = Some r.
Proof.
  induction rules as [|r0 rules IH]; intros Hnd Hin; [by apply elem_of_nil in Hin|].
  rewrite fmap_cons in Hnd. apply NoDup_cons in Hnd as [Hfresh Hnd].
  cbn [List.find]. apply elem_of_cons in Hin as [->|Hin].
  - by rewrite bool_decide_eq_true_2.
  - rewrite bool_decide_eq_false_2; [by apply IH|].
    intros Heq. apply Hfresh. rewrite Heq. by apply list_elem_of_fmap_2.
Qed.

(** X25. The catalogue and the evaluator agree. [getRuleByType] finds a
    rule for every type but DUPLICATE_TITLE; what it returns has the type
    asked for and is an entry of [getAllRules]; and every draft of
    [evaluatePageIssues] carries the severity, title, description and
    recommendation that [getRuleByType] returns for the draft's type. *)
Theorem catalogue_matches_drafts page extra :
  (forall t, getRuleByType t = None <-> t = DUPLICATE_TITLE)
  /\ (forall t info, getRuleByType t = Some info ->
        info_type info = t /\ info ∈ getAllRules)
  /\ Forall (fun d => getRuleByType (type d) = Some (infoOfDraft d))
            (evaluatePageIssues page extra).
Proof.
  split; [|split].
  - intros t. unfold getRuleByType. split.
    + destruct (List.find _ RULES) as [r|] eqn:Hfind; [discriminate|]. intros _.
      apply absent_type. intros Hin. apply list_elem_of_fmap in Hin as (r & -> & Hr).
      pose proof (find_none _ _ Hfind r) as Hnone. cbn beta in Hnone.
      rewrite bool_decide_eq_true_2 in Hnone by done.
      apply list_elem_of_In in Hr. specialize (Hnone Hr). discriminate.
    + intros ->. reflexivity.
  - intros t info. unfold getRuleByType.
    destruct (List.find _ RULES) as [r|] eqn:Hfind; [|discriminate].
    intros [= <-]. apply find_some in Hfind as [Hin Ht].
    apply bool_decide_eq_true in Ht. split; [exact Ht|].
    unfold getAllRules. apply list_elem_of_fmap_2. by apply list_elem_of_In.
  - apply Forall_forall. intros d Hd. rewrite evaluatePageIssues_omap in Hd.
    apply list_elem_of_omap in Hd as (r & Hr & Hd). unfold draftOf in Hd.
    destruct (evaluate r page extra).1; [|discriminate]. injection Hd as <-.
    unfold getRuleByType. cbn [type].
    by rewrite (find_by_type RULES r rule_types_distinct Hr).
Qed.

End Catalogue.
